(** * EventStoreConsumer: the poll / dispatch / ack-nack engine of src/index.ts

    The consumer is a single-threaded JavaScript object driven by the event
    loop.  Every callback of the source (a method called by the user, a
    promise continuation, a timer callback) runs to completion, so the
    embedding gives each of them as a function on an explicit [State], and the
    event loop as a [step] function from the external stimulus that wakes the
    callback up.  Everything observable that the callbacks do (requests,
    hooks, emitted events, timers) is appended to the [trace] of the state.

    Conventions.
    - JavaScript numbers are integers of [Z] (counts and milliseconds).  Up
      to [MAX_SAFE_INTEGER] in size the arithmetic of the code is that of
      [Z] and a template literal writes a number's decimal digits; a
      statement that spells a number out as text carries that range as a
      hypothesis.
    - [undefined] is [None]; for a link's [uri], which the source only ever
      tests with [!url], the empty string stands for every falsy value.
    - The logging hooks [onEvent], [onAck], [onNack], [onError] are recorded
      in the trace and return normally.
    - The handler and the hooks are user code.  In [step] they do not call
      the consumer's own methods while they run; [Reentrant.step] is the
      event loop for user code that calls [stop()] from inside
      [handleEvent]. *)

From Stdlib Require Import ZArith List String Bool Lia DecimalString
  Permutation.
Import ListNotations.
Open Scope string_scope.
Open Scope list_scope.
Open Scope Z_scope.

(** ** Data model *)

Definition Err := string.

Record Link := mkLink { relation : string; uri : string }.

Record Event := mkEvent { eventId : string; links : list Link }.

(** What a call [this.handler(event)] does before it returns: it either
    returns (a promise, settled later, or a plain value, which
    [Promise.resolve] turns into a promise) or throws. *)
Inductive HandlerCall :=
| Returned
| Threw (e : Err).

Record Params := mkParams {
  p_stream : option string;
  p_group : option string;
  p_handler : Event -> HandlerCall;
  p_concurrency : option Z;
  p_eventStoreUrl : option string;
  p_pollDelay : option Z
}.

(** What the consumer does to the outside: requests, emitted events, hooks,
    handler calls, timers, [console.log]. *)
Inductive Action :=
| ARequest (method url : string) (accept : option string)
| AEmit (name : string)
| AOnEvent (ev : Event)
| AOnAck (ev : Event)
| AOnNack (ev : Event)
| AOnError (e : Err)
| AHandler (ev : Event)
| ASetTimeout (delay : Z)
| AConsoleLog (e : Err).

(** State of one [ackNackHelper] invocation: the closure variables [url],
    [retryCount], [retries] and [delayMs]. *)
Record AckReq := mkAckReq {
  a_url : string;
  a_retryCount : Z;
  a_retries : Z;
  a_delayMs : Z
}.

(** Where the promise returned by [handleEvent] stands. *)
Inductive Phase :=
| Handling
| Requesting (r : AckReq)
| RetryWait (r : AckReq).

(** A task of the queue that was started; [tid] numbers the submissions. *)
Record Task := mkTask { tid : nat; tev : Event; phase : Phase }.

Inductive StopPromise :=
| ResolvedNow
| WaitsForDrain.

Record State := mkState {
  stream : option string;
  group : option string;
  handler : Event -> HandlerCall;
  concurrency : Z;
  eventStoreUrl : string;
  pollDelay : Z;
  running : bool;
  polling : bool;
  pollTimer : option nat;
  (* this.queue *)
  waiting : list (nat * Event);
  active : list Task;
  nextTid : nat;
  (* the runtime: armed poll timers, outstanding GET requests, listeners *)
  timers : list nat;
  nextTimer : nat;
  fetches : nat;
  drainListeners : nat;
  trace : list Action
}.

(** ** JavaScript's [||] on the option types used by the constructor *)

Definition js_or_str (a : option string) (b : string) : string :=
  match a with
  | Some s => if (s =? "")%string then b else s
  | None => b
  end.

Definition js_or_num (a : option Z) (d : Z) : Z :=
  match a with
  | Some n => if n =? 0 then d else n
  | None => d
  end.

Definition js_show (a : option string) : string :=
  match a with
  | Some s => s
  | None => "undefined"
  end.

Definition string_of_Z (z : Z) : string := NilZero.string_of_int (Z.to_int z).

(** [Number.MAX_SAFE_INTEGER], 2^53 - 1.  Up to it every integer is a number
    of JavaScript and [`${n}`] writes its decimal digits, which is
    [string_of_Z n]; from 10^21 on a template literal writes an exponent
    form such as [1e+21]. *)
Definition MAX_SAFE_INTEGER : Z := 9007199254740991.

(** ** The dispatch queue *)

(** Modelled from the spec: the Dispatch Queue is the p-queue package, which
    is not part of src/.  [new PQueue({concurrency})] refuses a concurrency
    that is not a number from 1 up; [size] counts the tasks that wait,
    [pending] the tasks that were started and have not settled. *)
Definition PQueue_valid (c : Z) : bool := 1 <=? c.

Definition queue_size (s : State) : Z := Z.of_nat (List.length (waiting s)).

Definition queue_pending (s : State) : Z := Z.of_nat (List.length (active s)).

(** ** Constructor *)

Inductive CtorError :=
| QueueTypeError
| MissingUrlError.

Definition constructor (env_EVENT_STORE_URL : option string) (params : Params)
  : CtorError + State :=
  let c := js_or_num (p_concurrency params) 1 in
  if negb (PQueue_valid c) then inl QueueTypeError
  else
    let d := js_or_num (p_pollDelay params) 500 in
    let u := js_or_str (p_eventStoreUrl params)
                       (js_or_str env_EVENT_STORE_URL "") in
    if (u =? "")%string then inl MissingUrlError
    else inr (mkState (p_stream params) (p_group params) (p_handler params)
                      c u d false false None [] [] 0 [] 0 0 0 []).

(** ** Field updates *)

Definition emit (a : Action) (s : State) : State :=
  mkState (stream s) (group s) (handler s) (concurrency s) (eventStoreUrl s)
          (pollDelay s) (running s) (polling s) (pollTimer s) (waiting s)
          (active s) (nextTid s) (timers s) (nextTimer s) (fetches s)
          (drainListeners s) (trace s ++ [a]).

Definition emit_all (l : list Action) (s : State) : State :=
  fold_left (fun st a => emit a st) l s.

Definition set_running (b : bool) (s : State) : State :=
  mkState (stream s) (group s) (handler s) (concurrency s) (eventStoreUrl s)
          (pollDelay s) b (polling s) (pollTimer s) (waiting s)
          (active s) (nextTid s) (timers s) (nextTimer s) (fetches s)
          (drainListeners s) (trace s).

Definition set_polling (b : bool) (s : State) : State :=
  mkState (stream s) (group s) (handler s) (concurrency s) (eventStoreUrl s)
          (pollDelay s) (running s) b (pollTimer s) (waiting s)
          (active s) (nextTid s) (timers s) (nextTimer s) (fetches s)
          (drainListeners s) (trace s).

Definition set_pollTimer (h : option nat) (s : State) : State :=
  mkState (stream s) (group s) (handler s) (concurrency s) (eventStoreUrl s)
          (pollDelay s) (running s) (polling s) h (waiting s)
          (active s) (nextTid s) (timers s) (nextTimer s) (fetches s)
          (drainListeners s) (trace s).

Definition set_waiting (w : list (nat * Event)) (s : State) : State :=
  mkState (stream s) (group s) (handler s) (concurrency s) (eventStoreUrl s)
          (pollDelay s) (running s) (polling s) (pollTimer s) w
          (active s) (nextTid s) (timers s) (nextTimer s) (fetches s)
          (drainListeners s) (trace s).

Definition set_active (a : list Task) (s : State) : State :=
  mkState (stream s) (group s) (handler s) (concurrency s) (eventStoreUrl s)
          (pollDelay s) (running s) (polling s) (pollTimer s) (waiting s)
          a (nextTid s) (timers s) (nextTimer s) (fetches s)
          (drainListeners s) (trace s).

Definition set_nextTid (n : nat) (s : State) : State :=
  mkState (stream s) (group s) (handler s) (concurrency s) (eventStoreUrl s)
          (pollDelay s) (running s) (polling s) (pollTimer s) (waiting s)
          (active s) n (timers s) (nextTimer s) (fetches s)
          (drainListeners s) (trace s).

Definition set_timers (l : list nat) (s : State) : State :=
  mkState (stream s) (group s) (handler s) (concurrency s) (eventStoreUrl s)
          (pollDelay s) (running s) (polling s) (pollTimer s) (waiting s)
          (active s) (nextTid s) l (nextTimer s) (fetches s)
          (drainListeners s) (trace s).

Definition set_nextTimer (n : nat) (s : State) : State :=
  mkState (stream s) (group s) (handler s) (concurrency s) (eventStoreUrl s)
          (pollDelay s) (running s) (polling s) (pollTimer s) (waiting s)
          (active s) (nextTid s) (timers s) n (fetches s)
          (drainListeners s) (trace s).

Definition set_fetches (n : nat) (s : State) : State :=
  mkState (stream s) (group s) (handler s) (concurrency s) (eventStoreUrl s)
          (pollDelay s) (running s) (polling s) (pollTimer s) (waiting s)
          (active s) (nextTid s) (timers s) (nextTimer s) n
          (drainListeners s) (trace s).

Definition set_drainListeners (n : nat) (s : State) : State :=
  mkState (stream s) (group s) (handler s) (concurrency s) (eventStoreUrl s)
          (pollDelay s) (running s) (polling s) (pollTimer s) (waiting s)
          (active s) (nextTid s) (timers s) (nextTimer s) (fetches s)
          n (trace s).

(** ** The runtime's timers *)

(** [setTimeout] arms a fresh timer and returns its handle. *)
Definition setTimeout (delay : Z) (s : State) : State * nat :=
  let t := nextTimer s in
  (emit (ASetTimeout delay)
        (set_nextTimer (S t) (set_timers (timers s ++ [t]) s)), t).

(** [clearTimeout(h)] disarms the timer of handle [h]; it does nothing for
    [undefined] and for a timer that has fired already. *)
Definition clearTimeout (h : option nat) (s : State) : State :=
  match h with
  | Some t => set_timers (remove Nat.eq_dec t (timers s)) s
  | None => s
  end.

(** ** Poller *)

(** [this.queue.size + this.queue.pending]. *)
Definition getQueueLength (s : State) : Z := queue_size s + queue_pending s.

(** [if (this.pollTimer) return]: a timer handle is truthy, also after its
    timer has fired; only [cancelScheduledPoll] deletes it. *)
Definition schedulePoll (s : State) : State :=
  match pollTimer s with
  | Some _ => s
  | None => let '(s1, t) := setTimeout (pollDelay s) s in
            set_pollTimer (Some t) s1
  end.

(** [clearTimeout(this.pollTimer); delete this.pollTimer]. *)
Definition cancelScheduledPoll (s : State) : State :=
  set_pollTimer None (clearTimeout (pollTimer s) s).

(** The template literal of [poll]; [`${count}`] is [string_of_Z count] for
    a count up to [MAX_SAFE_INTEGER]. *)
Definition pollUrl (s : State) (count : Z) : string :=
  (eventStoreUrl s ++ "/subscriptions/" ++ js_show (stream s) ++ "/"
     ++ js_show (group s) ++ "/" ++ string_of_Z count ++ "?embed=Body")%string.

Definition competingatom : string :=
  "application/vnd.eventstore.competingatom+json".

Definition request (method url : string) (accept : option string) (s : State)
  : State :=
  emit (ARequest method url accept) s.

(** The synchronous part of [poll], up to the request; [fetches] counts
    the GET requests that are outstanding. *)
Definition poll (s : State) : State :=
  let count := concurrency s - getQueueLength s in
  if count <=? 0 then schedulePoll s
  else if polling s then s
  else
    let s1 := cancelScheduledPoll (set_polling true s) in
    set_fetches (S (fetches s1))
                (request "GET" (pollUrl s1 count) (Some competingatom) s1).

(** ** Lifecycle *)

Definition start (s : State) : State := poll (set_running true s).

(** [stop] returns the state and the promise: resolved, or waiting for a
    'drain' event ([this.on('drain', resolve)]). *)
Definition stop (s : State) : State * StopPromise :=
  let s1 := cancelScheduledPoll (set_running false s) in
  if getQueueLength s1 =? 0 then (s1, ResolvedNow)
  else (set_drainListeners (S (drainListeners s1)) s1, WaitsForDrain).

Definition didHandleEvent (s : State) : State :=
  let s1 := if getQueueLength s =? 0 then emit (AEmit "drain") s else s in
  if running s1 then poll s1 else s1.

(** ** Acknowledgment protocol

    One [ackNackHelper] invocation is a small machine of its own: each of
    its callbacks returns the actions it performs and the status of the
    promise afterwards. *)

Inductive AckStatus :=
| AckResolved
| AckRejected (e : Err)
| AckInFlight (r : AckReq)
| AckWaiting (r : AckReq).

(** The [for] loop over [event.links]: the [uri] of the first link whose
    relation is [type], or a falsy value. *)
Fixpoint findLink (type : string) (ls : list Link) : string :=
  match ls with
  | [] => ""
  | link :: rest =>
      if (relation link =? type)%string then uri link else findLink type rest
  end.

Definition doRequest (r : AckReq) : list Action * AckStatus :=
  ([ARequest "POST" (a_url r) None], AckInFlight r).

Definition ackNackHelper (ev : Event) (type : string) (retries delayMs : Z)
  : list Action * AckStatus :=
  let hook := if (type =? "ack")%string then AOnAck ev else AOnNack ev in
  let url := findLink type (links ev) in
  if (url =? "")%string then ([hook], AckResolved)
  else
    let '(acts, st) := doRequest (mkAckReq url 0 retries delayMs) in
    (hook :: acts, st).

Definition ack (ev : Event) : list Action * AckStatus :=
  ackNackHelper ev "ack" 3 500.

Definition nack (ev : Event) : list Action * AckStatus :=
  ackNackHelper ev "nack" 3 500.

(** [.then] of the POST. *)
Definition onRequestResolved (r : AckReq) : list Action * AckStatus :=
  ([], AckResolved).

(** [.catch] of the POST. *)
Definition onRequestRejected (e : Err) (r : AckReq)
  : list Action * AckStatus :=
  let retryCount := a_retryCount r + 1 in
  if retryCount =? a_retries r then ([AOnError e], AckRejected e)
  else ([ASetTimeout (a_delayMs r)],
        AckWaiting (mkAckReq (a_url r) retryCount (a_retries r) (a_delayMs r))).

(** The callback of [setTimeout(doRequest.bind(this), delayMs)]. *)
Definition onRetryTimer (r : AckReq) : list Action * AckStatus := doRequest r.

(** ** Dispatch queue *)

(** The synchronous part of [handleEvent]: the hook, then the handler call. *)
Definition handleEvent (ev : Event) (s : State) : State * HandlerCall :=
  (emit (AHandler ev) (emit (AOnEvent ev) s), handler s ev).

(** The two continuations of [Promise.resolve(this.handler(event)).then]:
    [None] when the handler's promise resolved, [Some e] when it rejected. *)
Definition handlerSettled (ev : Event) (outcome : option Err)
  : list Action * AckStatus :=
  match outcome with
  | None => ack ev
  | Some e => let '(acts, st) := nack ev in (AOnError e :: acts, st)
  end.

(** Modelled from the spec: p-queue's start of the next task (not part of
    src/).  A task is started while fewer than [concurrency] tasks are
    pending.  A task whose function throws before it returns a promise is
    settled (rejected) at once, its slot is free again and the next task is
    tried; the rejection reaches the second callback of
    [queue.add(...).then(didHandleEvent, e => console.log(e.stack))].  That
    callback is a promise reaction: it runs when the running callback has
    returned, so the trace tells that the error is logged, not where the
    log stands among the other actions of the same callback. *)
Fixpoint startFrom (w : list (nat * Event)) (s : State) : State :=
  match w with
  | [] => set_waiting [] s
  | (t, ev) :: rest =>
      if queue_pending s <? concurrency s then
        let '(s1, r) := handleEvent ev s in
        match r with
        | Threw e => startFrom rest (emit (AConsoleLog e) s1)
        | Returned =>
            set_waiting rest (set_active (active s1 ++ [mkTask t ev Handling]) s1)
        end
      else set_waiting w s
  end.

Definition tryToStartAnother (s : State) : State := startFrom (waiting s) s.

(** [this.queue.add(this.handleEvent.bind(this, event))]. *)
Definition queue_add (ev : Event) (s : State) : State :=
  tryToStartAnother
    (set_nextTid (S (nextTid s)) (set_waiting (waiting s ++ [(nextTid s, ev)]) s)).

Definition removeTask (t : nat) (s : State) : State :=
  set_active (filter (fun k => negb (tid k =? t)%nat) (active s)) s.

Definition setPhase (t : nat) (p : Phase) (s : State) : State :=
  set_active
    (map (fun k => if (tid k =? t)%nat then mkTask (tid k) (tev k) p else k)
         (active s)) s.

(** The promise returned by [handleEvent] settles: the queue frees the slot
    and starts the next task, then the callbacks given to [.then] in [poll]
    run: [didHandleEvent] when it resolved, [console.log] when it
    rejected. *)
Definition taskSettled (t : nat) (res : option Err) (s : State) : State :=
  let s1 := tryToStartAnother (removeTask t s) in
  match res with
  | None => didHandleEvent s1
  | Some e => emit (AConsoleLog e) s1
  end.

(** Run one callback of the acknowledgment protocol for task [t]. *)
Definition applyAck (t : nat) (r : list Action * AckStatus) (s : State)
  : State :=
  let s1 := emit_all (fst r) s in
  match snd r with
  | AckResolved => taskSettled t None s1
  | AckRejected e => taskSettled t (Some e) s1
  | AckInFlight q => setPhase t (Requesting q) s1
  | AckWaiting q => setPhase t (RetryWait q) s1
  end.

(** ** Completion of the poll request *)

(** The first callback of [this.request('GET', ...).then].  The queue calls
    [handleEvent] from inside [queue.add], so the hook and the handler of a
    task that is started run here, between the test of [running] and the
    call of [poll]. *)
Definition onFetchResolved (entries : list Event) (s : State) : State :=
  let s1 := set_polling false s in
  if negb (running s1) then s1
  else if (0 <? List.length entries)%nat then
    let s2 := fold_left (fun st ev => queue_add ev st) entries s1 in
    emit (AEmit "poll") (poll s2)
  else emit (AEmit "poll") (schedulePoll s1).

(** The second callback: the request was rejected. *)
Definition onFetchRejected (e : Err) (s : State) : State :=
  let s1 := emit (AOnError e) (set_polling false s) in
  if running s1 then schedulePoll s1 else s1.

(** ** The event loop *)

(** What wakes a callback up: a call of the user ([start], [stop]), the
    outcome of the GET, a poll timer, and for the task [t]: the outcome of
    the handler's promise, the outcome of its POST, its retry timer. *)
Inductive Input :=
| Start
| Stop
| FetchOk (entries : list Event)
| FetchFail (e : Err)
| TimerFire (t : nat)
| HandlerResolve (t : nat)
| HandlerReject (t : nat) (e : Err)
| PostOk (t : nat)
| PostFail (t : nat) (e : Err)
| RetryFire (t : nat).

Definition findTask (t : nat) (s : State) : option Task :=
  find (fun k => (tid k =? t)%nat) (active s).

Definition mem (t : nat) (l : list nat) : bool :=
  existsb (fun x => (x =? t)%nat) l.

(** [step i s] is [None] when nothing in [s] waits for the stimulus [i].
    A poll timer that fires runs [poll]; the runtime forgets the timer, the
    consumer keeps its handle in [pollTimer]. *)
Definition step (i : Input) (s : State) : option State :=
  match i with
  | Start => Some (start s)
  | Stop => Some (fst (stop s))
  | FetchOk entries =>
      match fetches s with
      | O => None
      | S n => Some (onFetchResolved entries (set_fetches n s))
      end
  | FetchFail e =>
      match fetches s with
      | O => None
      | S n => Some (onFetchRejected e (set_fetches n s))
      end
  | TimerFire t =>
      if mem t (timers s)
      then Some (poll (set_timers (remove Nat.eq_dec t (timers s)) s))
      else None
  | HandlerResolve t =>
      match findTask t s with
      | Some (mkTask _ ev Handling) => Some (applyAck t (handlerSettled ev None) s)
      | _ => None
      end
  | HandlerReject t e =>
      match findTask t s with
      | Some (mkTask _ ev Handling) =>
          Some (applyAck t (handlerSettled ev (Some e)) s)
      | _ => None
      end
  | PostOk t =>
      match findTask t s with
      | Some (mkTask _ _ (Requesting r)) => Some (applyAck t (onRequestResolved r) s)
      | _ => None
      end
  | PostFail t e =>
      match findTask t s with
      | Some (mkTask _ _ (Requesting r)) =>
          Some (applyAck t (onRequestRejected e r) s)
      | _ => None
      end
  | RetryFire t =>
      match findTask t s with
      | Some (mkTask _ _ (RetryWait r)) => Some (applyAck t (onRetryTimer r) s)
      | _ => None
      end
  end.

Fixpoint steps (l : list Input) (s : State) : option State :=
  match l with
  | [] => Some s
  | i :: rest =>
      match step i s with
      | Some s1 => steps rest s1
      | None => None
      end
  end.

(** The states of a consumer that was constructed and then driven by the
    event loop. *)
Inductive reachable : State -> Prop :=
| reach_new env params s :
    constructor env params = inr s -> reachable s
| reach_step i s s' :
    reachable s -> step i s = Some s' -> reachable s'.

(** ** User code that calls [stop()]

    The handler and the [onEvent] hook run inside [handleEvent], which the
    queue calls from inside the callback that submits a batch or frees a
    slot.  They hold the consumer and may call [consumer.stop()] there.
    [stops ev] tells whether the user code that runs for [ev] does so before
    the handler returns or throws.  The callbacks that run user code are
    given again for such user code, under their names; the others are those
    above. *)
Module Reentrant.

Section UserCode.

Variable stops : Event -> bool.

Definition handleEvent (ev : Event) (s : State) : State * HandlerCall :=
  let s1 := emit (AHandler ev) (emit (AOnEvent ev) s) in
  (if stops ev then fst (stop s1) else s1, handler s ev).

(** Modelled from the spec: p-queue's start of the next task, as [startFrom]
    above.  While the function of the task runs, the task has left the
    waiting list and counts as pending. *)
Fixpoint startFrom (w : list (nat * Event)) (s : State) : State :=
  match w with
  | [] => set_waiting [] s
  | (t, ev) :: rest =>
      if queue_pending s <? concurrency s then
        let '(s1, r) :=
          handleEvent ev (set_waiting rest
                            (set_active (active s ++ [mkTask t ev Handling]) s)) in
        match r with
        | Threw e => startFrom rest (emit (AConsoleLog e) (set_active (active s) s1))
        | Returned => s1
        end
      else set_waiting w s
  end.

Definition tryToStartAnother (s : State) : State := startFrom (waiting s) s.

Definition queue_add (ev : Event) (s : State) : State :=
  tryToStartAnother
    (set_nextTid (S (nextTid s)) (set_waiting (waiting s ++ [(nextTid s, ev)]) s)).

Definition taskSettled (t : nat) (res : option Err) (s : State) : State :=
  let s1 := tryToStartAnother (removeTask t s) in
  match res with
  | None => didHandleEvent s1
  | Some e => emit (AConsoleLog e) s1
  end.

Definition applyAck (t : nat) (r : list Action * AckStatus) (s : State)
  : State :=
  let s1 := emit_all (fst r) s in
  match snd r with
  | AckResolved => taskSettled t None s1
  | AckRejected e => taskSettled t (Some e) s1
  | AckInFlight q => setPhase t (Requesting q) s1
  | AckWaiting q => setPhase t (RetryWait q) s1
  end.

(** The entries submitted by the first callback of the GET, before it calls
    [poll]. *)
Definition submitAll (entries : list Event) (s : State) : State :=
  fold_left (fun st ev => queue_add ev st) entries s.

Definition onFetchResolved (entries : list Event) (s : State) : State :=
  let s1 := set_polling false s in
  if negb (running s1) then s1
  else if (0 <? List.length entries)%nat then
    emit (AEmit "poll") (poll (submitAll entries s1))
  else emit (AEmit "poll") (schedulePoll s1).

Definition step (i : Input) (s : State) : option State :=
  match i with
  | Start => Some (start s)
  | Stop => Some (fst (stop s))
  | FetchOk entries =>
      match fetches s with
      | O => None
      | S n => Some (onFetchResolved entries (set_fetches n s))
      end
  | FetchFail e =>
      match fetches s with
      | O => None
      | S n => Some (onFetchRejected e (set_fetches n s))
      end
  | TimerFire t =>
      if mem t (timers s)
      then Some (poll (set_timers (remove Nat.eq_dec t (timers s)) s))
      else None
  | HandlerResolve t =>
      match findTask t s with
      | Some (mkTask _ ev Handling) => Some (applyAck t (handlerSettled ev None) s)
      | _ => None
      end
  | HandlerReject t e =>
      match findTask t s with
      | Some (mkTask _ ev Handling) =>
          Some (applyAck t (handlerSettled ev (Some e)) s)
      | _ => None
      end
  | PostOk t =>
      match findTask t s with
      | Some (mkTask _ _ (Requesting r)) => Some (applyAck t (onRequestResolved r) s)
      | _ => None
      end
  | PostFail t e =>
      match findTask t s with
      | Some (mkTask _ _ (Requesting r)) =>
          Some (applyAck t (onRequestRejected e r) s)
      | _ => None
      end
  | RetryFire t =>
      match findTask t s with
      | Some (mkTask _ _ (RetryWait r)) => Some (applyAck t (onRetryTimer r) s)
      | _ => None
      end
  end.

Fixpoint steps (l : list Input) (s : State) : option State :=
  match l with
  | [] => Some s
  | i :: rest =>
      match step i s with
      | Some s1 => steps rest s1
      | None => None
      end
  end.

(** The state after the stimuli [l]; [s] itself when one of them finds
    nothing that waits for it. *)
Definition after (l : list Input) (s : State) : State :=
  match steps l s with
  | Some s' => s'
  | None => s
  end.

End UserCode.

End Reentrant.

(** ** The error of a request (src/index.js) *)

(** A JavaScript error as [request] of src/index.js reads and builds it. *)
Record JsError := mkJsError {
  e_name : string;
  e_message : string;
  e_code : option string;
  e_status : option Z;
  e_statusCode : option Z;
  (* [e.response]: [None] when it is undefined, else its [statusMessage] *)
  e_response : option (option string)
}.

Definition show_num (n : option Z) : string :=
  match n with
  | Some z => string_of_Z z
  | None => "undefined"
  end.

(** The callback [.catch(e => ...)] of [request] in src/index.js: the error
    it throws, or [None] when reading [e.response.statusMessage] of an
    undefined response raises a TypeError instead. *)
Definition request_catch (method url : string) (e : JsError) : option JsError :=
  if (e_name e =? "StatusCodeError")%string then
    match e_response e with
    | Some statusMessage =>
        Some (mkJsError "Error"
                ("EventStore error " ++ show_num (e_statusCode e) ++ ": "
                   ++ js_show statusMessage ++ ". Method: " ++ method
                   ++ ". URL: " ++ url)%string
                (Some "EVENT_STORE_ERROR") (e_statusCode e) None None)
    | None => None
    end
  else Some e.

Definition notFound : JsError :=
  mkJsError "StatusCodeError" "404 - undefined" None None (Some 404)
            (Some (Some "Not Found")).

(** * Vocabulary of the properties *)

(** ** Construction *)

Definition resolvedUrl (env : option string) (p : Params) : string :=
  js_or_str (p_eventStoreUrl p) (js_or_str env "").

Definition isNone {A : Type} (o : option A) : bool :=
  match o with
  | None => true
  | Some _ => false
  end.

(** A required piece of configuration is missing: the stream, the group, or
    the base address (neither the option nor the environment gives one). *)
Definition missingRequired (env : option string) (p : Params) : bool :=
  isNone (p_stream p) || isNone (p_group p) || (resolvedUrl env p =? "")%string.

Definition noIdentity : Params :=
  mkParams None None (fun _ => Returned) None (Some "http://localhost:2113") None.

Definition noAddress : Params :=
  mkParams (Some "MyStream") (Some "my-service") (fun _ => Returned) (Some 5)
           None None.

(** ** Acknowledgment protocol *)

Definition hookOf (type : string) (ev : Event) : Action :=
  if (type =? "ack")%string then AOnAck ev else AOnNack ev.

Definition isRequest (a : Action) : bool :=
  match a with
  | ARequest _ _ _ => true
  | _ => false
  end.

Definition ev_foreign : Event :=
  mkEvent "ev9" [mkLink "self" "http://localhost:2113/streams/MyStream/9";
                 mkLink "nack" "http://localhost:2113/nack/ev9"].

(** *** Retries under a transport that fails every request

    [failingRun fuel err st] drives one acknowledgment whose POST is rejected
    every time: the request in flight is rejected with [err k], where [k] is
    the value of [retryCount] at that moment, and a retry timer that is armed
    fires.  The run stops when the promise is settled (or when the fuel is
    used up). *)
Fixpoint failingRun (fuel : nat) (err : Z -> Err) (st : AckStatus)
  : list Action * AckStatus :=
  match fuel with
  | O => ([], st)
  | S f =>
      match st with
      | AckInFlight r =>
          let '(a, st1) := onRequestRejected (err (a_retryCount r)) r in
          let '(b, st2) := failingRun f err st1 in
          (a ++ b, st2)
      | AckWaiting r =>
          let '(a, st1) := onRetryTimer r in
          let '(b, st2) := failingRun f err st1 in
          (a ++ b, st2)
      | _ => ([], st)
      end
  end.

(** The whole acknowledgment: [ackNackHelper], then the failing run. *)
Definition failingAck (fuel : nat) (err : Z -> Err) (ev : Event) (type : string)
  (retries delayMs : Z) : list Action * AckStatus :=
  let '(a, st) := ackNackHelper ev type retries delayMs in
  let '(b, st') := failingRun fuel err st in
  (a ++ b, st').

(** [n] times "wait [delayMs], then POST again". *)
Fixpoint retryRounds (n : nat) (url : string) (delayMs : Z) : list Action :=
  match n with
  | O => []
  | S k => ASetTimeout delayMs :: ARequest "POST" url None
             :: retryRounds k url delayMs
  end.

Definition isOnError (a : Action) : bool :=
  match a with
  | AOnError _ => true
  | _ => false
  end.

Definition isSetTimeout (a : Action) : bool :=
  match a with
  | ASetTimeout _ => true
  | _ => false
  end.

(** A pending acknowledgment whose bound is below 1 (and whose counter is
    not negative). *)
Definition unbounded (st : AckStatus) : Prop :=
  match st with
  | AckInFlight r | AckWaiting r => a_retries r <= 0 /\ 0 <= a_retryCount r
  | _ => False
  end.

Definition ev1 : Event :=
  mkEvent "ev1" [mkLink "ack" "http://localhost:2113/ack/ev1";
                 mkLink "nack" "http://localhost:2113/nack/ev1"].

Definition ev2 : Event :=
  mkEvent "ev2" [mkLink "ack" "http://localhost:2113/ack/ev2";
                 mkLink "nack" "http://localhost:2113/nack/ev2"].

(** ** Frames: which part of the state each callback touches *)

(** The configuration, set by the constructor. *)
Definition cfgOf (s : State) :=
  (stream s, group s, eventStoreUrl s, concurrency s, pollDelay s).

(** The poller's part of the state. *)
Definition pollerOf (s : State) :=
  (running s, polling s, pollTimer s, timers s, fetches s).

(** The queue's part of the state. *)
Definition queueOf (s : State) := (waiting s, active s).

(** The actions of the trace selected by [f]. *)
Definition sel (f : Action -> bool) (s : State) : list Action :=
  filter f (trace s).

(** Actions of the dispatch of a task: hook, handler call, logged rejection. *)
Definition isQueueAct (a : Action) : bool :=
  match a with
  | AOnEvent _ | AHandler _ | AConsoleLog _ => true
  | _ => false
  end.

(** [f] selects none of the actions of a dispatch. *)
Definition quiet (f : Action -> bool) : Prop :=
  forall a, isQueueAct a = true -> f a = false.

Definition isGet (a : Action) : bool :=
  match a with
  | ARequest m _ _ => (m =? "GET")%string
  | _ => false
  end.

Definition isEmit (name : string) (a : Action) : bool :=
  match a with
  | AEmit n => (n =? name)%string
  | _ => false
  end.

(** A callback of the queue: configuration, poller and the selected
    actions are left as they are. *)
Definition queueFrame (f : Action -> bool) (s s' : State) : Prop :=
  cfgOf s' = cfgOf s /\ handler s' = handler s
  /\ pollerOf s' = pollerOf s /\ pollTimer s' = pollTimer s
  /\ nextTimer s' = nextTimer s /\ drainListeners s' = drainListeners s
  /\ sel f s' = sel f s.

(** A callback of the poller leaves configuration and queue as they are. *)
Definition pollerFrame (s s' : State) : Prop :=
  cfgOf s' = cfgOf s /\ handler s' = handler s /\ queueOf s' = queueOf s.

(** The request branch of [poll], taken when there is capacity and no poll
    request is outstanding. *)
Definition issuePoll (count : Z) (s : State) : State :=
  let s1 := cancelScheduledPoll (set_polling true s) in
  set_fetches (S (fetches s1))
              (request "GET" (pollUrl s1 count) (Some competingatom) s1).

(** ** The poll token *)

(** Every armed poll timer is the one whose handle the consumer holds. *)
Definition timerInv (s : State) : Prop :=
  timers s = [] \/ exists t, pollTimer s = Some t /\ timers s = [t].

(** [polling] is set exactly while a GET request is outstanding. *)
Definition fetchInv (s : State) : Prop :=
  fetches s = if polling s then 1%nat else 0%nat.

Definition PollerInv (s : State) : Prop := timerInv s /\ fetchInv s.

(** At most one poll request outstanding, at most one poll timer armed. *)
Definition pollToken (s : State) : Prop :=
  (fetches s <= 1)%nat /\ (List.length (timers s) <= 1)%nat.

(** The empty selection. *)
Definition noAction (a : Action) : bool := false.

(** ** Runs from a constructed consumer *)

(** [after l s]: the state after the stimuli [l]; [s] itself when some
    stimulus of [l] finds nothing that waits for it. *)
Definition after (l : list Input) (s : State) : State :=
  match steps l s with
  | Some s' => s'
  | None => s
  end.

Definition params1 : Params :=
  mkParams (Some "MyStream") (Some "my-service") (fun _ => Returned) None
           (Some "http://localhost:2113") None.

Definition params5 : Params :=
  mkParams (Some "MyStream") (Some "my-service") (fun _ => Returned) (Some 5)
           (Some "http://localhost:2113") None.

Definition consumer1 : State :=
  mkState (Some "MyStream") (Some "my-service") (fun _ => Returned) 1
          "http://localhost:2113" 500 false false None [] [] 0 [] 0 0 0 [].

Definition consumer5 : State :=
  mkState (Some "MyStream") (Some "my-service") (fun _ => Returned) 5
          "http://localhost:2113" 500 false false None [] [] 0 [] 0 0 0 [].

(** ** The concurrency ceiling *)

Definition isHandling (k : Task) : bool :=
  match phase k with
  | Handling => true
  | _ => false
  end.

(** The handler invocations that are active: started, promise not settled. *)
Definition activeHandlers (s : State) : list Task := filter isHandling (active s).

Definition QueueInv (s : State) : Prop :=
  1 <= concurrency s /\ queue_pending s <= concurrency s.

(** ** Every fetch asks for a positive number of events *)

Definition goodGet (s : State) (a : Action) : Prop :=
  exists count, 0 < count /\ count <= concurrency s
                /\ a = ARequest "GET" (pollUrl s count) (Some competingatom).

Definition GetInv (s : State) : Prop := Forall (goodGet s) (sel isGet s).

(** No callback of the acknowledgment protocol issues a GET. *)
Definition noGet (l : list Action) : bool := forallb (fun a => negb (isGet a)) l.

(** ** After [stop] *)

(** Not running and no poll timer armed. *)
Definition Stopped (s : State) : Prop := running s = false /\ timers s = [].

Definition isStart (i : Input) : bool :=
  match i with
  | Start => true
  | _ => false
  end.

(** ** The 'poll' event *)


(** ** Where the code leaves the documented behaviour *)

(** Split a conjunction into its parts, and nothing else. *)
Ltac splits := repeat match goal with |- _ /\ _ => split end.

(** Nothing in [s] waits for a stimulus: only [start()] and [stop()] can
    still be called. *)
Definition idle (s : State) : Prop :=
  forall i, i <> Start -> i <> Stop -> step i s = None.

(** The consumer with [concurrency] 1 has fetched [ev1], the handler has
    resolved, and the POST of the ack has failed twice; the third attempt
    is in flight.  Meanwhile the poll timer armed after the fetch has
    fired. *)
Definition lastAttempt : State :=
  after [Start; FetchOk [ev1]; TimerFire 0; HandlerResolve 0;
         PostFail 0 "ECONNREFUSED"; RetryFire 0;
         PostFail 0 "ECONNREFUSED"; RetryFire 0] consumer1.

(** The consumer with [concurrency] 1 has fetched [ev1], whose handler is
    still running; the immediate re-poll found the queue full and armed
    timer 0. *)
Definition queueFull : State := after [Start; FetchOk [ev1]] consumer1.

(** The handler of scenario A, written as a plain function: it throws for
    [ev2]. *)
Definition throwingHandler (ev : Event) : HandlerCall :=
  if (eventId ev =? "ev2")%string then Threw "Test error" else Returned.

Definition consumerA : State :=
  mkState (Some "MyStream") (Some "my-service") throwingHandler 5
          "http://localhost:2113" 500 false false None [] [] 0 [] 0 0 0 [].

(** The actions of an acknowledgment: the hooks, the error hook, a POST. *)
Definition isAckNack (a : Action) : bool :=
  match a with
  | AOnAck _ | AOnNack _ | AOnError _ | ARequest "POST" _ _ => true
  | _ => false
  end.

Definition isConsoleLog (a : Action) : bool :=
  match a with
  | AConsoleLog _ => true
  | _ => false
  end.

(** User code that calls [consumer.stop()] while it handles [ev1], as the
    handler [function (event) { if (event.eventId === 'ev1') consumer.stop() }]
    does. *)
Definition stopsOnEv1 (ev : Event) : bool := (eventId ev =? "ev1")%string.

(** User code that never calls [stop()]. *)
Definition neverStops (ev : Event) : bool := false.

Definition ev_shadowed : Event :=
  mkEvent "ev7" [mkLink "self" "http://localhost:2113/streams/MyStream/7";
                 mkLink "ack" "";
                 mkLink "ack" "http://localhost:2113/ack/ev7"].

(** ** The configuration is fixed by the constructor *)

(** The configuration and the handler of [s'] are those of [s]. *)
Definition sameConfig (s s' : State) : Prop :=
  cfgOf s' = cfgOf s /\ handler s' = handler s.

(** The address of a subscription, as [poll] writes it. *)
Definition subscriptionUrl (base : string) (st gr : option string) (count : Z)
  : string :=
  (base ++ "/subscriptions/" ++ js_show st ++ "/" ++ js_show gr ++ "/"
     ++ string_of_Z count ++ "?embed=Body")%string.

Definition paramsOverride : Params :=
  mkParams (Some "MyStream") (Some "my-service") (fun _ => Returned) (Some 10)
           (Some "http://override.localhost:2113") None.

(** ** A request and a timer never coexist *)

(** While a poll request is outstanding no poll timer is armed, no handle is
    held, and the queue has room. *)
Definition Excl (s : State) : Prop :=
  polling s = true ->
  timers s = [] /\ pollTimer s = None /\ 0 < concurrency s - getQueueLength s.

(** ** Refill *)

(** The handler returns for every event (it may still reject later). *)
Definition neverThrows (s : State) : Prop := forall ev, handler s ev = Returned.

(** ** The 'drain' event *)




(** ** [stop] leaves the accepted events alone *)

(** What the dispatch of the accepted events shows to the outside: hooks,
    handler calls, POSTs, logged errors and 'drain'; not the GETs, the
    timers and 'poll'. *)
Definition isDispatch (a : Action) : bool :=
  match a with
  | ARequest m _ _ => negb (m =? "GET")%string
  | AEmit n => (n =? "drain")%string
  | ASetTimeout _ => false
  | _ => true
  end.

(** A stimulus for a task: the outcome of its handler, of its POST, or its
    retry timer. *)
Definition isTaskInput (i : Input) : bool :=
  match i with
  | HandlerResolve _ | HandlerReject _ _ | PostOk _ | PostFail _ _
  | RetryFire _ => true
  | _ => false
  end.

(** Two states with the same queue, handler, ceiling and dispatch trace. *)
Definition sameQueue (a b : State) : Prop :=
  handler a = handler b /\ concurrency a = concurrency b
  /\ waiting a = waiting b /\ active a = active b
  /\ sel isDispatch a = sel isDispatch b.

(** ** Every submitted event is handled once *)

Definition isHandlerCall (a : Action) : bool :=
  match a with
  | AHandler _ => true
  | _ => false
  end.

Definition isOnEvent (a : Action) : bool :=
  match a with
  | AOnEvent _ => true
  | _ => false
  end.

(** How often [f] was selected so far. *)
Definition count (f : Action -> bool) (s : State) : nat := List.length (sel f s).

(** [f] selects nothing that the poller or an emitter writes. *)
Definition pollBlind (f : Action -> bool) : Prop :=
  (forall d, f (ASetTimeout d) = false)
  /\ (forall u a, f (ARequest "GET" u a) = false)
  /\ (forall n, f (AEmit n) = false).

(** The waiting tasks, the numbering and the selected actions are kept. *)
Definition keeps (f : Action -> bool) (s s' : State) : Prop :=
  nextTid s' = nextTid s /\ waiting s' = waiting s /\ sel f s' = sel f s.

(** Handler calls and waiting tasks add up to the submissions, and the
    hook was fired as often as the handler was called. *)
Definition HandledOnce (s : State) : Prop :=
  (count isHandlerCall s + List.length (waiting s) = nextTid s)%nat
  /\ count isOnEvent s = count isHandlerCall s.

(** The actions of the acknowledgment protocol are neither handler calls
    nor [onEvent] hooks. *)
Definition noDispatch (l : list Action) : bool :=
  forallb (fun a => negb (isHandlerCall a) && negb (isOnEvent a)) l.

(** The events that the stimulus [i] submits to the queue: the entries of a
    batch that arrives while the consumer is running. *)
Definition submitted (i : Input) (s : State) : nat :=
  match i with
  | FetchOk entries => if running s then List.length entries else 0%nat
  | _ => 0%nat
  end.

(** ** Task numbers are unique *)

(** The numbers of the tasks in the queue, waiting and started. *)
Definition ids (s : State) : list nat :=
  map fst (waiting s) ++ map tid (active s).

Definition UniqueIds (s : State) : Prop :=
  NoDup (ids s) /\ Forall (fun n => (n < nextTid s)%nat) (ids s).

(** ** One ack or nack for every handler call that returned *)



Definition isOnNack (a : Action) : bool :=
  match a with
  | AOnNack _ => true
  | _ => false
  end.




(** ** The acknowledgments in flight *)

(** The closure of an acknowledgment of the event [ev]: bound 3, delay 500,
    and the [uri] of the event's ack or nack link. *)
Definition okReq (ev : Event) (r : AckReq) : Prop :=
  a_retries r = 3 /\ a_delayMs r = 500 /\ a_url r <> ""
  /\ (a_url r = findLink "ack" (links ev) \/ a_url r = findLink "nack" (links ev)).

(** A task that acknowledges has failed fewer than 3 times; it waits for a
    retry only after a failure. *)
Definition ackOk (k : Task) : Prop :=
  match phase k with
  | Handling => True
  | Requesting r => okReq (tev k) r /\ 0 <= a_retryCount r < 3
  | RetryWait r => okReq (tev k) r /\ 1 <= a_retryCount r < 3
  end.

Definition RetryInv (s : State) : Prop := Forall ackOk (active s).

(** The status that a callback of the protocol leaves for the task [k]. *)
Definition statusOk (k : Task) (st : AckStatus) : Prop :=
  match st with
  | AckInFlight q => ackOk (mkTask (tid k) (tev k) (Requesting q))
  | AckWaiting q => ackOk (mkTask (tid k) (tev k) (RetryWait q))
  | _ => True
  end.

(** ** The delays of the timers *)

(** A timer of the poll delay, or of the retry delay 500. *)
Definition okTimer (s : State) (a : Action) : Prop :=
  a = ASetTimeout (pollDelay s) \/ a = ASetTimeout 500.

Definition TimersOk (s : State) : Prop := Forall (okTimer s) (sel isSetTimeout s).

Definition paramsSlow : Params :=
  mkParams (Some "MyStream") (Some "my-service") (fun _ => Returned) None
           (Some "http://localhost:2113") (Some 2000).

Definition consumerSlow : State :=
  mkState (Some "MyStream") (Some "my-service") (fun _ => Returned) 1
          "http://localhost:2113" 2000 false false None [] [] 0 [] 0 0 0 [].

(** ** No event waits while a slot is free *)

Definition NoWait (s : State) : Prop :=
  waiting s = [] \/ concurrency s <= queue_pending s.

(** * Properties *)

(** ** Construction *)

Lemma constructor_url_check env p :
  resolvedUrl env p = "" -> exists e, constructor env p = inl e.
Proof.
  intros H. unfold constructor. fold (resolvedUrl env p). rewrite H.
  destruct (negb (PQueue_valid (js_or_num (p_concurrency p) 1))).
  - now exists QueueTypeError.
  - now exists MissingUrlError.
Qed.

Lemma constructor_succeeds env p :
  resolvedUrl env p <> "" ->
  PQueue_valid (js_or_num (p_concurrency p) 1) = true ->
  exists s, constructor env p = inr s
            /\ stream s = p_stream p /\ group s = p_group p
            /\ eventStoreUrl s = resolvedUrl env p.
Proof.
  intros Hu Hc. unfold constructor. fold (resolvedUrl env p). rewrite Hc.
  simpl. apply String.eqb_neq in Hu. rewrite Hu.
  eexists; repeat split; reflexivity.
Qed.

(** C8, as stated, fails: with a stream and a group that are both missing the
    constructor returns a consumer. *)
Lemma C8_missing_identity_accepted :
  missingRequired None noIdentity = true
  /\ exists s, constructor None noIdentity = inr s /\ stream s = None /\ group s = None.
Proof.
  split; [reflexivity|]. eexists; repeat split; reflexivity.
Qed.

(** C8 (amended): when neither the [eventStoreUrl] option nor the
    environment gives a base address, the constructor raises an error at
    once; when an address is given (and the queue accepts the concurrency) it
    returns a consumer whatever the stream and the group are, missing ones
    included. *)
Theorem C8_constructor_requires_address (env : option string) (p : Params) :
  (resolvedUrl env p = "" -> exists e, constructor env p = inl e)
  /\ (resolvedUrl env p <> "" ->
      PQueue_valid (js_or_num (p_concurrency p) 1) = true ->
      exists s, constructor env p = inr s
                /\ stream s = p_stream p /\ group s = p_group p).
Proof.
  split.
  - apply constructor_url_check.
  - intros Hu Hc. destruct (constructor_succeeds env p Hu Hc) as (s & E & A & B & _).
    now exists s.
Qed.

Lemma C8_constructor_requires_address_witness :
  (exists e, constructor None noAddress = inl e)
  /\ (exists s, constructor (Some "http://env:2113") noAddress = inr s
                /\ stream s = Some "MyStream" /\ group s = Some "my-service").
Proof.
  split.
  - apply (proj1 (C8_constructor_requires_address None noAddress)). reflexivity.
  - apply (proj2 (C8_constructor_requires_address (Some "http://env:2113") noAddress)).
    + discriminate.
    + reflexivity.
Defined.

(** ** Acknowledgment protocol *)

Lemma findLink_absent type ls :
  (forall l, In l ls -> relation l <> type) -> findLink type ls = "".
Proof.
  induction ls as [|l ls IH]; intros H; simpl.
  - reflexivity.
  - destruct (String.eqb_spec (relation l) type) as [E|_].
    + exfalso. apply (H l); [now left | exact E].
    + apply IH. intros l' Hl'. apply H. now right.
Qed.

(** C6: when no link of the event has the relation of the outcome, the
    acknowledgment fires its hook, issues no request and is resolved at
    once. *)
Theorem C6_no_link_no_request (ev : Event) (type : string) (retries delayMs : Z) :
  (forall l, In l (links ev) -> relation l <> type) ->
  ackNackHelper ev type retries delayMs = ([hookOf type ev], AckResolved)
  /\ filter isRequest (fst (ackNackHelper ev type retries delayMs)) = [].
Proof.
  intros H. unfold ackNackHelper. rewrite (findLink_absent _ _ H). simpl.
  split; [reflexivity|]. unfold hookOf. now destruct (type =? "ack")%string.
Qed.

Lemma C6_no_link_no_request_witness :
  ack ev_foreign = ([AOnAck ev_foreign], AckResolved)
  /\ filter isRequest (fst (ack ev_foreign)) = [].
Proof.
  apply (C6_no_link_no_request ev_foreign "ack" 3 500).
  intros l [E|[E|[]]]; subst l; discriminate.
Defined.

Lemma failingRun_settled fuel err st :
  (st = AckResolved \/ exists e, st = AckRejected e) ->
  failingRun fuel err st = ([], st).
Proof.
  intros [->|[e ->]]; destruct fuel; reflexivity.
Qed.

(** From a request in flight with [k] failures counted so far, [n + 1]
    further failures exhaust the retries when [k + n + 1 = retries]. *)
Lemma failingRun_in_flight err url d :
  forall (n : nat) (k retries : Z) (fuel : nat),
    k + Z.of_nat n + 1 = retries -> 0 <= k ->
    (2 * n + 1 <= fuel)%nat ->
    failingRun fuel err (AckInFlight (mkAckReq url k retries d))
    = (retryRounds n url d ++ [AOnError (err (retries - 1))],
       AckRejected (err (retries - 1))).
Proof.
  induction n as [|n IH]; intros k retries fuel Hk H0 Hf.
  - destruct fuel as [|f]; [lia|].
    cbn [failingRun a_retryCount]. unfold onRequestRejected.
    cbn [a_retryCount a_retries a_delayMs a_url].
    replace (k + 1 =? retries) with true by (symmetry; apply Z.eqb_eq; lia).
    rewrite failingRun_settled by (right; eauto). simpl.
    replace (retries - 1) with k by lia. reflexivity.
  - destruct fuel as [|[|f]]; [lia|lia|].
    cbn [failingRun a_retryCount]. unfold onRequestRejected.
    cbn [a_retryCount a_retries a_delayMs a_url].
    replace (k + 1 =? retries) with false by (symmetry; apply Z.eqb_neq; lia).
    cbn [failingRun]. unfold onRetryTimer, doRequest. cbn [a_url].
    rewrite (IH (k + 1) retries f) by lia. reflexivity.
Qed.

(** With a bound below 1 the counter never meets the bound: the failing run
    is never settled, whatever the fuel. *)
Lemma failingRun_unbounded err fuel :
  forall st, unbounded st -> unbounded (snd (failingRun fuel err st)).
Proof.
  induction fuel as [|f IH]; intros st H; [exact H|].
  destruct st as [| |r|r]; try contradiction; destruct H as [H1 H2];
    cbn [failingRun].
  - unfold onRequestRejected.
    replace (a_retryCount r + 1 =? a_retries r) with false
      by (symmetry; apply Z.eqb_neq; lia).
    set (st1 := AckWaiting _).
    assert (U : unbounded st1) by (subst st1; simpl; lia).
    specialize (IH st1 U). destruct (failingRun f err st1). exact IH.
  - unfold onRetryTimer, doRequest.
    assert (U : unbounded (AckInFlight r)) by (simpl; lia).
    specialize (IH _ U). destruct (failingRun f err (AckInFlight r)). exact IH.
Qed.

Lemma filter_retryRounds_request n url d :
  filter isRequest (retryRounds n url d) = repeat (ARequest "POST" url None) n.
Proof. induction n; simpl; congruence. Qed.

Lemma filter_retryRounds_timeout n url d :
  filter isSetTimeout (retryRounds n url d) = repeat (ASetTimeout d) n.
Proof. induction n; simpl; congruence. Qed.

Lemma filter_retryRounds_error n url d :
  filter isOnError (retryRounds n url d) = [].
Proof. induction n; simpl; congruence. Qed.

(** C3: with a transport that rejects every request, an acknowledgment with
    a bound of [retries >= 1] attempts posts exactly [retries] times to the
    link, waits the same [delayMs] before each repeated attempt, calls the
    error hook once, after the last failure, and is then rejected: whatever
    fuel is left, nothing more is requested.  [ack] and [nack] use the bound
    3 and the delay 500. *)
Theorem C3_bounded_retries (ev : Event) (type : string) (retries delayMs : Z)
  (err : Z -> Err) (fuel : nat) :
  1 <= retries ->
  findLink type (links ev) <> "" ->
  (2 * Z.to_nat retries <= fuel)%nat ->
  let url := findLink type (links ev) in
  let run := failingAck fuel err ev type retries delayMs in
  run = (hookOf type ev :: ARequest "POST" url None
           :: retryRounds (Z.to_nat (retries - 1)) url delayMs
           ++ [AOnError (err (retries - 1))],
         AckRejected (err (retries - 1)))
  /\ filter isRequest (fst run)
     = repeat (ARequest "POST" url None) (Z.to_nat retries)
  /\ filter isSetTimeout (fst run)
     = repeat (ASetTimeout delayMs) (Z.to_nat retries - 1)
  /\ filter isOnError (fst run) = [AOnError (err (retries - 1))]
  /\ ack ev = ackNackHelper ev "ack" 3 500
  /\ nack ev = ackNackHelper ev "nack" 3 500.
Proof.
  intros Hr Hu Hf url run.
  assert (E : run = (hookOf type ev :: ARequest "POST" url None
           :: retryRounds (Z.to_nat (retries - 1)) url delayMs
           ++ [AOnError (err (retries - 1))],
         AckRejected (err (retries - 1)))).
  { subst run. unfold failingAck, ackNackHelper. fold url.
    apply String.eqb_neq in Hu. fold url in Hu. rewrite Hu.
    cbn [doRequest a_url].
    rewrite (failingRun_in_flight err url delayMs (Z.to_nat (retries - 1)) 0 retries fuel)
      by lia.
    reflexivity. }
  rewrite E. cbn [fst].
  assert (Hh : forall f, f (hookOf type ev) = false ->
                         filter f [hookOf type ev] = []).
  { intros f Hfh. simpl. now rewrite Hfh. }
  assert (H1 : isRequest (hookOf type ev) = false)
    by (unfold hookOf; now destruct (type =? "ack")%string).
  assert (H2 : isSetTimeout (hookOf type ev) = false)
    by (unfold hookOf; now destruct (type =? "ack")%string).
  assert (H3 : isOnError (hookOf type ev) = false)
    by (unfold hookOf; now destruct (type =? "ack")%string).
  repeat split.
  - cbn [filter]. rewrite H1. cbn [isRequest]. rewrite filter_app.
    rewrite filter_retryRounds_request. simpl. rewrite app_nil_r.
    replace (Z.to_nat retries) with (S (Z.to_nat (retries - 1))) by lia.
    reflexivity.
  - cbn [filter]. rewrite H2. cbn [isSetTimeout]. rewrite filter_app.
    rewrite filter_retryRounds_timeout. simpl. rewrite app_nil_r.
    f_equal. lia.
  - cbn [filter]. rewrite H3. cbn [isOnError]. rewrite filter_app.
    rewrite filter_retryRounds_error. reflexivity.
Qed.

Lemma C3_bounded_retries_witness :
  failingAck 6 (fun _ => "ECONNREFUSED") ev1 "ack" 3 500
  = ([AOnAck ev1;
      ARequest "POST" "http://localhost:2113/ack/ev1" None;
      ASetTimeout 500;
      ARequest "POST" "http://localhost:2113/ack/ev1" None;
      ASetTimeout 500;
      ARequest "POST" "http://localhost:2113/ack/ev1" None;
      AOnError "ECONNREFUSED"],
     AckRejected "ECONNREFUSED").
Proof.
  apply (C3_bounded_retries ev1 "ack" 3 500 (fun _ => "ECONNREFUSED") 6).
  - lia.
  - discriminate.
  - simpl. lia.
Defined.

(** ** Frames *)

Lemma quiet_isGet : quiet isGet.
Proof. intros [] H; simpl in *; congruence. Qed.


Lemma sel_emit f a s :
  sel f (emit a s) = sel f s ++ (if f a then [a] else []).
Proof. unfold sel, emit. simpl. rewrite filter_app. reflexivity. Qed.

Lemma sel_emit_false f a s : f a = false -> sel f (emit a s) = sel f s.
Proof. intros H. rewrite sel_emit, H. apply app_nil_r. Qed.

Lemma queueFrame_refl f s : queueFrame f s s.
Proof. repeat split. Qed.

Lemma queueFrame_trans f s1 s2 s3 :
  queueFrame f s1 s2 -> queueFrame f s2 s3 -> queueFrame f s1 s3.
Proof.
  unfold queueFrame. intros (A1 & A2 & A3 & A4 & A5 & A6 & A7)
                            (B1 & B2 & B3 & B4 & B5 & B6 & B7).
  repeat split; congruence.
Qed.

Lemma queueFrame_emit f a s : f a = false -> queueFrame f s (emit a s).
Proof.
  intros H. repeat split. now apply sel_emit_false.
Qed.

Lemma queueFrame_set_waiting f w s : queueFrame f s (set_waiting w s).
Proof. repeat split. Qed.

Lemma queueFrame_set_active f a s : queueFrame f s (set_active a s).
Proof. repeat split. Qed.

Lemma queueFrame_set_nextTid f n s : queueFrame f s (set_nextTid n s).
Proof. repeat split. Qed.

Lemma queueFrame_startFrom f (Hq : quiet f) w :
  forall s, queueFrame f s (startFrom w s).
Proof.
  induction w as [|[t ev] rest IH]; intros s; simpl.
  - apply queueFrame_set_waiting.
  - destruct (queue_pending s <? concurrency s).
    + assert (F1 : queueFrame f s (emit (AHandler ev) (emit (AOnEvent ev) s))).
      { apply (queueFrame_trans f s (emit (AOnEvent ev) s));
          apply queueFrame_emit; now apply Hq. }
      destruct (handler s ev).
      * eapply queueFrame_trans; [exact F1|].
        eapply queueFrame_trans; [apply queueFrame_set_active|].
        apply queueFrame_set_waiting.
      * eapply queueFrame_trans; [exact F1|].
        eapply queueFrame_trans; [|apply IH].
        apply queueFrame_emit. now apply Hq.
    + apply queueFrame_set_waiting.
Qed.

Lemma queueFrame_queue_add f (Hq : quiet f) ev s :
  queueFrame f s (queue_add ev s).
Proof.
  unfold queue_add, tryToStartAnother.
  eapply queueFrame_trans; [apply queueFrame_set_waiting|].
  eapply queueFrame_trans; [apply queueFrame_set_nextTid|].
  apply queueFrame_startFrom, Hq.
Qed.

Lemma queueFrame_add_all f (Hq : quiet f) entries :
  forall s, queueFrame f s (fold_left (fun st ev => queue_add ev st) entries s).
Proof.
  induction entries as [|ev rest IH]; intros s; simpl.
  - apply queueFrame_refl.
  - eapply queueFrame_trans; [apply queueFrame_queue_add, Hq | apply IH].
Qed.

Lemma queueFrame_removeTask f t s : queueFrame f s (removeTask t s).
Proof. apply queueFrame_set_active. Qed.

Lemma queueFrame_setPhase f t p s : queueFrame f s (setPhase t p s).
Proof. apply queueFrame_set_active. Qed.

Lemma queueFrame_emit_all f l :
  forallb (fun a => negb (f a)) l = true ->
  forall s, queueFrame f s (emit_all l s).
Proof.
  induction l as [|a l IH]; simpl; intros H s.
  - apply queueFrame_refl.
  - apply andb_prop in H as [Ha Hl].
    eapply queueFrame_trans; [apply queueFrame_emit | apply IH, Hl].
    now destruct (f a).
Qed.

Lemma pollerFrame_refl s : pollerFrame s s.
Proof. repeat split. Qed.

Lemma pollerFrame_trans s1 s2 s3 :
  pollerFrame s1 s2 -> pollerFrame s2 s3 -> pollerFrame s1 s3.
Proof.
  unfold pollerFrame. intros (A1 & A2 & A3) (B1 & B2 & B3).
  repeat split; congruence.
Qed.

Lemma pollerFrame_schedulePoll s : pollerFrame s (schedulePoll s).
Proof. unfold schedulePoll. destruct (pollTimer s); repeat split. Qed.

Lemma pollerFrame_cancelScheduledPoll s : pollerFrame s (cancelScheduledPoll s).
Proof.
  unfold cancelScheduledPoll, clearTimeout. destruct (pollTimer s); repeat split.
Qed.

Lemma poll_cases s :
  let count := concurrency s - getQueueLength s in
  (count <= 0 /\ poll s = schedulePoll s)
  \/ (0 < count /\ polling s = true /\ poll s = s)
  \/ (0 < count /\ polling s = false /\ poll s = issuePoll count s).
Proof.
  intros count. unfold poll. fold count.
  destruct (Z.leb_spec count 0).
  - left. now split.
  - right. destruct (polling s); [left | right]; repeat split; assumption.
Qed.

Lemma pollerFrame_issuePoll c s : pollerFrame s (issuePoll c s).
Proof.
  unfold issuePoll, cancelScheduledPoll, clearTimeout, request.
  simpl. destruct (pollTimer s); repeat split.
Qed.

Lemma pollerFrame_poll s : pollerFrame s (poll s).
Proof.
  destruct (poll_cases s) as [[_ ->]|[(_ & _ & ->)|(_ & _ & ->)]].
  - apply pollerFrame_schedulePoll.
  - apply pollerFrame_refl.
  - apply pollerFrame_issuePoll.
Qed.

Lemma pollerFrame_emit a s : pollerFrame s (emit a s).
Proof. repeat split. Qed.

Lemma pollerFrame_didHandleEvent s : pollerFrame s (didHandleEvent s).
Proof.
  unfold didHandleEvent.
  set (s1 := if getQueueLength s =? 0 then emit (AEmit "drain") s else s).
  assert (F : pollerFrame s s1)
    by (subst s1; destruct (getQueueLength s =? 0);
        [apply pollerFrame_emit | apply pollerFrame_refl]).
  destruct (running s1); [|exact F].
  eapply pollerFrame_trans; [exact F | apply pollerFrame_poll].
Qed.

(** ** The poll token *)

Lemma PollerInv_pollToken s : PollerInv s -> pollToken s.
Proof.
  intros [[Ht|(t & _ & Ht)] Hf]; unfold pollToken; rewrite Ht, Hf;
    destruct (polling s); simpl; lia.
Qed.

Lemma PollerInv_frame s s' :
  pollerOf s' = pollerOf s -> PollerInv s -> PollerInv s'.
Proof.
  unfold pollerOf, PollerInv, timerInv, fetchInv. intros E. injection E.
  intros -> -> -> -> _. tauto.
Qed.

Lemma PollerInv_queueFrame f s s' :
  queueFrame f s s' -> PollerInv s -> PollerInv s'.
Proof. intros (_ & _ & E & _). now apply PollerInv_frame. Qed.

Lemma remove_single (t : nat) : remove Nat.eq_dec t [t] = [].
Proof. simpl. destruct (Nat.eq_dec t t); congruence. Qed.

Lemma PollerInv_schedulePoll s : PollerInv s -> PollerInv (schedulePoll s).
Proof.
  intros [Ht Hf]. unfold schedulePoll. destruct (pollTimer s) eqn:E.
  - now split.
  - split; [|exact Hf]. right. exists (nextTimer s). simpl. split; [reflexivity|].
    destruct Ht as [->|(t & Ht & _)]; [reflexivity | congruence].
Qed.

Lemma timers_cancelScheduledPoll s :
  timerInv s -> timers (cancelScheduledPoll s) = [].
Proof.
  intros [Ht|(t & Hp & Ht)]; unfold cancelScheduledPoll, clearTimeout.
  - destruct (pollTimer s); simpl; rewrite Ht; reflexivity.
  - rewrite Hp. simpl. rewrite Ht. apply remove_single.
Qed.

Lemma PollerInv_cancelScheduledPoll s :
  PollerInv s -> PollerInv (cancelScheduledPoll s).
Proof.
  intros [Ht Hf]. split.
  - left. now apply timers_cancelScheduledPoll.
  - unfold fetchInv, cancelScheduledPoll, clearTimeout.
    destruct (pollTimer s); exact Hf.
Qed.

Lemma timers_issuePoll c s : timerInv s -> timers (issuePoll c s) = [].
Proof.
  intros Ht. unfold issuePoll, request. simpl.
  apply (timers_cancelScheduledPoll (set_polling true s)). exact Ht.
Qed.

Lemma PollerInv_issuePoll c s :
  polling s = false -> PollerInv s -> PollerInv (issuePoll c s).
Proof.
  intros Hp [Ht Hf]. split.
  - left. now apply timers_issuePoll.
  - unfold fetchInv in *. rewrite Hp in Hf.
    unfold issuePoll, request, cancelScheduledPoll, clearTimeout. simpl.
    destruct (pollTimer s); simpl; rewrite Hf; reflexivity.
Qed.

Lemma PollerInv_poll s : PollerInv s -> PollerInv (poll s).
Proof.
  intros H. destruct (poll_cases s) as [[_ ->]|[(_ & _ & ->)|(_ & Hp & ->)]].
  - now apply PollerInv_schedulePoll.
  - exact H.
  - now apply PollerInv_issuePoll.
Qed.

Lemma PollerInv_set_running b s : PollerInv s -> PollerInv (set_running b s).
Proof. intros H. exact H. Qed.

Lemma PollerInv_start s : PollerInv s -> PollerInv (start s).
Proof. intros H. apply PollerInv_poll, PollerInv_set_running, H. Qed.

Lemma PollerInv_stop s : PollerInv s -> PollerInv (fst (stop s)).
Proof.
  intros H. unfold stop.
  set (s1 := cancelScheduledPoll (set_running false s)).
  assert (H1 : PollerInv s1)
    by (apply PollerInv_cancelScheduledPoll, PollerInv_set_running, H).
  destruct (getQueueLength s1 =? 0); exact H1.
Qed.

Lemma PollerInv_didHandleEvent s : PollerInv s -> PollerInv (didHandleEvent s).
Proof.
  intros H. unfold didHandleEvent.
  set (s1 := if getQueueLength s =? 0 then emit (AEmit "drain") s else s).
  assert (H1 : PollerInv s1) by (subst s1; destruct (getQueueLength s =? 0); exact H).
  destruct (running s1); [now apply PollerInv_poll | exact H1].
Qed.

Lemma quiet_noAction : quiet noAction.
Proof. intros a _. reflexivity. Qed.

Lemma PollerInv_taskSettled t res s :
  PollerInv s -> PollerInv (taskSettled t res s).
Proof.
  intros H. unfold taskSettled.
  assert (H1 : PollerInv (tryToStartAnother (removeTask t s))).
  { eapply (PollerInv_queueFrame noAction); [|exact H].
    eapply queueFrame_trans; [apply queueFrame_removeTask|].
    apply queueFrame_startFrom, quiet_noAction. }
  destruct res; [exact H1 | now apply PollerInv_didHandleEvent].
Qed.

Lemma PollerInv_applyAck t r s : PollerInv s -> PollerInv (applyAck t r s).
Proof.
  intros H. unfold applyAck.
  assert (H1 : PollerInv (emit_all (fst r) s)).
  { eapply (PollerInv_queueFrame noAction); [|exact H].
    apply queueFrame_emit_all. now induction (fst r). }
  destruct (snd r); try now apply PollerInv_taskSettled.
  all: exact H1.
Qed.

Lemma PollerInv_onFetchResolved entries n s :
  PollerInv s -> fetches s = S n ->
  PollerInv (onFetchResolved entries (set_fetches n s)).
Proof.
  intros [Ht Hf] Hn.
  assert (H0 : PollerInv (set_polling false (set_fetches n s))).
  { split; [exact Ht|]. unfold fetchInv in *. simpl.
    rewrite Hn in Hf. destruct (polling s); congruence. }
  unfold onFetchResolved.
  set (s1 := set_polling false (set_fetches n s)) in *.
  destruct (negb (running s1)); [exact H0|].
  destruct (0 <? List.length entries)%nat.
  - apply PollerInv_poll.
    eapply (PollerInv_queueFrame noAction); [|exact H0].
    apply queueFrame_add_all, quiet_noAction.
  - now apply PollerInv_schedulePoll.
Qed.

Lemma PollerInv_onFetchRejected e n s :
  PollerInv s -> fetches s = S n ->
  PollerInv (onFetchRejected e (set_fetches n s)).
Proof.
  intros [Ht Hf] Hn.
  assert (H0 : PollerInv (emit (AOnError e) (set_polling false (set_fetches n s)))).
  { split; [exact Ht|]. unfold fetchInv in *. simpl.
    rewrite Hn in Hf. destruct (polling s); congruence. }
  unfold onFetchRejected.
  destruct (running _); [now apply PollerInv_schedulePoll | exact H0].
Qed.

Lemma mem_In t l : mem t l = true -> In t l.
Proof.
  unfold mem. intros H. apply existsb_exists in H as (x & Hx & E).
  apply Nat.eqb_eq in E. now subst x.
Qed.

Lemma PollerInv_timerFire t s :
  PollerInv s -> mem t (timers s) = true ->
  PollerInv (poll (set_timers (remove Nat.eq_dec t (timers s)) s)).
Proof.
  intros [Ht Hf] Hm. apply PollerInv_poll. split; [|exact Hf].
  left. simpl. apply mem_In in Hm.
  destruct Ht as [E|(t' & _ & E)]; rewrite E in *.
  - destruct Hm.
  - destruct Hm as [->|[]]. apply remove_single.
Qed.

Lemma PollerInv_constructor env params s :
  constructor env params = inr s -> PollerInv s.
Proof.
  unfold constructor. intros H.
  destruct (negb _); [discriminate|]. destruct (_ =? _)%string; [discriminate|].
  injection H as <-. split; [now left | reflexivity].
Qed.

Lemma PollerInv_step i s s' :
  PollerInv s -> step i s = Some s' -> PollerInv s'.
Proof.
  intros H. destruct i; simpl.
  - intros [= <-]. now apply PollerInv_start.
  - intros [= <-]. now apply PollerInv_stop.
  - destruct (fetches s) eqn:E; [discriminate|]. intros [= <-].
    now apply PollerInv_onFetchResolved.
  - destruct (fetches s) eqn:E; [discriminate|]. intros [= <-].
    now apply PollerInv_onFetchRejected.
  - destruct (mem t (timers s)) eqn:E; [|discriminate]. intros [= <-].
    now apply PollerInv_timerFire.
  - destruct (findTask t s) as [[? ? []]|]; try discriminate.
    intros [= <-]. now apply PollerInv_applyAck.
  - destruct (findTask t s) as [[? ? []]|]; try discriminate.
    intros [= <-]. now apply PollerInv_applyAck.
  - destruct (findTask t s) as [[? ? []]|]; try discriminate.
    intros [= <-]. now apply PollerInv_applyAck.
  - destruct (findTask t s) as [[? ? []]|]; try discriminate.
    intros [= <-]. now apply PollerInv_applyAck.
  - destruct (findTask t s) as [[? ? []]|]; try discriminate.
    intros [= <-]. now apply PollerInv_applyAck.
Qed.

Lemma reachable_PollerInv s : reachable s -> PollerInv s.
Proof.
  induction 1 as [env params s H | i s s' _ IH H].
  - eapply PollerInv_constructor, H.
  - eapply PollerInv_step; eassumption.
Qed.

(** ** Runs from a constructed consumer *)

Lemma reachable_steps l :
  forall s s', reachable s -> steps l s = Some s' -> reachable s'.
Proof.
  induction l as [|i l IH]; simpl; intros s s' R H.
  - now injection H as <-.
  - destruct (step i s) as [s1|] eqn:E; [|discriminate].
    eapply IH; [|exact H]. eapply reach_step; eassumption.
Qed.

Lemma reachable_after l s : reachable s -> reachable (after l s).
Proof.
  intros R. unfold after. destruct (steps l s) eqn:E; [|exact R].
  eapply reachable_steps; eassumption.
Qed.

Lemma consumer1_new : constructor None params1 = inr consumer1.
Proof. reflexivity. Qed.

Lemma consumer5_new : constructor None params5 = inr consumer5.
Proof. reflexivity. Qed.

Lemma reachable_consumer1 : reachable consumer1.
Proof. exact (reach_new None params1 consumer1 consumer1_new). Qed.

Lemma reachable_consumer5 : reachable consumer5.
Proof. exact (reach_new None params5 consumer5 consumer5_new). Qed.

(** C5: in every reachable state at most one poll request is outstanding and
    at most one poll timer is armed; [start], [poll], [schedulePoll], the
    re-poll of [didHandleEvent], [stop] and every step of the event loop
    keep it so; and when [poll] issues a request (there is capacity and no
    request is outstanding) no poll timer is left armed. *)
Theorem C5_poll_token (s : State) :
  reachable s ->
  pollToken s
  /\ pollToken (start s) /\ pollToken (poll s) /\ pollToken (schedulePoll s)
  /\ pollToken (didHandleEvent s) /\ pollToken (fst (stop s))
  /\ (forall i s', step i s = Some s' -> pollToken s')
  /\ (0 < concurrency s - getQueueLength s -> polling s = false ->
      timers (poll s) = [] /\ fetches (poll s) = 1%nat).
Proof.
  intros R. pose proof (reachable_PollerInv s R) as H.
  split; [|split; [|split; [|split; [|split; [|split; [|split]]]]]].
  - now apply PollerInv_pollToken.
  - now apply PollerInv_pollToken, PollerInv_start.
  - now apply PollerInv_pollToken, PollerInv_poll.
  - now apply PollerInv_pollToken, PollerInv_schedulePoll.
  - now apply PollerInv_pollToken, PollerInv_didHandleEvent.
  - now apply PollerInv_pollToken, PollerInv_stop.
  - intros i s' E. eapply PollerInv_pollToken, PollerInv_step; eassumption.
  - intros Hc Hp. split.
    + destruct (poll_cases s) as [[? _]|[(_ & ? & _)|(_ & _ & ->)]];
        [lia | congruence |]. apply timers_issuePoll, H.
    + destruct (poll_cases s) as [[? _]|[(_ & ? & _)|(_ & _ & E)]];
        [lia | congruence |].
      pose proof (PollerInv_poll s H) as [_ Hf]. unfold fetchInv in Hf.
      rewrite Hf, E. unfold issuePoll, request, cancelScheduledPoll, clearTimeout.
      simpl. now destruct (pollTimer s).
Qed.

(** After an empty poll a timer is armed; a slot-freed [poll] then cancels
    it and issues the only outstanding request. *)
Lemma C5_poll_token_witness :
  let s := after [Start; FetchOk []] consumer5 in
  timers s = [0%nat]
  /\ pollToken s
  /\ timers (poll s) = [] /\ fetches (poll s) = 1%nat.
Proof.
  intros s.
  pose proof (C5_poll_token s (reachable_after _ _ reachable_consumer5))
    as (H1 & _ & _ & _ & _ & _ & _ & H8).
  split; [reflexivity|]. split; [exact H1|].
  apply H8; [vm_compute; reflexivity | reflexivity].
Defined.

(** ** The concurrency ceiling *)

Lemma QueueInv_same s s' :
  concurrency s' = concurrency s -> active s' = active s ->
  QueueInv s -> QueueInv s'.
Proof. unfold QueueInv, queue_pending. intros -> ->. tauto. Qed.

Lemma QueueInv_pollerFrame s s' : pollerFrame s s' -> QueueInv s -> QueueInv s'.
Proof.
  intros (E1 & _ & E2). unfold cfgOf, queueOf in *.
  apply QueueInv_same; congruence.
Qed.

Lemma QueueInv_startFrom w : forall s, QueueInv s -> QueueInv (startFrom w s).
Proof.
  induction w as [|[t ev] rest IH]; intros s H; simpl.
  - exact H.
  - destruct (Z.ltb_spec (queue_pending s) (concurrency s)) as [Hlt|_]; [|exact H].
    destruct (handler s ev).
    + destruct H as [H1 H2]. split; [exact H1|].
      unfold queue_pending in *. simpl. rewrite length_app. simpl. lia.
    + apply IH. exact H.
Qed.

Lemma QueueInv_queue_add ev s : QueueInv s -> QueueInv (queue_add ev s).
Proof. intros H. unfold queue_add, tryToStartAnother. now apply QueueInv_startFrom. Qed.

Lemma QueueInv_add_all entries :
  forall s, QueueInv s -> QueueInv (fold_left (fun st ev => queue_add ev st) entries s).
Proof.
  induction entries as [|ev rest IH]; intros s H; simpl; [exact H|].
  now apply IH, QueueInv_queue_add.
Qed.

Lemma QueueInv_removeTask t s : QueueInv s -> QueueInv (removeTask t s).
Proof.
  intros [H1 H2]. split; [exact H1|]. unfold queue_pending in *. simpl.
  pose proof (filter_length_le (fun k => negb (tid k =? t)%nat) (active s)). lia.
Qed.

Lemma QueueInv_setPhase t p s : QueueInv s -> QueueInv (setPhase t p s).
Proof.
  intros [H1 H2]. split; [exact H1|]. unfold queue_pending in *. simpl.
  now rewrite length_map.
Qed.

Lemma QueueInv_emit_all l : forall s, QueueInv s -> QueueInv (emit_all l s).
Proof. induction l as [|a l IH]; simpl; intros s H; [exact H | now apply IH]. Qed.

Lemma QueueInv_taskSettled t res s : QueueInv s -> QueueInv (taskSettled t res s).
Proof.
  intros H. unfold taskSettled.
  assert (H1 : QueueInv (tryToStartAnother (removeTask t s)))
    by (apply QueueInv_startFrom, QueueInv_removeTask, H).
  destruct res; [exact H1|].
  eapply QueueInv_pollerFrame; [apply pollerFrame_didHandleEvent | exact H1].
Qed.

Lemma QueueInv_applyAck t r s : QueueInv s -> QueueInv (applyAck t r s).
Proof.
  intros H. unfold applyAck.
  pose proof (QueueInv_emit_all (fst r) s H) as H1.
  destruct (snd r).
  - now apply QueueInv_taskSettled.
  - now apply QueueInv_taskSettled.
  - now apply QueueInv_setPhase.
  - now apply QueueInv_setPhase.
Qed.

Lemma QueueInv_poll s : QueueInv s -> QueueInv (poll s).
Proof. apply QueueInv_pollerFrame, pollerFrame_poll. Qed.

Lemma QueueInv_step i s s' : QueueInv s -> step i s = Some s' -> QueueInv s'.
Proof.
  intros H. destruct i; simpl.
  - intros [= <-]. apply QueueInv_poll, H.
  - intros [= <-]. unfold stop.
    destruct (getQueueLength _ =? 0); simpl;
      (eapply QueueInv_pollerFrame; [apply pollerFrame_cancelScheduledPoll|exact H]).
  - destruct (fetches s); [discriminate|]. intros [= <-]. unfold onFetchResolved.
    destruct (negb _); [exact H|]. destruct (_ <? _)%nat.
    + apply (QueueInv_poll _). apply QueueInv_add_all. exact H.
    + eapply QueueInv_pollerFrame; [apply pollerFrame_schedulePoll | exact H].
  - destruct (fetches s); [discriminate|]. intros [= <-]. unfold onFetchRejected.
    destruct (running _); [|exact H].
    eapply QueueInv_pollerFrame; [apply pollerFrame_schedulePoll | exact H].
  - destruct (mem t (timers s)); [|discriminate]. intros [= <-].
    apply QueueInv_poll, H.
  - destruct (findTask t s) as [[? ? []]|]; try discriminate.
    intros [= <-]. now apply QueueInv_applyAck.
  - destruct (findTask t s) as [[? ? []]|]; try discriminate.
    intros [= <-]. now apply QueueInv_applyAck.
  - destruct (findTask t s) as [[? ? []]|]; try discriminate.
    intros [= <-]. now apply QueueInv_applyAck.
  - destruct (findTask t s) as [[? ? []]|]; try discriminate.
    intros [= <-]. now apply QueueInv_applyAck.
  - destruct (findTask t s) as [[? ? []]|]; try discriminate.
    intros [= <-]. now apply QueueInv_applyAck.
Qed.

Lemma constructor_fields env params s :
  constructor env params = inr s ->
  concurrency s = js_or_num (p_concurrency params) 1
  /\ 1 <= concurrency s /\ active s = [] /\ waiting s = []
  /\ running s = false /\ timers s = [] /\ trace s = [].
Proof.
  unfold constructor, PQueue_valid. intros H.
  destruct (Z.leb_spec 1 (js_or_num (p_concurrency params) 1)); [|discriminate].
  simpl in H. destruct (_ =? _)%string; [discriminate|].
  injection H as <-. simpl. repeat split. assumption.
Qed.

(** Every step leaves the configured ceiling as it is. *)
Lemma concurrency_emit_all l : forall s, concurrency (emit_all l s) = concurrency s.
Proof. induction l as [|a l IH]; simpl; intros s; [reflexivity | now rewrite IH]. Qed.

Lemma cfgOf_concurrency s s' : cfgOf s' = cfgOf s -> concurrency s' = concurrency s.
Proof. unfold cfgOf. congruence. Qed.

Lemma concurrency_poll s : concurrency (poll s) = concurrency s.
Proof. apply cfgOf_concurrency, pollerFrame_poll. Qed.

Lemma concurrency_startFrom w s : concurrency (startFrom w s) = concurrency s.
Proof. apply cfgOf_concurrency, (queueFrame_startFrom noAction quiet_noAction). Qed.

Lemma concurrency_taskSettled t res s :
  concurrency (taskSettled t res s) = concurrency s.
Proof.
  unfold taskSettled. destruct res; simpl.
  - unfold tryToStartAnother. now rewrite concurrency_startFrom.
  - rewrite (cfgOf_concurrency _ _ (proj1 (pollerFrame_didHandleEvent _))).
    unfold tryToStartAnother. now rewrite concurrency_startFrom.
Qed.

Lemma concurrency_applyAck t r s : concurrency (applyAck t r s) = concurrency s.
Proof.
  unfold applyAck. destruct (snd r);
    [rewrite concurrency_taskSettled | rewrite concurrency_taskSettled
     | change (concurrency (emit_all (fst r) s) = concurrency s)
     | change (concurrency (emit_all (fst r) s) = concurrency s)];
    apply concurrency_emit_all.
Qed.

Lemma concurrency_schedulePoll s : concurrency (schedulePoll s) = concurrency s.
Proof. apply cfgOf_concurrency, pollerFrame_schedulePoll. Qed.

Lemma concurrency_cancelScheduledPoll s :
  concurrency (cancelScheduledPoll s) = concurrency s.
Proof. apply cfgOf_concurrency, pollerFrame_cancelScheduledPoll. Qed.

Lemma concurrency_add_all entries s :
  concurrency (fold_left (fun st ev => queue_add ev st) entries s) = concurrency s.
Proof.
  apply cfgOf_concurrency, (queueFrame_add_all noAction quiet_noAction).
Qed.

Lemma concurrency_step i s s' : step i s = Some s' -> concurrency s' = concurrency s.
Proof.
  destruct i; simpl.
  - intros [= <-]. unfold start. now rewrite concurrency_poll.
  - intros [= <-]. unfold stop.
    destruct (getQueueLength _ =? 0);
      cbn [fst set_drainListeners concurrency];
      now rewrite concurrency_cancelScheduledPoll.
  - destruct (fetches s); [discriminate|]. intros [= <-]. unfold onFetchResolved.
    destruct (negb _); [reflexivity|].
    destruct (_ <? _)%nat; cbn [emit concurrency].
    + now rewrite concurrency_poll, concurrency_add_all.
    + now rewrite concurrency_schedulePoll.
  - destruct (fetches s); [discriminate|]. intros [= <-]. unfold onFetchRejected.
    destruct (running _); [|reflexivity].
    now rewrite concurrency_schedulePoll.
  - destruct (mem t (timers s)); [|discriminate]. intros [= <-].
    now rewrite concurrency_poll.
  - destruct (findTask t s) as [[? ? []]|]; try discriminate.
    intros [= <-]. apply concurrency_applyAck.
  - destruct (findTask t s) as [[? ? []]|]; try discriminate.
    intros [= <-]. apply concurrency_applyAck.
  - destruct (findTask t s) as [[? ? []]|]; try discriminate.
    intros [= <-]. apply concurrency_applyAck.
  - destruct (findTask t s) as [[? ? []]|]; try discriminate.
    intros [= <-]. apply concurrency_applyAck.
  - destruct (findTask t s) as [[? ? []]|]; try discriminate.
    intros [= <-]. apply concurrency_applyAck.
Qed.

Lemma steps_QueueInv l :
  forall s s', QueueInv s -> steps l s = Some s' ->
               QueueInv s' /\ concurrency s' = concurrency s.
Proof.
  induction l as [|i l IH]; simpl; intros s s' H E.
  - injection E as <-. now split.
  - destruct (step i s) as [s1|] eqn:E1; [|discriminate].
    destruct (IH s1 s' (QueueInv_step _ _ _ H E1) E) as [H' C].
    split; [exact H'|]. rewrite C. eapply concurrency_step, E1.
Qed.

(** C9: for a consumer constructed with the ceiling [C] (the [concurrency]
    option, 1 when it is missing) and every run of the event loop, whatever
    batches are fetched, at most [C] tasks are started and not settled, so at
    most [C] handler invocations are active at the same time. *)
Theorem C9_concurrency_ceiling (env : option string) (params : Params)
  (s0 s : State) (l : list Input) :
  constructor env params = inr s0 ->
  steps l s0 = Some s ->
  let C := js_or_num (p_concurrency params) 1 in
  Z.of_nat (List.length (activeHandlers s)) <= C
  /\ queue_pending s <= C.
Proof.
  intros Hc Hs C.
  destruct (constructor_fields env params s0 Hc) as (E & H1 & Ha & _).
  assert (Q0 : QueueInv s0).
  { split; [exact H1|]. unfold queue_pending. rewrite Ha. simpl. lia. }
  destruct (steps_QueueInv l s0 s Q0 Hs) as [[_ Hq] Ec].
  assert (Hp : queue_pending s <= C) by (subst C; rewrite <- E, <- Ec; exact Hq).
  split; [|exact Hp].
  unfold activeHandlers, queue_pending in *.
  pose proof (filter_length_le isHandling (active s)). lia.
Qed.

Lemma C9_concurrency_ceiling_witness :
  let s := after [Start; FetchOk [ev1; ev2; ev1; ev2; ev1; ev2; ev1]] consumer5 in
  List.length (activeHandlers s) = 5%nat
  /\ List.length (waiting s) = 2%nat
  /\ Z.of_nat (List.length (activeHandlers s)) <= 5
  /\ queue_pending s <= 5.
Proof.
  intros s. split; [reflexivity|]. split; [reflexivity|].
  assert (Hs : steps [Start; FetchOk [ev1; ev2; ev1; ev2; ev1; ev2; ev1]] consumer5
               = Some s) by (vm_compute; reflexivity).
  exact (C9_concurrency_ceiling None params5 consumer5 s _ consumer5_new Hs).
Defined.

(** ** What the poller writes to the trace *)

Lemma sel_schedulePoll f s :
  (forall d, f (ASetTimeout d) = false) -> sel f (schedulePoll s) = sel f s.
Proof.
  intros H. unfold schedulePoll. destruct (pollTimer s); [reflexivity|].
  unfold sel. simpl. rewrite filter_app. simpl. rewrite H. apply app_nil_r.
Qed.

Lemma sel_cancelScheduledPoll f s : sel f (cancelScheduledPoll s) = sel f s.
Proof.
  unfold cancelScheduledPoll, clearTimeout, sel. now destruct (pollTimer s).
Qed.

Lemma pollUrl_cfg s s' c : cfgOf s' = cfgOf s -> pollUrl s' c = pollUrl s c.
Proof. unfold cfgOf, pollUrl. intros [= -> -> -> _ _]. reflexivity. Qed.

Lemma sel_issuePoll f c s :
  sel f (issuePoll c s)
  = sel f s ++ filter f [ARequest "GET" (pollUrl s c) (Some competingatom)].
Proof.
  unfold issuePoll, request.
  set (s1 := cancelScheduledPoll (set_polling true s)).
  assert (E : pollUrl s1 c = pollUrl s c)
    by apply pollUrl_cfg, (pollerFrame_cancelScheduledPoll (set_polling true s)).
  rewrite E. unfold sel at 1. cbn [trace set_fetches emit]. rewrite filter_app.
  f_equal. apply (sel_cancelScheduledPoll f (set_polling true s)).
Qed.

(** [poll] adds nothing but, possibly, a timer or a GET. *)
Lemma sel_poll f s :
  (forall d, f (ASetTimeout d) = false) ->
  (forall u a, f (ARequest "GET" u a) = false) ->
  sel f (poll s) = sel f s.
Proof.
  intros H1 H2. destruct (poll_cases s) as [[_ ->]|[(_ & _ & ->)|(_ & _ & ->)]].
  - now apply sel_schedulePoll.
  - reflexivity.
  - rewrite sel_issuePoll. simpl. rewrite H2. apply app_nil_r.
Qed.

(** ** Every fetch asks for a positive number of events *)

Lemma goodGet_cfg s s' a : cfgOf s' = cfgOf s -> goodGet s a -> goodGet s' a.
Proof.
  intros E (c & H1 & H2 & H3). exists c.
  rewrite (pollUrl_cfg s s' c E), (cfgOf_concurrency _ _ E). auto.
Qed.

Lemma GetInv_same s s' :
  cfgOf s' = cfgOf s -> sel isGet s' = sel isGet s -> GetInv s -> GetInv s'.
Proof.
  unfold GetInv. intros E ->. apply Forall_impl. intros a. now apply goodGet_cfg.
Qed.

Lemma GetInv_queueFrame s s' : queueFrame isGet s s' -> GetInv s -> GetInv s'.
Proof. intros (E & _ & _ & _ & _ & _ & F). now apply GetInv_same. Qed.

Lemma queue_lengths_nonneg s : 0 <= getQueueLength s.
Proof. unfold getQueueLength, queue_size, queue_pending. lia. Qed.

Lemma GetInv_poll s : GetInv s -> GetInv (poll s).
Proof.
  intros H. destruct (poll_cases s) as [[_ ->]|[(_ & _ & ->)|(Hc & _ & ->)]].
  - eapply GetInv_same; [apply pollerFrame_schedulePoll | | exact H].
    now apply sel_schedulePoll.
  - exact H.
  - unfold GetInv. rewrite sel_issuePoll. simpl. apply Forall_app. split.
    + eapply Forall_impl; [|exact H]. intros a.
      apply goodGet_cfg, pollerFrame_issuePoll.
    + constructor; [|constructor].
      apply (goodGet_cfg s); [apply pollerFrame_issuePoll|].
      exists (concurrency s - getQueueLength s).
      pose proof (queue_lengths_nonneg s). repeat split; [exact Hc | lia].
Qed.

Lemma GetInv_emit a s : isGet a = false -> GetInv s -> GetInv (emit a s).
Proof. intros Ha. apply GetInv_queueFrame, queueFrame_emit, Ha. Qed.

Lemma GetInv_didHandleEvent s : GetInv s -> GetInv (didHandleEvent s).
Proof.
  intros H. unfold didHandleEvent.
  set (s1 := if getQueueLength s =? 0 then emit (AEmit "drain") s else s).
  assert (H1 : GetInv s1).
  { subst s1. destruct (getQueueLength s =? 0); [|exact H].
    now apply GetInv_emit. }
  destruct (running s1); [now apply GetInv_poll | exact H1].
Qed.

Lemma GetInv_taskSettled t res s : GetInv s -> GetInv (taskSettled t res s).
Proof.
  intros H. unfold taskSettled.
  assert (H1 : GetInv (tryToStartAnother (removeTask t s))).
  { eapply GetInv_queueFrame; [|exact H].
    eapply queueFrame_trans; [apply queueFrame_removeTask|].
    apply queueFrame_startFrom, quiet_isGet. }
  destruct res; [now apply GetInv_emit | now apply GetInv_didHandleEvent].
Qed.

Lemma noGet_ackNackHelper ev type retries delayMs :
  noGet (fst (ackNackHelper ev type retries delayMs)) = true.
Proof.
  unfold ackNackHelper. destruct (_ =? "")%string; simpl;
    destruct (type =? "ack")%string; reflexivity.
Qed.

Lemma noGet_handlerSettled ev o : noGet (fst (handlerSettled ev o)) = true.
Proof.
  destruct o as [e|]; simpl.
  - pose proof (noGet_ackNackHelper ev "nack" 3 500) as H. unfold nack.
    destruct (ackNackHelper ev "nack" 3 500). exact H.
  - apply noGet_ackNackHelper.
Qed.

Lemma noGet_onRequestRejected e r : noGet (fst (onRequestRejected e r)) = true.
Proof. unfold onRequestRejected. now destruct (_ =? _). Qed.

Lemma GetInv_applyAck t r s :
  noGet (fst r) = true -> GetInv s -> GetInv (applyAck t r s).
Proof.
  intros Hr H. unfold applyAck.
  assert (H1 : GetInv (emit_all (fst r) s))
    by (eapply GetInv_queueFrame; [apply queueFrame_emit_all, Hr | exact H]).
  destruct (snd r).
  - now apply GetInv_taskSettled.
  - now apply GetInv_taskSettled.
  - eapply GetInv_queueFrame; [apply queueFrame_setPhase | exact H1].
  - eapply GetInv_queueFrame; [apply queueFrame_setPhase | exact H1].
Qed.

Lemma GetInv_step i s s' : GetInv s -> step i s = Some s' -> GetInv s'.
Proof.
  intros H. destruct i; cbn [step].
  - intros [= <-]. apply GetInv_poll. exact H.
  - intros [= <-]. unfold stop.
    set (s1 := cancelScheduledPoll (set_running false s)).
    assert (H1 : GetInv s1).
    { eapply GetInv_same; [| |exact H].
      - apply (pollerFrame_cancelScheduledPoll (set_running false s)).
      - apply (sel_cancelScheduledPoll isGet (set_running false s)). }
    destruct (getQueueLength s1 =? 0); exact H1.
  - destruct (fetches s); [discriminate|]. intros [= <-]. unfold onFetchResolved.
    destruct (negb _); [exact H|]. destruct (_ <? _)%nat.
    + apply GetInv_emit; [reflexivity|]. apply GetInv_poll.
      eapply GetInv_queueFrame; [apply queueFrame_add_all, quiet_isGet | exact H].
    + apply GetInv_emit; [reflexivity|].
      eapply GetInv_same; [apply pollerFrame_schedulePoll | | exact H].
      now apply sel_schedulePoll.
  - destruct (fetches s); [discriminate|]. intros [= <-]. unfold onFetchRejected.
    set (s1 := emit (AOnError e) (set_polling false (set_fetches n s))).
    assert (H1 : GetInv s1) by (apply GetInv_emit; [reflexivity | exact H]).
    destruct (running s1); [|exact H1].
    eapply GetInv_same; [apply pollerFrame_schedulePoll | | exact H1].
    now apply sel_schedulePoll.
  - destruct (mem t (timers s)); [|discriminate]. intros [= <-].
    apply GetInv_poll. exact H.
  - destruct (findTask t s) as [[? ? []]|]; try discriminate.
    intros [= <-].
    apply GetInv_applyAck; [exact (noGet_handlerSettled _ None) | exact H].
  - destruct (findTask t s) as [[? ? []]|]; try discriminate.
    intros [= <-].
    apply GetInv_applyAck; [exact (noGet_handlerSettled _ (Some e)) | exact H].
  - destruct (findTask t s) as [[? ? []]|]; try discriminate.
    intros [= <-]. apply GetInv_applyAck; [reflexivity | exact H].
  - destruct (findTask t s) as [[? ? []]|]; try discriminate.
    intros [= <-]. apply GetInv_applyAck; [apply noGet_onRequestRejected | exact H].
  - destruct (findTask t s) as [[? ? []]|]; try discriminate.
    intros [= <-]. apply GetInv_applyAck; [reflexivity | exact H].
Qed.

Lemma reachable_GetInv s : reachable s -> GetInv s.
Proof.
  induction 1 as [env params s H | i s s' _ IH H].
  - destruct (constructor_fields env params s H) as (_ & _ & _ & _ & _ & _ & E).
    unfold GetInv, sel. rewrite E. constructor.
  - eapply GetInv_step; eassumption.
Qed.

(** The part of C4 that holds in every state: a [poll] without capacity
    issues no request, it only calls [schedulePoll]; and every GET of a
    reachable trace asks for a count between 1 and the ceiling. *)
Lemma poll_without_capacity s :
  concurrency s - getQueueLength s <= 0 ->
  poll s = schedulePoll s
  /\ sel isRequest (poll s) = sel isRequest s
  /\ fetches (poll s) = fetches s.
Proof.
  intros Hc. destruct (poll_cases s) as [[_ E]|[(? & _)|(? & _)]]; try lia.
  rewrite E. split; [reflexivity|]. split.
  - now apply sel_schedulePoll.
  - unfold schedulePoll. now destruct (pollTimer s).
Qed.

Lemma schedulePoll_arms s :
  pollTimer s = None ->
  timers (schedulePoll s) = timers s ++ [nextTimer s]
  /\ pollTimer (schedulePoll s) = Some (nextTimer s)
  /\ trace (schedulePoll s) = trace s ++ [ASetTimeout (pollDelay s)].
Proof. intros H. unfold schedulePoll. rewrite H. repeat split. Qed.

Lemma fetches_ask_for_events s :
  reachable s ->
  forall m u a, In (ARequest m u a) (trace s) -> m = "GET" ->
    exists count, 0 < count /\ count <= concurrency s /\ u = pollUrl s count.
Proof.
  intros R m u a Hin ->. pose proof (reachable_GetInv s R) as H.
  unfold GetInv in H. rewrite Forall_forall in H.
  destruct (H (ARequest "GET" u a)) as (c & H1 & H2 & H3).
  - apply filter_In. split; [exact Hin | reflexivity].
  - exists c. injection H3 as -> _. auto.
Qed.

(** ** After [stop] *)

Lemma queueFrame_Stopped f s s' : queueFrame f s s' -> Stopped s -> Stopped s'.
Proof.
  intros (_ & _ & E & _) [H1 H2]. unfold pollerOf in E.
  injection E as E1 _ _ E2 _. split; congruence.
Qed.

Lemma queueFrame_didHandleEvent f s :
  running s = false -> f (AEmit "drain") = false ->
  queueFrame f s (didHandleEvent s).
Proof.
  intros Hr Hf. unfold didHandleEvent.
  destruct (getQueueLength s =? 0); cbn [running emit]; rewrite Hr.
  - now apply queueFrame_emit.
  - apply queueFrame_refl.
Qed.

Lemma queueFrame_taskSettled f (Hq : quiet f) t res s :
  running s = false -> f (AEmit "drain") = false ->
  queueFrame f s (taskSettled t res s).
Proof.
  intros Hr Hf. unfold taskSettled.
  assert (F : queueFrame f s (tryToStartAnother (removeTask t s))).
  { eapply queueFrame_trans; [apply queueFrame_removeTask|].
    apply queueFrame_startFrom, Hq. }
  assert (Hr' : running (tryToStartAnother (removeTask t s)) = false).
  { destruct F as (_ & _ & E & _). unfold pollerOf in E.
    injection E as E1 _. congruence. }
  eapply queueFrame_trans; [exact F|]. destruct res as [e|].
  - apply queueFrame_emit. now apply Hq.
  - now apply queueFrame_didHandleEvent.
Qed.

Lemma queueFrame_applyAck f (Hq : quiet f) t r s :
  running s = false -> f (AEmit "drain") = false ->
  forallb (fun a => negb (f a)) (fst r) = true ->
  queueFrame f s (applyAck t r s).
Proof.
  intros Hr Hf Hl. unfold applyAck.
  assert (F : queueFrame f s (emit_all (fst r) s)) by now apply queueFrame_emit_all.
  assert (Hr' : running (emit_all (fst r) s) = false).
  { destruct F as (_ & _ & E & _). unfold pollerOf in E.
    injection E as E1 _. congruence. }
  eapply queueFrame_trans; [exact F|]. destruct (snd r).
  - now apply queueFrame_taskSettled.
  - now apply queueFrame_taskSettled.
  - apply queueFrame_setPhase.
  - apply queueFrame_setPhase.
Qed.

(** While stopped, no stimulus other than [start()] leads to a GET. *)
Lemma Stopped_step i s s' :
  Stopped s -> i <> Start -> step i s = Some s' ->
  Stopped s' /\ sel isGet s' = sel isGet s.
Proof.
  intros [Hr Ht] Hi.
  assert (FQ : forall t r, noGet (fst r) = true ->
                 Some (applyAck t r s) = Some s' ->
                 Stopped s' /\ sel isGet s' = sel isGet s).
  { intros t r Hn [= <-].
    pose proof (queueFrame_applyAck isGet quiet_isGet t r s Hr eq_refl Hn) as F.
    split; [eapply queueFrame_Stopped; [exact F | now split] | apply F]. }
  destruct i; cbn [step].
  - congruence.
  - intros [= <-]. unfold stop.
    set (s1 := cancelScheduledPoll (set_running false s)).
    assert (H1 : Stopped s1 /\ sel isGet s1 = sel isGet s).
    { subst s1. unfold cancelScheduledPoll, clearTimeout, Stopped, sel.
      cbn [pollTimer set_running].
      destruct (pollTimer s); cbn; rewrite Ht; repeat split. }
    destruct (getQueueLength s1 =? 0); exact H1.
  - destruct (fetches s); [discriminate|]. intros [= <-]. unfold onFetchResolved.
    cbn [running set_polling set_fetches]. rewrite Hr. cbn [negb].
    split; [split; [exact Hr | exact Ht] | reflexivity].
  - destruct (fetches s); [discriminate|]. intros [= <-]. unfold onFetchRejected.
    cbn [running set_polling set_fetches emit]. rewrite Hr.
    split; [split; [exact Hr | exact Ht] |].
    now rewrite sel_emit_false.
  - rewrite Ht. discriminate.
  - destruct (findTask t s) as [[? ? []]|]; try discriminate.
    apply FQ. exact (noGet_handlerSettled _ None).
  - destruct (findTask t s) as [[? ? []]|]; try discriminate.
    apply FQ. exact (noGet_handlerSettled _ (Some e)).
  - destruct (findTask t s) as [[? ? []]|]; try discriminate.
    apply FQ. reflexivity.
  - destruct (findTask t s) as [[? ? []]|]; try discriminate.
    apply FQ. apply noGet_onRequestRejected.
  - destruct (findTask t s) as [[? ? []]|]; try discriminate.
    apply FQ. reflexivity.
Qed.

Lemma Stopped_steps l :
  forall s s', Stopped s -> existsb isStart l = false -> steps l s = Some s' ->
               Stopped s' /\ sel isGet s' = sel isGet s.
Proof.
  induction l as [|i l IH]; simpl; intros s s' H Hl E.
  - injection E as <-. now split.
  - apply orb_false_elim in Hl as [Hi Hl].
    destruct (step i s) as [s1|] eqn:E1; [|discriminate].
    destruct (Stopped_step i s s1 H) as [H1 G1];
      [intros ->; discriminate | exact E1 |].
    destruct (IH s1 s' H1 Hl E) as [H2 G2]. split; [exact H2 | congruence].
Qed.

Lemma stop_Stopped s : timerInv s -> Stopped (fst (stop s)).
Proof.
  intros Ht. unfold stop.
  set (s1 := cancelScheduledPoll (set_running false s)).
  assert (H1 : Stopped s1).
  { split.
    - subst s1. unfold cancelScheduledPoll, clearTimeout. cbn.
      now destruct (pollTimer s).
    - apply (timers_cancelScheduledPoll (set_running false s)). exact Ht. }
  destruct (getQueueLength s1 =? 0); exact H1.
Qed.

Lemma stop_queue_empty s :
  getQueueLength s = 0 -> snd (stop s) = ResolvedNow.
Proof.
  intros H. unfold stop.
  replace (getQueueLength (cancelScheduledPoll (set_running false s)))
    with (getQueueLength s).
  - rewrite H. reflexivity.
  - unfold cancelScheduledPoll, clearTimeout, getQueueLength.
    cbn. now destruct (pollTimer s).
Qed.

Lemma stop_idle s :
  running s = false -> pollTimer s = None -> getQueueLength s = 0 ->
  stop s = (s, ResolvedNow).
Proof.
  intros Hr Hp Hq. unfold stop, cancelScheduledPoll.
  cbn [pollTimer set_running]. rewrite Hp. cbn [clearTimeout].
  assert (E : set_pollTimer None (set_running false s) = s).
  { destruct s. unfold set_pollTimer, set_running. simpl in *. now subst. }
  rewrite E, Hq. reflexivity.
Qed.

(** [stop()] called between two callbacks, in any state that user code
    which leaves the consumer alone can reach (nothing guards the call), the
    state of a fresh consumer included.  It leaves the consumer not running
    with no poll timer armed and no handle held; with an empty queue its
    promise is already resolved; and in no run that follows, as long as
    [start()] is not called, is a GET issued. *)
Theorem stop_between_callbacks (s : State) :
  reachable s ->
  step Stop s = Some (fst (stop s))
  /\ running (fst (stop s)) = false
  /\ timers (fst (stop s)) = []
  /\ pollTimer (fst (stop s)) = None
  /\ (getQueueLength s = 0 -> snd (stop s) = ResolvedNow)
  /\ sel isGet (fst (stop s)) = sel isGet s
  /\ (forall l s', existsb isStart l = false ->
                   steps l (fst (stop s)) = Some s' ->
                   running s' = false /\ sel isGet s' = sel isGet s)
  /\ (running s = false -> timers s = [] -> pollTimer s = None ->
      getQueueLength s = 0 -> stop s = (s, ResolvedNow)).
Proof.
  intros R. pose proof (reachable_PollerInv s R) as [Ht _].
  pose proof (stop_Stopped s Ht) as [H1 H2].
  assert (G : sel isGet (fst (stop s)) = sel isGet s).
  { unfold stop. destruct (getQueueLength _ =? 0);
      apply (sel_cancelScheduledPoll isGet (set_running false s)). }
  split; [reflexivity|]. split; [exact H1|]. split; [exact H2|].
  split; [|split; [apply stop_queue_empty | split; [exact G | split]]].
  - unfold stop. now destruct (getQueueLength _ =? 0).
  - intros l s' Hl E.
    destruct (Stopped_steps l _ s' (conj H1 H2) Hl E) as [[Hr _] Hg].
    split; [exact Hr | congruence].
  - intros Hr _ Hp Hq. now apply stop_idle.
Qed.

(** [stop()] on a consumer that was never started, on one that has a poll
    timer armed, and on one whose GET is outstanding: the batch that arrives
    later is dropped. *)
Lemma stop_between_callbacks_witness :
  stop consumer5 = (consumer5, ResolvedNow)
  /\ (let s := after [Start; FetchOk []] consumer5 in
      timers s = [0%nat] /\ timers (fst (stop s)) = []
      /\ snd (stop s) = ResolvedNow)
  /\ (let s := after [Start] consumer5 in
      let s' := after [FetchOk [ev1]; Stop] (fst (stop s)) in
      steps [FetchOk [ev1]; Stop] (fst (stop s)) = Some s'
      /\ fetches s = 1%nat /\ fetches s' = 0%nat
      /\ running s' = false /\ sel isGet s' = sel isGet s).
Proof.
  split; [|split].
  - apply (stop_between_callbacks consumer5 reachable_consumer5); reflexivity.
  - intros s. split; [reflexivity|].
    pose proof (stop_between_callbacks s (reachable_after _ _ reachable_consumer5))
      as (_ & _ & H3 & _ & H5 & _ & _ & _).
    split; [exact H3|]. apply H5; vm_compute; reflexivity.
  - intros s s'.
    assert (E : steps [FetchOk [ev1]; Stop] (fst (stop s)) = Some s')
      by (vm_compute; reflexivity).
    pose proof (stop_between_callbacks s (reachable_after _ _ reachable_consumer5))
      as (_ & _ & _ & _ & _ & _ & H7 & _).
    split; [exact E|]. split; [vm_compute; reflexivity|].
    split; [vm_compute; reflexivity|].
    exact (H7 [FetchOk [ev1]; Stop] s' eq_refl E).
Defined.

(** *** User code that calls [stop()]

    With user code that never calls [stop()], the callbacks of [Reentrant]
    are those of the event loop above. *)
Lemma startFrom_waiting w : forall x s, startFrom w (set_waiting x s) = startFrom w s.
Proof.
  induction w as [|[t ev] rest IH]; intros x s; [reflexivity|].
  cbn [startFrom].
  change (queue_pending (set_waiting x s)) with (queue_pending s).
  change (concurrency (set_waiting x s)) with (concurrency s).
  destruct (queue_pending s <? concurrency s); [|reflexivity].
  unfold handleEvent. change (handler (set_waiting x s)) with (handler s).
  destruct (handler s ev) as [|e]; [reflexivity|].
  exact (IH x (emit (AConsoleLog e) (emit (AHandler ev) (emit (AOnEvent ev) s)))).
Qed.

Lemma Reentrant_startFrom w :
  forall s, Reentrant.startFrom neverStops w s = startFrom w s.
Proof.
  induction w as [|[t ev] rest IH]; intros s; [reflexivity|].
  cbn [Reentrant.startFrom startFrom].
  destruct (queue_pending s <? concurrency s); [|reflexivity].
  unfold Reentrant.handleEvent, handleEvent, neverStops.
  change (handler (set_waiting rest
                     (set_active (active s ++ [mkTask t ev Handling]) s)))
    with (handler s).
  destruct (handler s ev) as [|e]; [reflexivity|].
  rewrite IH.
  exact (startFrom_waiting rest rest
           (emit (AConsoleLog e) (emit (AHandler ev) (emit (AOnEvent ev) s)))).
Qed.

Lemma Reentrant_applyAck t r s :
  Reentrant.applyAck neverStops t r s = applyAck t r s.
Proof.
  unfold Reentrant.applyAck, applyAck, Reentrant.taskSettled, taskSettled,
    Reentrant.tryToStartAnother, tryToStartAnother.
  now rewrite !Reentrant_startFrom.
Qed.

Lemma Reentrant_submitAll entries :
  forall s, Reentrant.submitAll neverStops entries s
            = fold_left (fun st ev => queue_add ev st) entries s.
Proof.
  unfold Reentrant.submitAll.
  induction entries as [|ev rest IH]; intros s; [reflexivity|].
  cbn [fold_left]. rewrite <- IH. f_equal.
  unfold Reentrant.queue_add, queue_add, Reentrant.tryToStartAnother,
    tryToStartAnother.
  apply Reentrant_startFrom.
Qed.

Lemma Reentrant_step i s : Reentrant.step neverStops i s = step i s.
Proof.
  destruct i; cbn [Reentrant.step step]; try reflexivity;
    try (destruct (findTask t s) as [[? ? []]|]; try reflexivity;
         now rewrite Reentrant_applyAck).
  destruct (fetches s); [reflexivity|].
  unfold Reentrant.onFetchResolved, onFetchResolved.
  now rewrite Reentrant_submitAll.
Qed.

Lemma Reentrant_steps l : forall s, Reentrant.steps neverStops l s = steps l s.
Proof.
  induction l as [|i l IH]; intros s; [reflexivity|].
  cbn [Reentrant.steps steps]. rewrite Reentrant_step.
  destruct (step i s); [apply IH | reflexivity].
Qed.

(** C10 (code at the failing input): the handler calls [consumer.stop()]
    while it handles [ev1].  It runs inside the callback of the GET, after
    that callback has tested [running] and before it calls [poll], which
    tests nothing.
    With a ceiling of 5: when [ev1] has been submitted the consumer is
    stopped (not running, no timer, the promise of [stop()] waits for
    'drain'), and the callback goes on to issue a GET for 4 more events;
    the batch that answers it is dropped, its event is never handled.
    With a ceiling of 1: the callback finds the queue full and arms a poll
    timer on the stopped consumer; [ev1] is acked, 'drain' resolves the
    promise of [stop()], and then the timer fires and a GET is issued. *)
Theorem C10_stop_inside_handler_polls :
  let get n := ARequest "GET"
                 ("http://localhost:2113/subscriptions/MyStream/my-service/"
                    ++ n ++ "?embed=Body")%string (Some competingatom) in
  (let batch := set_polling false (set_fetches 0 (start consumer5)) in
   let stopped := Reentrant.submitAll stopsOnEv1 [ev1] batch in
   let polled := Reentrant.after stopsOnEv1 [Start; FetchOk [ev1]] consumer5 in
   let dropped := Reentrant.after stopsOnEv1 [FetchOk [ev2]] polled in
   Reentrant.steps stopsOnEv1 [Start; FetchOk [ev1]] consumer5 = Some polled
   /\ running batch = true
   /\ (running stopped = false /\ pollTimer stopped = None
       /\ timers stopped = [] /\ drainListeners stopped = 1%nat
       /\ sel isHandlerCall stopped = [AHandler ev1]
       /\ sel isGet stopped = [get "5"])
   /\ polled = emit (AEmit "poll") (poll stopped)
   /\ sel isGet polled = [get "5"; get "4"]
   /\ running polled = false /\ fetches polled = 1%nat
   /\ Reentrant.step stopsOnEv1 (FetchOk [ev2]) polled = Some dropped
   /\ sel isHandlerCall dropped = [AHandler ev1]
   /\ sel isGet dropped = [get "5"; get "4"])
  /\ (let armed := Reentrant.after stopsOnEv1 [Start; FetchOk [ev1]] consumer1 in
      let drained := Reentrant.after stopsOnEv1 [HandlerResolve 0; PostOk 0] armed in
      let late := Reentrant.after stopsOnEv1 [TimerFire 0] drained in
      Reentrant.steps stopsOnEv1 [Start; FetchOk [ev1]] consumer1 = Some armed
      /\ (running armed = false /\ timers armed = [0%nat]
          /\ drainListeners armed = 1%nat /\ sel isGet armed = [get "1"])
      /\ Reentrant.steps stopsOnEv1 [HandlerResolve 0; PostOk 0] armed
         = Some drained
      /\ (running drained = false /\ getQueueLength drained = 0
          /\ sel (isEmit "drain") drained = [AEmit "drain"]
          /\ sel isGet drained = [get "1"])
      /\ Reentrant.step stopsOnEv1 (TimerFire 0) drained = Some late
      /\ running late = false /\ fetches late = 1%nat
      /\ sel isGet late = [get "1"; get "1"]).
Proof.
  cbv zeta. splits; vm_compute; reflexivity.
Qed.

(** ** The 'poll' event *)






(** ** Where the code leaves the documented behaviour *)

(** The last failure of an acknowledgment: the error hook, then the promise
    of the task is rejected; the queue frees the slot, and the rejection
    callback of [poll] logs the error.  [didHandleEvent] does not run. *)
Lemma exhausted_ack_step t e s k ev r :
  findTask t s = Some (mkTask k ev (Requesting r)) ->
  a_retryCount r + 1 = a_retries r ->
  step (PostFail t e) s
  = Some (emit (AConsoleLog e)
               (tryToStartAnother (removeTask t (emit (AOnError e) s)))).
Proof.
  intros Hf Hr. cbn [step]. rewrite Hf. unfold applyAck, onRequestRejected.
  apply Z.eqb_eq in Hr. rewrite Hr. reflexivity.
Qed.

(** A successful acknowledgment, for comparison. *)
Lemma successful_ack_step t s k ev r :
  findTask t s = Some (mkTask k ev (Requesting r)) ->
  step (PostOk t) s = Some (didHandleEvent (tryToStartAnother (removeTask t s))).
Proof. intros Hf. cbn [step]. now rewrite Hf. Qed.

Lemma idle_intro s :
  fetches s = 0%nat -> timers s = [] -> active s = [] -> idle s.
Proof.
  intros Hf Ht Ha i H1 H2. destruct i; cbn [step]; try congruence;
    unfold findTask; rewrite ?Hf, ?Ht, ?Ha; reflexivity.
Qed.

(** C2 (code at the failing input): the third failure of the ack frees the
    slot but, unlike a successful ack in the same state, runs neither the
    drain check nor the re-poll: no 'drain' is emitted, no GET is issued and
    no timer is armed, so the running consumer is idle for good; and a
    [stop()] called before the last failure waits for a 'drain' that never
    comes. *)
Theorem C2_exhausted_ack_skips_completion :
  let failed := after [PostFail 0 "ECONNREFUSED"] lastAttempt in
  let acked := after [PostOk 0] lastAttempt in
  let stopping := after [Stop; PostFail 0 "ECONNREFUSED"] lastAttempt in
  steps [Start; FetchOk [ev1]; TimerFire 0; HandlerResolve 0;
         PostFail 0 "ECONNREFUSED"; RetryFire 0;
         PostFail 0 "ECONNREFUSED"; RetryFire 0] consumer1 = Some lastAttempt
  /\ step (PostFail 0 "ECONNREFUSED") lastAttempt = Some failed
  /\ step (PostOk 0) lastAttempt = Some acked
  /\ steps [Stop; PostFail 0 "ECONNREFUSED"] lastAttempt = Some stopping
  /\ getQueueLength lastAttempt = 1
  /\ (getQueueLength acked = 0
      /\ sel (isEmit "drain") acked = [AEmit "drain"]
      /\ fetches acked = 1%nat)
  /\ (getQueueLength failed = 0
      /\ sel isOnError failed = [AOnError "ECONNREFUSED"]
      /\ sel (isEmit "drain") failed = []
      /\ sel isGet failed = sel isGet lastAttempt
      /\ running failed = true /\ idle failed)
  /\ (snd (stop lastAttempt) = WaitsForDrain
      /\ drainListeners stopping = 1%nat
      /\ sel (isEmit "drain") stopping = []
      /\ idle stopping).
Proof.
  cbv zeta. do 5 (split; [vm_compute; reflexivity|]).
  split; [splits; vm_compute; reflexivity|].
  split.
  - split; [|split; [|split; [|split; [|split]]]]; try (vm_compute; reflexivity).
    apply idle_intro; vm_compute; reflexivity.
  - split; [|split; [|split]]; try (vm_compute; reflexivity).
    apply idle_intro; vm_compute; reflexivity.
Qed.

(** C4 (code at the failing input): timer 0 fires while the queue is still
    full.  [poll] finds no capacity and calls [schedulePoll], which returns
    at once because [pollTimer] still holds the handle of the timer that has
    just fired: no request is issued and no re-check is armed. *)
Theorem C4_recheck_not_rearmed :
  let fired := set_timers (remove Nat.eq_dec 0%nat (timers queueFull)) queueFull in
  steps [Start; FetchOk [ev1]] consumer1 = Some queueFull
  /\ timers queueFull = [0%nat] /\ pollTimer queueFull = Some 0%nat
  /\ step (TimerFire 0) queueFull = Some (poll fired)
  /\ concurrency fired - getQueueLength fired = 0
  /\ poll fired = schedulePoll fired
  /\ pollTimer (poll fired) = Some 0%nat
  /\ timers (poll fired) = []
  /\ fetches (poll fired) = 0%nat
  /\ sel isSetTimeout (poll fired) = sel isSetTimeout queueFull.
Proof.
  cbv zeta. splits; vm_compute; reflexivity.
Qed.

(** The parts of C7 that hold whenever the handler returns: [handleEvent]
    fires the hook and calls the handler once; a resolved promise starts one
    ack, a rejected one the error hook and then one nack, each with a single
    POST to the link of that relation. *)
Lemma handleEvent_once ev s :
  trace (fst (handleEvent ev s)) = trace s ++ [AOnEvent ev; AHandler ev]
  /\ snd (handleEvent ev s) = handler s ev.
Proof.
  unfold handleEvent. cbn [fst snd emit trace]. now rewrite <- app_assoc.
Qed.

Lemma handlerSettled_resolved ev :
  findLink "ack" (links ev) <> "" ->
  handlerSettled ev None
  = ([AOnAck ev; ARequest "POST" (findLink "ack" (links ev)) None],
     AckInFlight (mkAckReq (findLink "ack" (links ev)) 0 3 500)).
Proof.
  intros H. apply String.eqb_neq in H. cbn [handlerSettled].
  unfold ack, ackNackHelper. now rewrite H.
Qed.

Lemma handlerSettled_rejected ev e :
  findLink "nack" (links ev) <> "" ->
  handlerSettled ev (Some e)
  = ([AOnError e; AOnNack ev; ARequest "POST" (findLink "nack" (links ev)) None],
     AckInFlight (mkAckReq (findLink "nack" (links ev)) 0 3 500)).
Proof.
  intros H. apply String.eqb_neq in H. cbn [handlerSettled].
  unfold nack, ackNackHelper. now rewrite H.
Qed.

Lemma consumerA_new :
  constructor None (mkParams (Some "MyStream") (Some "my-service") throwingHandler
                             (Some 5) (Some "http://localhost:2113") None)
  = inr consumerA.
Proof. reflexivity. Qed.

(** C7 (code at the failing input): the batch [ev1; ev2] is fetched; the
    handler returns for [ev1] and throws for [ev2].  The hook is fired and
    the handler is called once for each of them.  [ev1] is acked once, with
    one POST.  For [ev2] neither the error hook nor a nack nor a POST
    follows: the exception leaves [handleEvent], the task is rejected, the
    error is logged once by the rejection callback of [poll], and the queue
    is empty at the end.  Hooks, handler calls, acknowledgment actions and
    logs are selected one kind at a time: nothing is said about when the log
    is written, nor about when the queue frees the slot of the rejected
    task. *)
Theorem C7_throwing_handler_not_nacked :
  let s := after [Start; FetchOk [ev1; ev2]; HandlerResolve 0; PostOk 0] consumerA in
  steps [Start; FetchOk [ev1; ev2]; HandlerResolve 0; PostOk 0] consumerA = Some s
  /\ handleEvent ev2 consumerA
     = (emit (AHandler ev2) (emit (AOnEvent ev2) consumerA), Threw "Test error")
  /\ sel isOnEvent s = [AOnEvent ev1; AOnEvent ev2]
  /\ sel isHandlerCall s = [AHandler ev1; AHandler ev2]
  /\ sel isAckNack s
     = [AOnAck ev1; ARequest "POST" "http://localhost:2113/ack/ev1" None]
  /\ sel isOnNack s = []
  /\ sel isOnError s = []
  /\ sel isConsoleLog s = [AConsoleLog "Test error"]
  /\ active s = [] /\ waiting s = [].
Proof.
  cbv zeta. splits; vm_compute; reflexivity.
Qed.

(** ** Repeated calls of the poller *)

Lemma capacity_pollerFrame s s' :
  pollerFrame s s' ->
  concurrency s' - getQueueLength s' = concurrency s - getQueueLength s.
Proof.
  intros (E1 & _ & E2). unfold cfgOf, queueOf in *.
  unfold getQueueLength, queue_size, queue_pending. congruence.
Qed.

Lemma schedulePoll_holds_handle s : pollTimer (schedulePoll s) <> None.
Proof.
  unfold schedulePoll. destruct (pollTimer s) eqn:E.
  - rewrite E. discriminate.
  - discriminate.
Qed.

Lemma schedulePoll_idempotent s : schedulePoll (schedulePoll s) = schedulePoll s.
Proof.
  pose proof (schedulePoll_holds_handle s) as H.
  unfold schedulePoll at 1. now destruct (pollTimer (schedulePoll s)).
Qed.

Lemma polling_issuePoll c s : polling (issuePoll c s) = true.
Proof.
  unfold issuePoll, request, cancelScheduledPoll, clearTimeout. simpl.
  now destruct (pollTimer s).
Qed.

Lemma running_poll s : running (poll s) = running s.
Proof.
  destruct (poll_cases s) as [[_ ->]|[(_ & _ & ->)|(_ & _ & ->)]].
  - unfold schedulePoll. now destruct (pollTimer s).
  - reflexivity.
  - unfold issuePoll, request, cancelScheduledPoll, clearTimeout. simpl.
    now destruct (pollTimer s).
Qed.

Lemma set_running_same s : set_running (running s) s = s.
Proof. now destruct s. Qed.

(** X1: [poll] is idempotent: called twice in a row it does what one call
    does (at most one timer armed, at most one request issued); so is
    [start]. *)
Theorem X1_poll_idempotent (s : State) :
  poll (poll s) = poll s /\ start (start s) = start s.
Proof.
  assert (P : forall x, poll (poll x) = poll x).
  { intros x. pose proof (capacity_pollerFrame x (poll x) (pollerFrame_poll x)) as Hc.
    destruct (poll_cases x) as [[H E]|[(H & Hp & E)|(H & Hp & E)]].
    - rewrite E in *.
      destruct (poll_cases (schedulePoll x)) as [[_ E2]|[(H2 & _)|(H2 & _)]];
        try lia.
      rewrite E2. apply schedulePoll_idempotent.
    - now rewrite E.
    - rewrite E in *.
      destruct (poll_cases (issuePoll (concurrency x - getQueueLength x) x))
        as [[H2 _]|[(_ & _ & E2)|(_ & Hp2 & _)]]; try lia.
      + exact E2.
      + rewrite polling_issuePoll in Hp2. discriminate. }
  split; [apply P|]. unfold start.
  assert (R : running (poll (set_running true s)) = true)
    by now rewrite running_poll.
  rewrite <- R at 1. rewrite set_running_same. apply P.
Qed.

(** ** Link resolution *)

Lemma findLink_first type pre l post :
  (forall x, In x pre -> relation x <> type) -> relation l = type ->
  findLink type (pre ++ l :: post) = uri l.
Proof.
  intros Hpre Hl. induction pre as [|x pre IH]; simpl.
  - apply String.eqb_eq in Hl. now rewrite Hl.
  - destruct (String.eqb_spec (relation x) type) as [E|_].
    + exfalso. apply (Hpre x); [now left | exact E].
    + apply IH. intros y Hy. apply Hpre. now right.
Qed.

Lemma findLink_sound type ls :
  findLink type ls <> "" ->
  exists l, In l ls /\ relation l = type /\ uri l = findLink type ls.
Proof.
  induction ls as [|x ls IH]; simpl; intros H.
  - congruence.
  - destruct (String.eqb_spec (relation x) type) as [E|_].
    + exists x. repeat split; [now left | exact E].
    + destruct (IH H) as (l & Hin & Hr & Hu). exists l.
      repeat split; [now right | exact Hr | exact Hu].
Qed.

(** X2: the first link of the event whose relation is the outcome decides
    the acknowledgment, whatever follows it: with a non-empty [uri] the one
    request is a POST to that [uri]; with an empty [uri] nothing is
    requested, also when a later link of the same relation has one. *)
Theorem X2_first_matching_link_decides (ev : Event) (type : string)
  (retries delayMs : Z) (pre post : list Link) (l : Link) :
  links ev = pre ++ l :: post ->
  (forall x, In x pre -> relation x <> type) ->
  relation l = type ->
  ackNackHelper ev type retries delayMs
  = if (uri l =? "")%string then ([hookOf type ev], AckResolved)
    else ([hookOf type ev; ARequest "POST" (uri l) None],
          AckInFlight (mkAckReq (uri l) 0 retries delayMs)).
Proof.
  intros El Hpre Hl. unfold ackNackHelper. rewrite El.
  rewrite (findLink_first type pre l post Hpre Hl).
  now destruct (uri l =? "")%string.
Qed.

Lemma X2_first_matching_link_decides_witness :
  ack ev_shadowed = ([AOnAck ev_shadowed], AckResolved)
  /\ nack ev1
     = ([AOnNack ev1; ARequest "POST" "http://localhost:2113/nack/ev1" None],
        AckInFlight (mkAckReq "http://localhost:2113/nack/ev1" 0 3 500)).
Proof.
  split.
  - apply (X2_first_matching_link_decides ev_shadowed "ack" 3 500
             [mkLink "self" "http://localhost:2113/streams/MyStream/7"]
             [mkLink "ack" "http://localhost:2113/ack/ev7"]
             (mkLink "ack" "")).
    + reflexivity.
    + intros x [<-|[]]. discriminate.
    + reflexivity.
  - apply (X2_first_matching_link_decides ev1 "nack" 3 500
             [mkLink "ack" "http://localhost:2113/ack/ev1"] []
             (mkLink "nack" "http://localhost:2113/nack/ev1")).
    + reflexivity.
    + intros x [<-|[]]. discriminate.
    + reflexivity.
Defined.

(** X3: whenever the acknowledgment posts, it posts to the [uri] of a link
    that the event carries under the relation of the outcome. *)
Theorem X3_post_goes_to_a_link_of_the_event (ev : Event) (type : string)
  (retries delayMs : Z) (m u : string) (a : option string) :
  In (ARequest m u a) (fst (ackNackHelper ev type retries delayMs)) ->
  m = "POST" /\ u <> ""
  /\ exists l, In l (links ev) /\ relation l = type /\ uri l = u.
Proof.
  unfold ackNackHelper.
  destruct (String.eqb_spec (findLink type (links ev)) "") as [E|N]; simpl.
  - intros [H|[]]. destruct (type =? "ack")%string; discriminate.
  - intros [H|[H|[]]].
    + destruct (type =? "ack")%string; discriminate.
    + injection H as <- <- _. split; [reflexivity|]. split; [exact N|].
      destruct (findLink_sound type (links ev) N) as (l & H1 & H2 & H3).
      now exists l.
Qed.

Lemma X3_post_goes_to_a_link_of_the_event_witness :
  "POST" = "POST" /\ "http://localhost:2113/ack/ev1" <> ""
  /\ exists l, In l (links ev1) /\ relation l = "ack"
               /\ uri l = "http://localhost:2113/ack/ev1".
Proof.
  apply (X3_post_goes_to_a_link_of_the_event ev1 "ack" 3 500 _ _ None).
  right. left. reflexivity.
Defined.

(** ** The configuration is fixed by the constructor *)

Lemma sameConfig_refl s : sameConfig s s.
Proof. now split. Qed.

Lemma sameConfig_trans s1 s2 s3 :
  sameConfig s1 s2 -> sameConfig s2 s3 -> sameConfig s1 s3.
Proof. intros [A1 A2] [B1 B2]. split; congruence. Qed.

Lemma sameConfig_queueFrame f s s' : queueFrame f s s' -> sameConfig s s'.
Proof. intros (A & B & _). now split. Qed.

Lemma sameConfig_pollerFrame s s' : pollerFrame s s' -> sameConfig s s'.
Proof. intros (A & B & _). now split. Qed.

Lemma sameConfig_poll s : sameConfig s (poll s).
Proof. apply sameConfig_pollerFrame, pollerFrame_poll. Qed.

Lemma sameConfig_schedulePoll s : sameConfig s (schedulePoll s).
Proof. apply sameConfig_pollerFrame, pollerFrame_schedulePoll. Qed.

Lemma sameConfig_emit_all l : forall s, sameConfig s (emit_all l s).
Proof.
  induction l as [|a l IH]; simpl; intros s; [apply sameConfig_refl|].
  eapply sameConfig_trans; [|apply IH]. now split.
Qed.

Lemma sameConfig_taskSettled t res s : sameConfig s (taskSettled t res s).
Proof.
  unfold taskSettled.
  assert (F : sameConfig s (tryToStartAnother (removeTask t s))).
  { apply (sameConfig_queueFrame noAction).
    eapply queueFrame_trans; [apply queueFrame_removeTask|].
    apply queueFrame_startFrom, quiet_noAction. }
  destruct res.
  - eapply sameConfig_trans; [exact F | now split].
  - eapply sameConfig_trans; [exact F|].
    apply sameConfig_pollerFrame, pollerFrame_didHandleEvent.
Qed.

Lemma sameConfig_applyAck t r s : sameConfig s (applyAck t r s).
Proof.
  unfold applyAck.
  pose proof (sameConfig_emit_all (fst r) s) as F.
  destruct (snd r).
  - eapply sameConfig_trans; [exact F | apply sameConfig_taskSettled].
  - eapply sameConfig_trans; [exact F | apply sameConfig_taskSettled].
  - eapply sameConfig_trans; [exact F | now split].
  - eapply sameConfig_trans; [exact F | now split].
Qed.

Lemma sameConfig_step i s s' : step i s = Some s' -> sameConfig s s'.
Proof.
  destruct i; cbn [step].
  - intros [= <-].
    apply (sameConfig_trans s (set_running true s)); [now split|].
    apply sameConfig_poll.
  - intros [= <-]. unfold stop.
    set (s1 := cancelScheduledPoll (set_running false s)).
    assert (F : sameConfig s s1).
    { apply (sameConfig_trans s (set_running false s)); [now split|].
      apply sameConfig_pollerFrame, pollerFrame_cancelScheduledPoll. }
    destruct (getQueueLength s1 =? 0); exact F.
  - destruct (fetches s); [discriminate|]. intros [= <-]. unfold onFetchResolved.
    set (s1 := set_polling false (set_fetches n s)).
    assert (F1 : sameConfig s s1) by now split.
    destruct (negb (running s1)); [exact F1|].
    destruct (_ <? _)%nat.
    + apply (sameConfig_trans s (poll (fold_left (fun st ev => queue_add ev st) entries s1)));
        [|now split].
      eapply sameConfig_trans; [|apply sameConfig_poll].
      eapply sameConfig_trans; [exact F1|].
      apply (sameConfig_queueFrame noAction),
            (queueFrame_add_all noAction quiet_noAction entries s1).
    + apply (sameConfig_trans s (schedulePoll s1)); [|now split].
      eapply sameConfig_trans; [exact F1 | apply sameConfig_schedulePoll].
  - destruct (fetches s); [discriminate|]. intros [= <-]. unfold onFetchRejected.
    set (s1 := emit (AOnError e) (set_polling false (set_fetches n s))).
    assert (F1 : sameConfig s s1) by now split.
    destruct (running s1); [|exact F1].
    eapply sameConfig_trans; [exact F1 | apply sameConfig_schedulePoll].
  - destruct (mem t (timers s)); [|discriminate]. intros [= <-].
    apply (sameConfig_trans s (set_timers (remove Nat.eq_dec t (timers s)) s));
      [now split | apply sameConfig_poll].
  - destruct (findTask t s) as [[? ? []]|]; try discriminate.
    intros [= <-]. apply sameConfig_applyAck.
  - destruct (findTask t s) as [[? ? []]|]; try discriminate.
    intros [= <-]. apply sameConfig_applyAck.
  - destruct (findTask t s) as [[? ? []]|]; try discriminate.
    intros [= <-]. apply sameConfig_applyAck.
  - destruct (findTask t s) as [[? ? []]|]; try discriminate.
    intros [= <-]. apply sameConfig_applyAck.
  - destruct (findTask t s) as [[? ? []]|]; try discriminate.
    intros [= <-]. apply sameConfig_applyAck.
Qed.

Lemma sameConfig_steps l :
  forall s s', steps l s = Some s' -> sameConfig s s'.
Proof.
  induction l as [|i l IH]; simpl; intros s s' E.
  - injection E as <-. apply sameConfig_refl.
  - destruct (step i s) as [s1|] eqn:E1; [|discriminate].
    eapply sameConfig_trans; [eapply sameConfig_step, E1 | apply IH, E].
Qed.

Lemma constructor_config env p s :
  constructor env p = inr s ->
  stream s = p_stream p /\ group s = p_group p /\ handler s = p_handler p
  /\ concurrency s = js_or_num (p_concurrency p) 1
  /\ eventStoreUrl s = resolvedUrl env p
  /\ pollDelay s = js_or_num (p_pollDelay p) 500.
Proof.
  unfold constructor. fold (resolvedUrl env p). intros H.
  destruct (negb _); [discriminate|].
  destruct (_ =? _)%string; [discriminate|].
  injection H as <-. repeat split.
Qed.

(** X4: in every run of a consumer constructed with a ceiling of at most
    [MAX_SAFE_INTEGER], every GET goes to the address given to the
    constructor: the [eventStoreUrl] option when it is set (and not empty),
    the environment's value otherwise; the path names the stream and the
    group as they were given (a missing one reads "undefined") and, in
    decimal digits, a count between 1 and the ceiling. *)
Theorem X4_fetch_address (env : option string) (p : Params) (s0 s : State)
  (l : list Input) (m u : string) (a : option string) :
  constructor env p = inr s0 ->
  js_or_num (p_concurrency p) 1 <= MAX_SAFE_INTEGER ->
  steps l s0 = Some s ->
  In (ARequest m u a) (trace s) -> m = "GET" ->
  (forall o, p_eventStoreUrl p = Some o -> o <> "" -> resolvedUrl env p = o)
  /\ (p_eventStoreUrl p = None \/ p_eventStoreUrl p = Some "" ->
      forall v, env = Some v -> resolvedUrl env p = v)
  /\ exists count,
       0 < count /\ count <= js_or_num (p_concurrency p) 1
       /\ count <= MAX_SAFE_INTEGER
       /\ u = subscriptionUrl (resolvedUrl env p) (p_stream p) (p_group p) count
       /\ a = Some competingatom.
Proof.
  intros Hc Hsafe Hs Hin Hm. split; [|split].
  - intros o Ho Hne. unfold resolvedUrl. rewrite Ho. simpl.
    apply String.eqb_neq in Hne. now rewrite Hne.
  - intros Ho v ->. unfold resolvedUrl.
    destruct Ho as [-> | ->]; simpl; now destruct (v =? "")%string eqn:E;
      [apply String.eqb_eq in E|].
  - assert (R : reachable s)
      by (eapply reachable_steps; [eapply reach_new, Hc | exact Hs]).
    pose proof (reachable_GetInv s R) as G. unfold GetInv in G.
    rewrite Forall_forall in G. subst m.
    destruct (G (ARequest "GET" u a)) as (c & H1 & H2 & H3).
    { apply filter_In. split; [exact Hin | reflexivity]. }
    destruct (sameConfig_steps l s0 s Hs) as [Ecfg _].
    destruct (constructor_config env p s0 Hc) as (A1 & A2 & _ & A4 & A5 & _).
    unfold cfgOf in Ecfg. injection Ecfg as B1 B2 B3 B4 _.
    assert (Hle : c <= js_or_num (p_concurrency p) 1) by congruence.
    exists c. injection H3 as -> ->.
    split; [exact H1|]. split; [exact Hle|]. split; [lia|]. split; [|reflexivity].
    unfold pollUrl, subscriptionUrl. congruence.
Qed.

Lemma X4_fetch_address_witness :
  exists count,
    0 < count /\ count <= 10 /\ count <= MAX_SAFE_INTEGER
    /\ "http://override.localhost:2113/subscriptions/MyStream/my-service/10?embed=Body"
       = subscriptionUrl "http://override.localhost:2113" (Some "MyStream")
                         (Some "my-service") count
    /\ Some competingatom = Some competingatom.
Proof.
  assert (C : exists s0, constructor (Some "http://localhost:2113") paramsOverride
                         = inr s0) by (eexists; reflexivity).
  destruct C as [s0 C].
  assert (S : steps [Start] s0 = Some (after [Start] s0)).
  { injection C as <-. vm_compute. reflexivity. }
  assert (M : js_or_num (p_concurrency paramsOverride) 1 <= MAX_SAFE_INTEGER)
    by (vm_compute; discriminate).
  refine (proj2 (proj2 (X4_fetch_address (Some "http://localhost:2113")
                          paramsOverride s0 (after [Start] s0) [Start]
                          "GET" _ (Some competingatom) C M S _ eq_refl))).
  injection C as <-. vm_compute. left. reflexivity.
Defined.

(** ** A fresh consumer *)

(** X5: a consumer that was constructed has a ceiling of at least 1 (1 when
    the option is missing or 0), a poll delay that is not 0 (500 when the
    option is missing or 0) and a base address; it is not running, has
    requested nothing, and nothing happens to it until [start()] is called;
    [start()] then issues one GET that asks for as many events as the
    ceiling. *)
Theorem X5_fresh_consumer (env : option string) (p : Params) (s : State) :
  constructor env p = inr s ->
  1 <= concurrency s
  /\ (p_concurrency p = None \/ p_concurrency p = Some 0 -> concurrency s = 1)
  /\ pollDelay s <> 0
  /\ (p_pollDelay p = None \/ p_pollDelay p = Some 0 -> pollDelay s = 500)
  /\ eventStoreUrl s <> ""
  /\ running s = false /\ trace s = [] /\ idle s
  /\ trace (start s)
     = [ARequest "GET" (pollUrl s (concurrency s)) (Some competingatom)]
  /\ running (start s) = true /\ fetches (start s) = 1%nat.
Proof.
  unfold constructor, PQueue_valid. intros H.
  destruct (Z.leb_spec 1 (js_or_num (p_concurrency p) 1)) as [Hc|]; [|discriminate].
  cbn [negb] in H.
  destruct (String.eqb_spec (js_or_str (p_eventStoreUrl p) (js_or_str env "")) "")
    as [|Hu]; [discriminate|].
  injection H as <-. cbn [concurrency pollDelay eventStoreUrl running trace].
  split; [exact Hc|]. split.
  { intros [-> | ->]; reflexivity. }
  split.
  { unfold js_or_num. destruct (p_pollDelay p) as [d|]; [|discriminate].
    destruct (Z.eqb_spec d 0); [discriminate | assumption]. }
  split.
  { intros [-> | ->]; reflexivity. }
  split; [exact Hu|]. split; [reflexivity|]. split; [reflexivity|].
  split; [apply idle_intro; reflexivity|].
  unfold start, poll, getQueueLength, queue_size, queue_pending.
  cbn [concurrency waiting active set_running List.length Z.of_nat Z.add].
  rewrite Z.sub_0_r.
  destruct (Z.leb_spec (js_or_num (p_concurrency p) 1) 0); [lia|].
  cbn. repeat split.
Qed.

Lemma X5_fresh_consumer_witness :
  trace (start consumer1)
  = [ARequest "GET" "http://localhost:2113/subscriptions/MyStream/my-service/1?embed=Body"
              (Some competingatom)]
  /\ pollDelay consumer1 = 500.
Proof.
  pose proof (X5_fresh_consumer None params1 consumer1 consumer1_new)
    as (_ & _ & _ & H4 & _ & _ & _ & _ & H9 & _).
  split; [exact H9 | apply H4; now left].
Defined.

(** ** A request and a timer never coexist *)

Lemma Excl_shrink s s' :
  polling s' = polling s -> timers s' = timers s -> pollTimer s' = pollTimer s ->
  concurrency s' = concurrency s -> getQueueLength s' <= getQueueLength s ->
  Excl s -> Excl s'.
Proof.
  unfold Excl. intros -> -> -> -> Hq H Hp. destruct (H Hp) as (A & B & C).
  repeat split; [exact A | exact B | lia].
Qed.

Lemma Excl_idle s : polling s = false -> Excl s.
Proof. unfold Excl. congruence. Qed.

Lemma polling_schedulePoll s : polling (schedulePoll s) = polling s.
Proof. unfold schedulePoll. now destruct (pollTimer s). Qed.

Lemma pollTimer_issuePoll c s : pollTimer (issuePoll c s) = None.
Proof. reflexivity. Qed.

Lemma Excl_poll s : timerInv s -> Excl s -> Excl (poll s).
Proof.
  intros Ht H.
  pose proof (capacity_pollerFrame s (poll s) (pollerFrame_poll s)) as Hc.
  destruct (poll_cases s) as [[Hle E]|[(_ & _ & E)|(Hlt & _ & E)]]; rewrite E in *.
  - apply Excl_idle. rewrite polling_schedulePoll.
    destruct (polling s) eqn:Hp; [|reflexivity].
    destruct (H Hp) as (_ & _ & ?). lia.
  - exact H.
  - intros _. split; [now apply timers_issuePoll|].
    split; [apply pollTimer_issuePoll | lia].
Qed.

Lemma queue_pending_emit a s : queue_pending (emit a s) = queue_pending s.
Proof. reflexivity. Qed.

Lemma getQueueLength_startFrom w :
  forall s, getQueueLength (startFrom w s)
            <= Z.of_nat (List.length w) + queue_pending s.
Proof.
  induction w as [|[t ev] rest IH]; intros s; cbn [startFrom].
  - unfold getQueueLength, queue_size, queue_pending. simpl. lia.
  - destruct (queue_pending s <? concurrency s).
    + unfold handleEvent. destruct (handler s ev).
      * unfold getQueueLength, queue_size, queue_pending.
        cbn [waiting active set_waiting set_active emit].
        rewrite length_app. cbn [List.length]. lia.
      * etransitivity; [apply IH|].
        rewrite !queue_pending_emit. cbn [List.length]. lia.
    + unfold getQueueLength, queue_size, queue_pending.
      cbn [waiting active set_waiting List.length]. lia.
Qed.

Lemma getQueueLength_tryToStartAnother s :
  getQueueLength (tryToStartAnother s) <= getQueueLength s.
Proof.
  unfold tryToStartAnother. etransitivity; [apply getQueueLength_startFrom|].
  unfold getQueueLength, queue_size. lia.
Qed.

Lemma getQueueLength_removeTask t s :
  getQueueLength (removeTask t s) <= getQueueLength s.
Proof.
  unfold getQueueLength, queue_size, queue_pending.
  cbn [waiting active removeTask set_active].
  pose proof (filter_length_le (fun k => negb (tid k =? t)%nat) (active s)). lia.
Qed.

Lemma getQueueLength_setPhase t p s :
  getQueueLength (setPhase t p s) = getQueueLength s.
Proof.
  unfold getQueueLength, queue_size, queue_pending.
  cbn [waiting active setPhase set_active]. now rewrite length_map.
Qed.

Lemma getQueueLength_emit_all l :
  forall s, getQueueLength (emit_all l s) = getQueueLength s.
Proof. induction l as [|a l IH]; simpl; intros s; [reflexivity | now rewrite IH]. Qed.

(** The poller's fields after a callback of the queue. *)
Lemma queueFrame_poller f s s' :
  queueFrame f s s' ->
  running s' = running s /\ polling s' = polling s /\ timers s' = timers s
  /\ pollTimer s' = pollTimer s /\ fetches s' = fetches s
  /\ concurrency s' = concurrency s.
Proof.
  intros (A & _ & B & C & _). unfold pollerOf, cfgOf in *.
  injection A as _ _ _ A _. injection B as B1 B2 _ B4 B5.
  repeat split; assumption.
Qed.

Lemma Excl_queueFrame f s s' :
  queueFrame f s s' -> getQueueLength s' <= getQueueLength s ->
  Excl s -> Excl s'.
Proof.
  intros F Hq. destruct (queueFrame_poller f s s' F) as (_ & A & B & C & _ & D).
  now apply Excl_shrink.
Qed.

Lemma Excl_didHandleEvent s : timerInv s -> Excl s -> Excl (didHandleEvent s).
Proof.
  intros Ht H. unfold didHandleEvent.
  set (s1 := if getQueueLength s =? 0 then emit (AEmit "drain") s else s).
  assert (H1 : timerInv s1 /\ Excl s1)
    by (subst s1; destruct (getQueueLength s =? 0); split; assumption).
  destruct H1 as [Ht1 H1].
  destruct (running s1); [now apply Excl_poll | exact H1].
Qed.

Lemma timerInv_queueFrame f s s' : queueFrame f s s' -> timerInv s -> timerInv s'.
Proof.
  intros F. destruct (queueFrame_poller f s s' F) as (_ & _ & B & C & _).
  unfold timerInv. now rewrite B, C.
Qed.

Lemma queueFrame_settle t s :
  queueFrame noAction s (tryToStartAnother (removeTask t s)).
Proof.
  eapply queueFrame_trans; [apply queueFrame_removeTask|].
  apply queueFrame_startFrom, quiet_noAction.
Qed.

Lemma Excl_taskSettled t res s :
  timerInv s -> Excl s -> Excl (taskSettled t res s).
Proof.
  intros Ht H. unfold taskSettled.
  set (s1 := tryToStartAnother (removeTask t s)).
  assert (F : queueFrame noAction s s1) by apply queueFrame_settle.
  assert (Hq : getQueueLength s1 <= getQueueLength s).
  { subst s1. etransitivity; [apply getQueueLength_tryToStartAnother|].
    apply getQueueLength_removeTask. }
  pose proof (Excl_queueFrame _ _ _ F Hq H) as H1.
  pose proof (timerInv_queueFrame _ _ _ F Ht) as Ht1.
  destruct res; [exact H1 | now apply Excl_didHandleEvent].
Qed.

Lemma noAction_all l : forallb (fun a => negb (noAction a)) l = true.
Proof. now induction l. Qed.

Lemma Excl_applyAck t r s : timerInv s -> Excl s -> Excl (applyAck t r s).
Proof.
  intros Ht H. unfold applyAck.
  set (s1 := emit_all (fst r) s).
  assert (F : queueFrame noAction s s1)
    by apply queueFrame_emit_all, noAction_all.
  assert (H1 : Excl s1).
  { eapply Excl_queueFrame; [exact F | | exact H].
    subst s1. rewrite getQueueLength_emit_all. lia. }
  pose proof (timerInv_queueFrame _ _ _ F Ht) as Ht1.
  destruct (snd r).
  - now apply Excl_taskSettled.
  - now apply Excl_taskSettled.
  - eapply Excl_queueFrame; [apply (queueFrame_setPhase noAction) | | exact H1].
    rewrite getQueueLength_setPhase. lia.
  - eapply Excl_queueFrame; [apply (queueFrame_setPhase noAction) | | exact H1].
    rewrite getQueueLength_setPhase. lia.
Qed.

Lemma Excl_step i s s' :
  PollerInv s -> Excl s -> step i s = Some s' -> Excl s'.
Proof.
  intros [Ht Hf] H. destruct i; cbn [step].
  - intros [= <-]. apply (Excl_poll (set_running true s)); assumption.
  - intros [= <-]. unfold stop.
    set (s1 := cancelScheduledPoll (set_running false s)).
    assert (H1 : Excl s1).
    { subst s1. intros Hp.
      assert (Hp' : polling s = true).
      { unfold cancelScheduledPoll, clearTimeout in Hp. cbn in Hp.
        now destruct (pollTimer s). }
      destruct (H Hp') as (_ & _ & C).
      split; [apply (timers_cancelScheduledPoll (set_running false s) Ht)|].
      split; [reflexivity|].
      rewrite (capacity_pollerFrame _ _
                 (pollerFrame_cancelScheduledPoll (set_running false s))).
      exact C. }
    destruct (getQueueLength s1 =? 0); exact H1.
  - destruct (fetches s); [discriminate|]. intros [= <-]. unfold onFetchResolved.
    set (s1 := set_polling false (set_fetches n s)).
    destruct (negb (running s1)); [now apply Excl_idle|].
    destruct (_ <? _)%nat.
    + set (s2 := fold_left (fun st ev => queue_add ev st) entries s1).
      assert (F : queueFrame noAction s1 s2)
        by apply queueFrame_add_all, quiet_noAction.
      destruct (queueFrame_poller _ _ _ F) as (_ & Hp & _).
      apply (Excl_poll s2).
      * apply (timerInv_queueFrame _ _ _ F). exact Ht.
      * apply Excl_idle. now rewrite Hp.
    + apply Excl_idle. cbn [polling emit]. now rewrite polling_schedulePoll.
  - destruct (fetches s); [discriminate|]. intros [= <-]. unfold onFetchRejected.
    apply Excl_idle. destruct (running _); [now rewrite polling_schedulePoll|];
      reflexivity.
  - destruct (mem t (timers s)) eqn:Hm; [|discriminate]. intros [= <-].
    apply mem_In in Hm.
    assert (Hp : polling s = false).
    { destruct (polling s) eqn:Hp; [|reflexivity].
      destruct (H Hp) as (E & _). rewrite E in Hm. destruct Hm. }
    apply Excl_poll.
    + left. cbn. destruct Ht as [E|(t' & _ & E)]; rewrite E in *.
      * destruct Hm.
      * destruct Hm as [->|[]]. apply remove_single.
    + now apply Excl_idle.
  - destruct (findTask t s) as [[? ? []]|]; try discriminate.
    intros [= <-]. now apply Excl_applyAck.
  - destruct (findTask t s) as [[? ? []]|]; try discriminate.
    intros [= <-]. now apply Excl_applyAck.
  - destruct (findTask t s) as [[? ? []]|]; try discriminate.
    intros [= <-]. now apply Excl_applyAck.
  - destruct (findTask t s) as [[? ? []]|]; try discriminate.
    intros [= <-]. now apply Excl_applyAck.
  - destruct (findTask t s) as [[? ? []]|]; try discriminate.
    intros [= <-]. now apply Excl_applyAck.
Qed.

Lemma reachable_Excl s : reachable s -> Excl s.
Proof.
  induction 1 as [env params s H | i s s' R IH H].
  - apply Excl_idle. unfold constructor in H.
    destruct (negb _); [discriminate|]. destruct (_ =? _)%string; [discriminate|].
    now injection H as <-.
  - eapply Excl_step; [apply reachable_PollerInv, R | exact IH | exact H].
Qed.

(** X6: a poll request and a poll timer never coexist.  In every reachable
    state, while a GET is outstanding (one at most) no timer is armed, no
    timer handle is held and the queue is below the ceiling; and while a
    timer is armed no GET is outstanding. *)
Theorem X6_request_excludes_timer (s : State) :
  reachable s ->
  (fetches s <> 0%nat ->
   fetches s = 1%nat /\ polling s = true /\ timers s = [] /\ pollTimer s = None
   /\ getQueueLength s < concurrency s)
  /\ (timers s <> [] -> fetches s = 0%nat /\ polling s = false).
Proof.
  intros R. pose proof (reachable_PollerInv s R) as [_ Hf].
  pose proof (reachable_Excl s R) as H. unfold fetchInv in Hf. split.
  - intros Hn. destruct (polling s) eqn:Hp; [|congruence].
    destruct (H Hp) as (A & B & C). repeat split; try assumption. lia.
  - intros Hn. destruct (polling s) eqn:Hp; [|now split].
    destruct (H Hp) as (A & _). congruence.
Qed.

Lemma X6_request_excludes_timer_witness :
  let s := after [Start; FetchOk [ev1]; HandlerResolve 0; PostOk 0] consumer1 in
  fetches s = 1%nat /\ polling s = true /\ timers s = [] /\ pollTimer s = None
  /\ getQueueLength s < concurrency s.
Proof.
  intros s.
  apply (proj1 (X6_request_excludes_timer s (reachable_after _ _ reachable_consumer1))).
  vm_compute. discriminate.
Defined.

(** ** The polling cycle *)

Lemma trace_issuePoll c s :
  trace (issuePoll c s)
  = trace s ++ [ARequest "GET" (pollUrl s c) (Some competingatom)].
Proof.
  unfold issuePoll, request.
  rewrite (pollUrl_cfg s _ c
             (proj1 (pollerFrame_cancelScheduledPoll (set_polling true s)))).
  unfold cancelScheduledPoll, clearTimeout. cbn.
  now destruct (pollTimer s).
Qed.

Lemma fetches_issuePoll c s : fetches (issuePoll c s) = S (fetches s).
Proof.
  unfold issuePoll, request, cancelScheduledPoll, clearTimeout. cbn.
  now destruct (pollTimer s).
Qed.

(** A poll timer [t], the only one armed, fires in a state with room and no
    request outstanding: one GET is issued for the free capacity. *)
Lemma timer_fires_and_polls t s :
  timers s = [t] -> polling s = false -> fetches s = 0%nat ->
  0 < concurrency s - getQueueLength s ->
  exists s', step (TimerFire t) s = Some s'
    /\ trace s'
       = trace s ++ [ARequest "GET" (pollUrl s (concurrency s - getQueueLength s))
                              (Some competingatom)]
    /\ fetches s' = 1%nat /\ timers s' = [] /\ polling s' = true.
Proof.
  intros Ht Hp Hf Hc. cbn [step]. rewrite Ht. cbn [mem existsb].
  rewrite Nat.eqb_refl. cbn [orb]. rewrite remove_single.
  set (s1 := set_timers [] s).
  destruct (poll_cases s1) as [[H _]|[(_ & H & _)|(_ & _ & E)]].
  - exfalso. change (concurrency s - getQueueLength s <= 0) in H. lia.
  - change (polling s = true) in H. congruence.
  - exists (poll s1). split; [reflexivity|]. rewrite E.
    rewrite trace_issuePoll, fetches_issuePoll, polling_issuePoll.
    repeat split; try (subst s1; cbn; now rewrite ?Hf).
    apply timers_issuePoll. now left.
Qed.

(** The state in which a completion callback of the GET runs. *)
Lemma fetch_outstanding s :
  reachable s -> fetches s <> 0%nat ->
  fetches s = 1%nat /\ polling s = true /\ timers s = [] /\ pollTimer s = None
  /\ 0 < concurrency s - getQueueLength s.
Proof.
  intros R Hn. pose proof (reachable_PollerInv s R) as [_ Hf].
  pose proof (reachable_Excl s R) as H. unfold fetchInv in Hf.
  destruct (polling s) eqn:Hp; [|congruence].
  destruct (H Hp) as (A & B & C). repeat split; assumption.
Qed.

(** X7: a failed poll is retried.  When the GET of a running consumer is
    rejected, the error hook is called with the error and a timer of
    [pollDelay] is armed, the only one; when it fires next, a GET is issued
    to the subscription that asks for the capacity free at that time, the
    ceiling less the tasks in the queue (the GET that failed may have asked
    for less, when tasks have settled since it was issued). *)
Theorem X7_failed_fetch_is_retried (s s' : State) (e : Err) :
  reachable s -> running s = true ->
  step (FetchFail e) s = Some s' ->
  trace s' = trace s ++ [AOnError e; ASetTimeout (pollDelay s)]
  /\ fetches s' = 0%nat
  /\ exists t, timers s' = [t]
     /\ exists s'', step (TimerFire t) s' = Some s''
        /\ trace s''
           = trace s' ++ [ARequest "GET" (pollUrl s (concurrency s - getQueueLength s))
                                   (Some competingatom)]
        /\ fetches s'' = 1%nat /\ timers s'' = [].
Proof.
  intros R Hr. cbn [step]. destruct (fetches s) as [|n] eqn:Ef; [discriminate|].
  destruct (fetch_outstanding s R) as (E1 & Hp & Ht & Hh & Hc); [congruence|].
  assert (n = 0)%nat by congruence. subst n. intros [= <-].
  unfold onFetchRejected.
  set (s1 := emit (AOnError e) (set_polling false (set_fetches 0 s))).
  assert (R1 : running s1 = true) by exact Hr. rewrite R1.
  assert (P1 : pollTimer s1 = None) by exact Hh.
  destruct (schedulePoll_arms s1 P1) as (A & B & C).
  assert (T : timers (schedulePoll s1) = [nextTimer s1]).
  { rewrite A. subst s1. cbn. now rewrite Ht. }
  split.
  { rewrite C. subst s1. cbn. now rewrite <- app_assoc. }
  split.
  { unfold schedulePoll. rewrite P1. reflexivity. }
  exists (nextTimer s1). split; [exact T|].
  destruct (timer_fires_and_polls (nextTimer s1) (schedulePoll s1) T)
    as (s'' & S1 & S2 & S3 & S4 & _).
  - now rewrite polling_schedulePoll.
  - unfold schedulePoll. rewrite P1. reflexivity.
  - rewrite (capacity_pollerFrame s1 _ (pollerFrame_schedulePoll s1)). exact Hc.
  - exists s''. split; [exact S1|]. split; [|split; assumption].
    rewrite S2. do 2 f_equal.
    rewrite (capacity_pollerFrame s1 _ (pollerFrame_schedulePoll s1)).
    rewrite (pollUrl_cfg s1 _ _ (proj1 (pollerFrame_schedulePoll s1))).
    reflexivity.
Qed.

(** The GET that asked for 4 events fails after the task of [ev1] has
    settled: the retry asks for 5. *)
Lemma X7_failed_fetch_is_retried_witness :
  let get n := ARequest "GET"
                 ("http://localhost:2113/subscriptions/MyStream/my-service/"
                    ++ n ++ "?embed=Body")%string (Some competingatom) in
  let s := after [Start; FetchOk [ev1]; HandlerResolve 0; PostOk 0] consumer5 in
  let s' := after [FetchFail "ECONNREFUSED"] s in
  sel isGet s = [get "5"; get "4"]
  /\ trace s' = trace s ++ [AOnError "ECONNREFUSED"; ASetTimeout 500]
  /\ fetches s' = 0%nat
  /\ exists t, timers s' = [t]
     /\ exists s'', step (TimerFire t) s' = Some s''
        /\ trace s'' = trace s' ++ [get "5"]
        /\ fetches s'' = 1%nat /\ timers s'' = [].
Proof.
  intros get s s'. split; [vm_compute; reflexivity|].
  assert (R : reachable s) by apply reachable_after, reachable_consumer5.
  assert (Hr : running s = true) by (vm_compute; reflexivity).
  assert (Hs : step (FetchFail "ECONNREFUSED") s = Some s')
    by (vm_compute; reflexivity).
  destruct (X7_failed_fetch_is_retried s s' "ECONNREFUSED" R Hr Hs)
    as (A & B & t & C & s'' & D & E & F & G).
  split; [exact A|]. split; [exact B|].
  exists t. split; [exact C|]. exists s''. split; [exact D|].
  split; [|split; [exact F | exact G]].
  rewrite E. f_equal.
Defined.

(** X8: an empty batch is followed by a delayed poll.  When the GET of a
    running consumer resolves with no entries, a timer of [pollDelay] is
    armed, the only one, and 'poll' is emitted; when the timer fires, one GET
    is issued again for the free capacity. *)
Theorem X8_empty_batch_polls_again (s s' : State) :
  reachable s -> running s = true ->
  step (FetchOk []) s = Some s' ->
  trace s' = trace s ++ [ASetTimeout (pollDelay s); AEmit "poll"]
  /\ fetches s' = 0%nat
  /\ exists t, timers s' = [t]
     /\ exists s'', step (TimerFire t) s' = Some s''
        /\ trace s''
           = trace s' ++ [ARequest "GET" (pollUrl s (concurrency s - getQueueLength s))
                                   (Some competingatom)]
        /\ fetches s'' = 1%nat /\ timers s'' = [].
Proof.
  intros R Hr. cbn [step]. destruct (fetches s) as [|n] eqn:Ef; [discriminate|].
  destruct (fetch_outstanding s R) as (E1 & Hp & Ht & Hh & Hc); [congruence|].
  assert (n = 0)%nat by congruence. subst n. intros [= <-].
  unfold onFetchResolved.
  set (s1 := set_polling false (set_fetches 0 s)).
  assert (R1 : running s1 = true) by exact Hr. rewrite R1.
  cbn [negb List.length Nat.ltb Nat.leb].
  assert (P1 : pollTimer s1 = None) by exact Hh.
  destruct (schedulePoll_arms s1 P1) as (A & B & C).
  set (s2 := emit (AEmit "poll") (schedulePoll s1)).
  assert (T : timers s2 = [nextTimer s1]).
  { subst s2. cbn [timers emit]. rewrite A. subst s1. cbn. now rewrite Ht. }
  split.
  { subst s2. cbn [trace emit]. rewrite C. subst s1. cbn. now rewrite <- app_assoc. }
  split.
  { subst s2. unfold schedulePoll. rewrite P1. reflexivity. }
  exists (nextTimer s1). split; [exact T|].
  assert (F : pollerFrame s1 s2).
  { eapply pollerFrame_trans; [apply pollerFrame_schedulePoll | apply pollerFrame_emit]. }
  destruct (timer_fires_and_polls (nextTimer s1) s2 T)
    as (s'' & S1 & S2 & S3 & S4 & _).
  - subst s2. cbn [polling emit]. now rewrite polling_schedulePoll.
  - subst s2. unfold schedulePoll. rewrite P1. reflexivity.
  - rewrite (capacity_pollerFrame s1 s2 F). exact Hc.
  - exists s''. split; [exact S1|]. split; [|split; assumption].
    rewrite S2. do 2 f_equal.
    rewrite (capacity_pollerFrame s1 s2 F).
    rewrite (pollUrl_cfg s1 s2 _ (proj1 F)). reflexivity.
Qed.

Lemma X8_empty_batch_polls_again_witness :
  let s := after [Start] consumer5 in
  let s' := after [FetchOk []] s in
  trace s' = trace s ++ [ASetTimeout 500; AEmit "poll"]
  /\ fetches s' = 0%nat
  /\ exists t, timers s' = [t]
     /\ exists s'', step (TimerFire t) s' = Some s''
        /\ trace s''
           = trace s' ++ [ARequest "GET" (pollUrl s (concurrency s - getQueueLength s))
                                   (Some competingatom)]
        /\ fetches s'' = 1%nat /\ timers s'' = [].
Proof.
  intros s s'.
  apply (X8_empty_batch_polls_again s s').
  - apply reachable_after, reachable_consumer5.
  - vm_compute. reflexivity.
  - vm_compute. reflexivity.
Defined.

(** ** Refill *)

Lemma getQueueLength_startFrom_returns w s :
  neverThrows s ->
  getQueueLength (startFrom w s) = Z.of_nat (List.length w) + queue_pending s.
Proof.
  intros H. destruct w as [|[t ev] rest]; cbn [startFrom].
  - unfold getQueueLength, queue_size, queue_pending. simpl. lia.
  - destruct (queue_pending s <? concurrency s).
    + unfold handleEvent. rewrite H.
      unfold getQueueLength, queue_size, queue_pending.
      cbn [waiting active set_waiting set_active emit].
      rewrite length_app. cbn [List.length]. lia.
    + unfold getQueueLength, queue_size, queue_pending.
      cbn [waiting active set_waiting List.length]. lia.
Qed.

Lemma getQueueLength_queue_add ev s :
  neverThrows s -> getQueueLength (queue_add ev s) = getQueueLength s + 1.
Proof.
  intros H. unfold queue_add, tryToStartAnother.
  rewrite getQueueLength_startFrom_returns by exact H.
  unfold getQueueLength, queue_size, queue_pending.
  cbn [waiting active set_waiting set_nextTid]. rewrite length_app.
  cbn [List.length]. lia.
Qed.

Lemma neverThrows_queueFrame f s s' :
  queueFrame f s s' -> neverThrows s -> neverThrows s'.
Proof. intros (_ & E & _) H ev. now rewrite E. Qed.

Lemma getQueueLength_add_all entries :
  forall s, neverThrows s ->
    getQueueLength (fold_left (fun st ev => queue_add ev st) entries s)
    = getQueueLength s + Z.of_nat (List.length entries).
Proof.
  induction entries as [|ev rest IH]; intros s H; cbn [fold_left List.length].
  - lia.
  - rewrite IH.
    + rewrite getQueueLength_queue_add by exact H. lia.
    + eapply neverThrows_queueFrame; [|exact H].
      apply (queueFrame_queue_add noAction quiet_noAction).
Qed.

(** X9: refill sized to the capacity.  A running consumer whose handler
    never throws receives a batch that is not empty: every entry is queued,
    and at once, without a timer, one GET is issued for what is left of the
    ceiling; when nothing is left no GET is issued and a timer is armed
    instead. *)
Theorem X9_refill_after_a_batch (s s' : State) (entries : list Event) :
  reachable s -> neverThrows s -> running s = true -> entries <> [] ->
  step (FetchOk entries) s = Some s' ->
  let q := getQueueLength s + Z.of_nat (List.length entries) in
  getQueueLength s' = q
  /\ (q < concurrency s ->
      sel isGet s'
      = sel isGet s ++ [ARequest "GET" (pollUrl s (concurrency s - q))
                                 (Some competingatom)]
      /\ fetches s' = 1%nat /\ timers s' = [])
  /\ (concurrency s <= q ->
      sel isGet s' = sel isGet s /\ fetches s' = 0%nat
      /\ exists t, timers s' = [t]).
Proof.
  intros R Hn Hr He Hs q. revert Hs. cbn [step].
  destruct (fetches s) as [|n] eqn:Ef; [discriminate|].
  destruct (fetch_outstanding s R) as (E1 & Hp & Ht & Hh & Hc); [congruence|].
  assert (n = 0)%nat by congruence. subst n. intros [= <-].
  unfold onFetchResolved.
  set (s1 := set_polling false (set_fetches 0 s)).
  assert (R1 : running s1 = true) by exact Hr. rewrite R1. cbn [negb].
  destruct entries as [|e0 rest]; [congruence|].
  cbn [List.length Nat.ltb Nat.leb].
  set (entries := e0 :: rest) in *.
  set (s2 := fold_left (fun st ev => queue_add ev st) entries s1).
  assert (F : queueFrame isGet s1 s2) by apply queueFrame_add_all, quiet_isGet.
  destruct (queueFrame_poller _ _ _ F) as (_ & P2 & T2 & H2 & F2 & C2).
  destruct F as (Fc & _ & _ & _ & _ & _ & Fg).
  assert (Q2 : getQueueLength s2 = q) by (apply (getQueueLength_add_all entries s1), Hn).
  assert (Tinv : timerInv s2) by (left; rewrite T2; exact Ht).
  pose proof (capacity_pollerFrame s2 (poll s2) (pollerFrame_poll s2)) as Hcap.
  assert (Qp : getQueueLength (poll s2) = q).
  { destruct (pollerFrame_poll s2) as (_ & _ & Eq). unfold queueOf in Eq.
    injection Eq as Ew Ea. rewrite <- Q2.
    unfold getQueueLength, queue_size, queue_pending. now rewrite Ew, Ea. }
  split; [exact Qp|].
  destruct (poll_cases s2) as [[Hle E]|[(_ & Hpp & _)|(Hlt & _ & E)]].
  - split; [intros Hq; exfalso; rewrite Q2, C2 in Hle;
            change (concurrency s1) with (concurrency s) in Hle; lia|].
    intros _. cbn [emit timers fetches]. unfold sel. cbn [trace emit].
    rewrite filter_app. cbn [filter isGet]. rewrite app_nil_r.
    fold (sel isGet (poll s2)). rewrite E.
    rewrite sel_schedulePoll by reflexivity. rewrite Fg.
    split; [reflexivity|].
    assert (Hh2 : pollTimer s2 = None) by (rewrite H2; exact Hh).
    destruct (schedulePoll_arms s2 Hh2) as (A & _ & _).
    split.
    + unfold schedulePoll. rewrite Hh2. cbn. exact F2.
    + exists (nextTimer s2). rewrite A, T2.
      change (timers s1) with (timers s). now rewrite Ht.
  - rewrite P2 in Hpp. discriminate.
  - split; [|intros Hq; exfalso; rewrite Q2, C2 in Hlt;
             change (concurrency s1) with (concurrency s) in Hlt; lia].
    intros _. cbn [emit timers fetches]. unfold sel. cbn [trace emit].
    rewrite filter_app. cbn [filter isGet]. rewrite app_nil_r.
    fold (sel isGet (poll s2)). rewrite E.
    rewrite sel_issuePoll, fetches_issuePoll, Fg, F2, Q2, C2.
    rewrite (pollUrl_cfg s1 s2 _ Fc).
    split; [reflexivity|]. split; [reflexivity|].
    now apply timers_issuePoll.
Qed.

Lemma X9_refill_after_a_batch_witness :
  let s := after [Start] consumer5 in
  let s' := after [FetchOk [ev1; ev2]] s in
  sel isGet s'
  = sel isGet s ++ [ARequest "GET" (pollUrl s 3) (Some competingatom)]
  /\ fetches s' = 1%nat /\ timers s' = [].
Proof.
  intros s s'.
  assert (R : reachable s) by apply reachable_after, reachable_consumer5.
  assert (N : neverThrows s) by (intros ev; reflexivity).
  assert (E : [ev1; ev2] <> []) by discriminate.
  assert (S : step (FetchOk [ev1; ev2]) s = Some s') by (vm_compute; reflexivity).
  apply (proj1 (proj2 (X9_refill_after_a_batch s s' [ev1; ev2] R N eq_refl E S))).
  vm_compute. reflexivity.
Defined.

(** ** The 'drain' event *)








Lemma ackNackHelper_status ev type retries delayMs :
  snd (ackNackHelper ev type retries delayMs)
  = if (findLink type (links ev) =? "")%string then AckResolved
    else AckInFlight (mkAckReq (findLink type (links ev)) 0 retries delayMs).
Proof. unfold ackNackHelper. now destruct (_ =? "")%string. Qed.

Lemma handlerSettled_status ev o :
  snd (handlerSettled ev o)
  = snd (ackNackHelper ev (match o with None => "ack" | Some _ => "nack" end) 3 500).
Proof.
  destruct o; cbn [handlerSettled]; [|reflexivity].
  unfold nack. now destruct (ackNackHelper ev "nack" 3 500).
Qed.



(** ** [stop] leaves the accepted events alone *)

Lemma sameQueue_emit x a b : sameQueue a b -> sameQueue (emit x a) (emit x b).
Proof.
  intros (A & B & C & D & E). repeat split; try assumption.
  rewrite !sel_emit. now rewrite E.
Qed.

Lemma sameQueue_startFrom w :
  forall a b, sameQueue a b -> sameQueue (startFrom w a) (startFrom w b).
Proof.
  induction w as [|[t ev] rest IH]; intros a b H; cbn [startFrom].
  - destruct H as (A & B & C & D & E). repeat split; assumption.
  - pose proof H as (A & B & C & D & E).
    unfold queue_pending. rewrite D, B.
    destruct (Z.of_nat (List.length (active b)) <? concurrency b).
    + unfold handleEvent. rewrite A.
      pose proof (sameQueue_emit (AHandler ev) _ _
                    (sameQueue_emit (AOnEvent ev) _ _ H)) as H1.
      destruct (handler b ev).
      * destruct H1 as (A1 & B1 & C1 & D1 & E1).
        repeat split; try assumption. cbn [active set_waiting set_active].
        now rewrite D1.
      * apply IH. now apply sameQueue_emit.
    + repeat split; assumption.
Qed.

Lemma sameQueue_poll_left a b : sameQueue a b -> sameQueue (poll a) b.
Proof.
  intros (A & B & C & D & E).
  destruct (pollerFrame_poll a) as (Fc & Fh & Fq).
  unfold queueOf in Fq. injection Fq as Fw Fa.
  repeat split; try congruence.
  - rewrite (cfgOf_concurrency _ _ Fc). exact B.
  - rewrite sel_poll by reflexivity. exact E.
Qed.

Lemma sameQueue_sym a b : sameQueue a b -> sameQueue b a.
Proof. intros (A & B & C & D & E). repeat split; congruence. Qed.

Lemma sameQueue_poll_right a b : sameQueue a b -> sameQueue a (poll b).
Proof. intros H. apply sameQueue_sym, sameQueue_poll_left, sameQueue_sym, H. Qed.

Lemma sameQueue_length a b : sameQueue a b -> getQueueLength a = getQueueLength b.
Proof.
  intros (_ & _ & C & D & _). unfold getQueueLength, queue_size, queue_pending.
  now rewrite C, D.
Qed.

Lemma sameQueue_didHandleEvent a b :
  sameQueue a b -> sameQueue (didHandleEvent a) (didHandleEvent b).
Proof.
  intros H. unfold didHandleEvent. rewrite (sameQueue_length a b H).
  set (a1 := if getQueueLength b =? 0 then emit (AEmit "drain") a else a).
  set (b1 := if getQueueLength b =? 0 then emit (AEmit "drain") b else b).
  assert (H1 : sameQueue a1 b1).
  { subst a1 b1. destruct (getQueueLength b =? 0); [now apply sameQueue_emit | exact H]. }
  destruct (running a1), (running b1).
  - now apply sameQueue_poll_left, sameQueue_poll_right.
  - now apply sameQueue_poll_left.
  - now apply sameQueue_poll_right.
  - exact H1.
Qed.

Lemma sameQueue_set_active f a b :
  sameQueue a b -> sameQueue (set_active (f (active a)) a) (set_active (f (active b)) b).
Proof.
  intros (A & B & C & D & E). repeat split; try assumption.
  cbn [active set_active]. now rewrite D.
Qed.

Lemma sameQueue_taskSettled t res a b :
  sameQueue a b -> sameQueue (taskSettled t res a) (taskSettled t res b).
Proof.
  intros H. unfold taskSettled, tryToStartAnother.
  assert (H1 : sameQueue (removeTask t a) (removeTask t b))
    by apply (sameQueue_set_active (filter _)), H.
  assert (W : waiting (removeTask t a) = waiting (removeTask t b)) by apply H1.
  rewrite W.
  pose proof (sameQueue_startFrom (waiting (removeTask t b)) _ _ H1) as H2.
  destruct res; [now apply sameQueue_emit | now apply sameQueue_didHandleEvent].
Qed.

Lemma sameQueue_emit_all l :
  forall a b, sameQueue a b -> sameQueue (emit_all l a) (emit_all l b).
Proof.
  induction l as [|x l IH]; simpl; intros a b H; [exact H|].
  now apply IH, sameQueue_emit.
Qed.

Lemma sameQueue_applyAck t r a b :
  sameQueue a b -> sameQueue (applyAck t r a) (applyAck t r b).
Proof.
  intros H. unfold applyAck.
  pose proof (sameQueue_emit_all (fst r) a b H) as H1.
  destruct (snd r).
  - now apply sameQueue_taskSettled.
  - now apply sameQueue_taskSettled.
  - apply (sameQueue_set_active (map _)), H1.
  - apply (sameQueue_set_active (map _)), H1.
Qed.

Lemma sameQueue_step i a b a' :
  isTaskInput i = true -> sameQueue a b -> step i a = Some a' ->
  exists b', step i b = Some b' /\ sameQueue a' b'.
Proof.
  intros Hi H. pose proof H as (_ & _ & _ & D & _).
  destruct i; try discriminate; cbn [step]; unfold findTask; rewrite D;
    destruct (find _ (active b)) as [[? ev []]|]; try discriminate;
    intros [= <-]; eexists; (split; [reflexivity|]);
    now apply sameQueue_applyAck.
Qed.

Lemma sameQueue_steps l :
  forall a b a', forallb isTaskInput l = true -> sameQueue a b ->
    steps l a = Some a' ->
    exists b', steps l b = Some b' /\ sameQueue a' b'.
Proof.
  induction l as [|i l IH]; cbn [steps forallb]; intros a b a' Hl H E.
  - injection E as <-. now exists b.
  - apply andb_prop in Hl as [Hi Hl].
    destruct (step i a) as [a1|] eqn:E1; [|discriminate].
    destruct (sameQueue_step i a b a1 Hi H E1) as (b1 & S1 & H1).
    rewrite S1. now apply (IH a1 b1).
Qed.

Lemma sameQueue_stop s : sameQueue s (fst (stop s)).
Proof.
  unfold stop, cancelScheduledPoll, clearTimeout. cbn [pollTimer set_running].
  destruct (getQueueLength _ =? 0); destruct (pollTimer s); repeat split.
Qed.

(** X11: [stop()] leaves the accepted events alone.  It changes neither
    the queue nor the trace; with events in the queue its promise waits for
    'drain'; and whatever then happens to the tasks (handler outcomes,
    answers to the POSTs, retry timers) has the same effect on the queue and
    shows the same hooks, handler calls, POSTs and 'drain' events as it
    would have had without the call. *)
Theorem X11_stop_leaves_tasks_alone (s s1 : State) (l : list Input) :
  forallb isTaskInput l = true ->
  steps l s = Some s1 ->
  waiting (fst (stop s)) = waiting s /\ active (fst (stop s)) = active s
  /\ trace (fst (stop s)) = trace s
  /\ (getQueueLength s <> 0 ->
      snd (stop s) = WaitsForDrain
      /\ drainListeners (fst (stop s)) = S (drainListeners s))
  /\ exists s2, steps l (fst (stop s)) = Some s2
       /\ waiting s2 = waiting s1 /\ active s2 = active s1
       /\ sel isDispatch s2 = sel isDispatch s1.
Proof.
  intros Hl E.
  assert (Q : getQueueLength (cancelScheduledPoll (set_running false s))
              = getQueueLength s).
  { unfold cancelScheduledPoll, clearTimeout, getQueueLength. cbn.
    now destruct (pollTimer s). }
  split; [|split; [|split; [|split]]].
  - unfold stop, cancelScheduledPoll, clearTimeout. cbn [pollTimer set_running].
    destruct (getQueueLength _ =? 0); now destruct (pollTimer s).
  - unfold stop, cancelScheduledPoll, clearTimeout. cbn [pollTimer set_running].
    destruct (getQueueLength _ =? 0); now destruct (pollTimer s).
  - unfold stop, cancelScheduledPoll, clearTimeout. cbn [pollTimer set_running].
    destruct (getQueueLength _ =? 0); now destruct (pollTimer s).
  - intros Hn. unfold stop. rewrite Q.
    destruct (Z.eqb_spec (getQueueLength s) 0); [contradiction|].
    split; [reflexivity|]. unfold cancelScheduledPoll, clearTimeout. cbn.
    now destruct (pollTimer s).
  - destruct (sameQueue_steps l s (fst (stop s)) s1 Hl (sameQueue_stop s) E)
      as (s2 & S2 & (_ & _ & C & D & F)).
    exists s2. repeat split; congruence.
Qed.

Lemma X11_stop_leaves_tasks_alone_witness :
  let s := after [Start; FetchOk [ev1; ev2]] consumer5 in
  let l := [HandlerResolve 0; HandlerReject 1 "Test error";
            PostFail 1 "ECONNREFUSED"; PostOk 0; RetryFire 1; PostOk 1] in
  snd (stop s) = WaitsForDrain
  /\ exists s2, steps l (fst (stop s)) = Some s2
       /\ waiting s2 = waiting (after l s) /\ active s2 = active (after l s)
       /\ sel isDispatch s2 = sel isDispatch (after l s).
Proof.
  intros s l.
  assert (Hl : forallb isTaskInput l = true) by reflexivity.
  assert (E : steps l s = Some (after l s)) by (vm_compute; reflexivity).
  pose proof (X11_stop_leaves_tasks_alone s (after l s) l Hl E)
    as (_ & _ & _ & H4 & H5).
  split; [|exact H5]. apply H4. vm_compute. discriminate.
Defined.

(** ** Every submitted event is handled once *)

Lemma keeps_refl f s : keeps f s s.
Proof. repeat split. Qed.

Lemma keeps_trans f s1 s2 s3 : keeps f s1 s2 -> keeps f s2 s3 -> keeps f s1 s3.
Proof. intros (A & B & C) (A' & B' & C'). repeat split; congruence. Qed.

Lemma keeps_emit f a s : f a = false -> keeps f s (emit a s).
Proof. intros H. repeat split. now apply sel_emit_false. Qed.

Lemma keeps_emit_all f l :
  forallb (fun a => negb (f a)) l = true -> forall s, keeps f s (emit_all l s).
Proof.
  induction l as [|a l IH]; simpl; intros H s; [apply keeps_refl|].
  apply andb_prop in H as [Ha Hl].
  eapply keeps_trans; [apply keeps_emit | apply IH, Hl]. now destruct (f a).
Qed.

Lemma keeps_schedulePoll f s : pollBlind f -> keeps f s (schedulePoll s).
Proof.
  intros (H & _). split; [|split].
  - unfold schedulePoll. now destruct (pollTimer s).
  - unfold schedulePoll. now destruct (pollTimer s).
  - now apply sel_schedulePoll.
Qed.

Lemma keeps_poll f s : pollBlind f -> keeps f s (poll s).
Proof.
  intros (H1 & H2 & H3). split; [|split].
  - destruct (poll_cases s) as [[_ ->]|[(_ & _ & ->)|(_ & _ & ->)]].
    + unfold schedulePoll. now destruct (pollTimer s).
    + reflexivity.
    + unfold issuePoll, request, cancelScheduledPoll, clearTimeout. cbn.
      now destruct (pollTimer s).
  - destruct (pollerFrame_poll s) as (_ & _ & E). unfold queueOf in E. congruence.
  - now apply sel_poll.
Qed.

Lemma keeps_didHandleEvent f s : pollBlind f -> keeps f s (didHandleEvent s).
Proof.
  intros H. unfold didHandleEvent.
  set (s1 := if getQueueLength s =? 0 then emit (AEmit "drain") s else s).
  assert (K : keeps f s s1).
  { subst s1. destruct (getQueueLength s =? 0); [|apply keeps_refl].
    apply keeps_emit, H. }
  destruct (running s1); [|exact K].
  eapply keeps_trans; [exact K | now apply keeps_poll].
Qed.

Lemma keeps_removeTask f t s : keeps f s (removeTask t s).
Proof. repeat split. Qed.

Lemma keeps_setPhase f t p s : keeps f s (setPhase t p s).
Proof. repeat split. Qed.

(** What starting tasks from the list [w] does to the counts: every task
    taken from [w] has its hook fired and its handler called, once. *)
Lemma startFrom_counts w :
  forall s,
    nextTid (startFrom w s) = nextTid s
    /\ (count isHandlerCall (startFrom w s) + List.length (waiting (startFrom w s))
        = count isHandlerCall s + List.length w)%nat
    /\ (count isOnEvent (startFrom w s) + count isHandlerCall s
        = count isOnEvent s + count isHandlerCall (startFrom w s))%nat.
Proof.
  induction w as [|[t ev] rest IH]; intros s; cbn [startFrom].
  - split; [reflexivity|]. unfold count, sel. cbn. lia.
  - destruct (queue_pending s <? concurrency s).
    + unfold handleEvent.
      set (s1 := emit (AHandler ev) (emit (AOnEvent ev) s)).
      assert (C1 : count isHandlerCall s1 = S (count isHandlerCall s)
                   /\ count isOnEvent s1 = S (count isOnEvent s)).
      { subst s1. unfold count. rewrite !sel_emit. cbn.
        rewrite !app_nil_r, !length_app. cbn. lia. }
      destruct C1 as [C1 C2].
      destruct (handler s ev).
      * split; [reflexivity|]. unfold count, sel in *.
        cbn [trace waiting set_waiting set_active List.length]. lia.
      * destruct (IH (emit (AConsoleLog e) s1)) as (A & B & C).
        assert (D : count isHandlerCall (emit (AConsoleLog e) s1)
                    = count isHandlerCall s1
                    /\ count isOnEvent (emit (AConsoleLog e) s1) = count isOnEvent s1).
        { unfold count. now rewrite !sel_emit_false. }
        destruct D as [D1 D2]. rewrite D1, D2 in *.
        split; [exact A|]. cbn [List.length]. lia.
    + split; [reflexivity|]. unfold count, sel; cbn; lia.
Qed.

Lemma HandledOnce_keeps s s' :
  keeps isHandlerCall s s' -> keeps isOnEvent s s' ->
  HandledOnce s -> HandledOnce s'.
Proof.
  intros (A & B & C) (_ & _ & C') [H1 H2]. unfold HandledOnce, count.
  rewrite A, B, C, C'. now split.
Qed.

Lemma HandledOnce_tryToStartAnother s :
  HandledOnce s -> HandledOnce (tryToStartAnother s).
Proof.
  intros [H1 H2]. unfold tryToStartAnother.
  destruct (startFrom_counts (waiting s) s) as (A & B & C).
  split; [rewrite A|]; lia.
Qed.

Lemma HandledOnce_queue_add ev s : HandledOnce s -> HandledOnce (queue_add ev s).
Proof.
  intros [H1 H2]. unfold queue_add, tryToStartAnother.
  set (s1 := set_nextTid (S (nextTid s)) (set_waiting (waiting s ++ [(nextTid s, ev)]) s)).
  destruct (startFrom_counts (waiting s1) s1) as (A & B & C).
  assert (W : List.length (waiting s1) = S (List.length (waiting s)))
    by (subst s1; cbn; rewrite length_app; cbn; lia).
  assert (N : nextTid s1 = S (nextTid s)) by reflexivity.
  assert (K1 : count isHandlerCall s1 = count isHandlerCall s) by reflexivity.
  assert (K2 : count isOnEvent s1 = count isOnEvent s) by reflexivity.
  split; [rewrite A|]; lia.
Qed.

Lemma HandledOnce_add_all entries :
  forall s, HandledOnce s ->
    HandledOnce (fold_left (fun st ev => queue_add ev st) entries s).
Proof.
  induction entries as [|ev rest IH]; intros s H; cbn [fold_left]; [exact H|].
  now apply IH, HandledOnce_queue_add.
Qed.

Lemma pollBlind_isHandlerCall : pollBlind isHandlerCall.
Proof. repeat split. Qed.

Lemma pollBlind_isOnEvent : pollBlind isOnEvent.
Proof. repeat split. Qed.

Lemma HandledOnce_poll s : HandledOnce s -> HandledOnce (poll s).
Proof.
  apply HandledOnce_keeps; apply keeps_poll;
    [apply pollBlind_isHandlerCall | apply pollBlind_isOnEvent].
Qed.

Lemma HandledOnce_emit a s :
  isHandlerCall a = false -> isOnEvent a = false ->
  HandledOnce s -> HandledOnce (emit a s).
Proof. intros H1 H2. apply HandledOnce_keeps; now apply keeps_emit. Qed.

Lemma HandledOnce_taskSettled t res s :
  HandledOnce s -> HandledOnce (taskSettled t res s).
Proof.
  intros H. unfold taskSettled.
  assert (H1 : HandledOnce (tryToStartAnother (removeTask t s))).
  { apply HandledOnce_tryToStartAnother.
    eapply HandledOnce_keeps; [apply keeps_removeTask | apply keeps_removeTask | exact H]. }
  destruct res; [now apply HandledOnce_emit|].
  eapply HandledOnce_keeps; [| | exact H1]; apply keeps_didHandleEvent;
    [apply pollBlind_isHandlerCall | apply pollBlind_isOnEvent].
Qed.

Lemma noDispatch_split l :
  noDispatch l = true ->
  forallb (fun a => negb (isHandlerCall a)) l = true
  /\ forallb (fun a => negb (isOnEvent a)) l = true.
Proof.
  induction l as [|a l IH]; simpl; intros H; [now split|].
  apply andb_prop in H as [Ha Hl]. apply andb_prop in Ha as [A1 A2].
  destruct (IH Hl) as [B1 B2]. now rewrite A1, A2, B1, B2.
Qed.

Lemma noDispatch_ackNackHelper ev type retries delayMs :
  noDispatch (fst (ackNackHelper ev type retries delayMs)) = true.
Proof.
  unfold ackNackHelper. destruct (_ =? "")%string; simpl;
    destruct (type =? "ack")%string; reflexivity.
Qed.

Lemma noDispatch_handlerSettled ev o : noDispatch (fst (handlerSettled ev o)) = true.
Proof.
  destruct o as [e|]; simpl.
  - pose proof (noDispatch_ackNackHelper ev "nack" 3 500) as H. unfold nack.
    destruct (ackNackHelper ev "nack" 3 500). exact H.
  - apply noDispatch_ackNackHelper.
Qed.

Lemma noDispatch_onRequestRejected e r :
  noDispatch (fst (onRequestRejected e r)) = true.
Proof. unfold onRequestRejected. now destruct (_ =? _). Qed.

Lemma HandledOnce_applyAck t r s :
  noDispatch (fst r) = true -> HandledOnce s -> HandledOnce (applyAck t r s).
Proof.
  intros Hr H. destruct (noDispatch_split _ Hr) as [R1 R2]. unfold applyAck.
  assert (H1 : HandledOnce (emit_all (fst r) s))
    by (eapply HandledOnce_keeps; [| | exact H]; now apply keeps_emit_all).
  destruct (snd r).
  - now apply HandledOnce_taskSettled.
  - now apply HandledOnce_taskSettled.
  - eapply HandledOnce_keeps; [| | exact H1]; apply keeps_setPhase.
  - eapply HandledOnce_keeps; [| | exact H1]; apply keeps_setPhase.
Qed.

Lemma HandledOnce_step i s s' :
  HandledOnce s -> step i s = Some s' -> HandledOnce s'.
Proof.
  intros H. destruct i; cbn [step].
  - intros [= <-]. apply (HandledOnce_poll (set_running true s)). exact H.
  - intros [= <-]. unfold stop, cancelScheduledPoll, clearTimeout.
    cbn [pollTimer set_running].
    destruct (getQueueLength _ =? 0); destruct (pollTimer s); exact H.
  - destruct (fetches s); [discriminate|]. intros [= <-]. unfold onFetchResolved.
    set (s1 := set_polling false (set_fetches n s)).
    assert (H1 : HandledOnce s1) by exact H.
    destruct (negb _); [exact H1|]. destruct (_ <? _)%nat.
    + apply HandledOnce_emit; [reflexivity | reflexivity|].
      apply HandledOnce_poll, HandledOnce_add_all. exact H1.
    + apply HandledOnce_emit; [reflexivity | reflexivity|].
      eapply HandledOnce_keeps; [| | exact H1]; apply keeps_schedulePoll;
        [apply pollBlind_isHandlerCall | apply pollBlind_isOnEvent].
  - destruct (fetches s); [discriminate|]. intros [= <-]. unfold onFetchRejected.
    set (s1 := emit (AOnError e) (set_polling false (set_fetches n s))).
    assert (H1 : HandledOnce s1)
      by (apply HandledOnce_emit; [reflexivity | reflexivity | exact H]).
    destruct (running s1); [|exact H1].
    eapply HandledOnce_keeps; [| | exact H1]; apply keeps_schedulePoll;
      [apply pollBlind_isHandlerCall | apply pollBlind_isOnEvent].
  - destruct (mem t (timers s)); [|discriminate]. intros [= <-].
    apply (HandledOnce_poll (set_timers _ s)). exact H.
  - destruct (findTask t s) as [[? ev []]|]; try discriminate.
    intros [= <-].
    apply HandledOnce_applyAck; [exact (noDispatch_handlerSettled ev None) | exact H].
  - destruct (findTask t s) as [[? ev []]|]; try discriminate.
    intros [= <-].
    apply HandledOnce_applyAck; [exact (noDispatch_handlerSettled ev (Some e)) | exact H].
  - destruct (findTask t s) as [[? ev []]|]; try discriminate.
    intros [= <-]. apply HandledOnce_applyAck; [reflexivity | exact H].
  - destruct (findTask t s) as [[? ev []]|]; try discriminate.
    intros [= <-].
    apply HandledOnce_applyAck; [apply noDispatch_onRequestRejected | exact H].
  - destruct (findTask t s) as [[? ev []]|]; try discriminate.
    intros [= <-]. apply HandledOnce_applyAck; [reflexivity | exact H].
Qed.

Lemma pollBlind_noAction : pollBlind noAction.
Proof. repeat split. Qed.

Lemma nextTid_add_all entries :
  forall s, nextTid (fold_left (fun st ev => queue_add ev st) entries s)
            = (nextTid s + List.length entries)%nat.
Proof.
  induction entries as [|ev rest IH]; intros s; cbn [fold_left List.length].
  - lia.
  - rewrite IH. unfold queue_add, tryToStartAnother.
    destruct (startFrom_counts
                (waiting (set_nextTid (S (nextTid s))
                            (set_waiting (waiting s ++ [(nextTid s, ev)]) s)))
                (set_nextTid (S (nextTid s))
                   (set_waiting (waiting s ++ [(nextTid s, ev)]) s))) as (A & _).
    rewrite A. cbn. lia.
Qed.

Lemma nextTid_applyAck t r s : nextTid (applyAck t r s) = nextTid s.
Proof.
  unfold applyAck.
  assert (E : nextTid (emit_all (fst r) s) = nextTid s)
    by apply (keeps_emit_all noAction), noAction_all.
  assert (T : forall res x, nextTid (taskSettled t res x) = nextTid x).
  { intros res x. unfold taskSettled, tryToStartAnother.
    destruct (startFrom_counts (waiting (removeTask t x)) (removeTask t x)) as (A & _).
    destruct res; [exact A|].
    destruct (keeps_didHandleEvent noAction
                (startFrom (waiting (removeTask t x)) (removeTask t x))
                pollBlind_noAction) as (B & _).
    now rewrite B. }
  destruct (snd r); rewrite ?T; exact E.
Qed.

Lemma nextTid_step i s s' :
  step i s = Some s' -> nextTid s' = (nextTid s + submitted i s)%nat.
Proof.
  destruct i; cbn [step submitted]; rewrite ?Nat.add_0_r.
  - intros [= <-]. apply (keeps_poll noAction (set_running true s)), pollBlind_noAction.
  - intros [= <-]. unfold stop, cancelScheduledPoll, clearTimeout.
    cbn [pollTimer set_running].
    destruct (getQueueLength _ =? 0); now destruct (pollTimer s).
  - destruct (fetches s); [discriminate|]. intros [= <-]. unfold onFetchResolved.
    set (s1 := set_polling false (set_fetches n s)).
    change (running s1) with (running s).
    destruct (running s); cbn [negb]; [|cbn; lia].
    destruct entries as [|e0 rest]; cbn [List.length Nat.ltb Nat.leb emit nextTid].
    + rewrite Nat.add_0_r.
      apply (keeps_schedulePoll noAction s1), pollBlind_noAction.
    + destruct (keeps_poll noAction
                  (fold_left (fun st ev => queue_add ev st) (e0 :: rest) s1)
                  pollBlind_noAction) as (A & _).
      rewrite A, nextTid_add_all. reflexivity.
  - destruct (fetches s); [discriminate|]. intros [= <-]. unfold onFetchRejected.
    destruct (running _); [|reflexivity].
    apply (keeps_schedulePoll noAction
             (emit (AOnError e) (set_polling false (set_fetches n s)))),
          pollBlind_noAction.
  - destruct (mem t (timers s)); [|discriminate]. intros [= <-].
    apply (keeps_poll noAction (set_timers _ s)), pollBlind_noAction.
  - destruct (findTask t s) as [[? ev []]|]; try discriminate.
    intros [= <-]. apply nextTid_applyAck.
  - destruct (findTask t s) as [[? ev []]|]; try discriminate.
    intros [= <-]. apply nextTid_applyAck.
  - destruct (findTask t s) as [[? ev []]|]; try discriminate.
    intros [= <-]. apply nextTid_applyAck.
  - destruct (findTask t s) as [[? ev []]|]; try discriminate.
    intros [= <-]. apply nextTid_applyAck.
  - destruct (findTask t s) as [[? ev []]|]; try discriminate.
    intros [= <-]. apply nextTid_applyAck.
Qed.

(** X12: every event submitted to the queue is handled once.  In every
    reachable state the number of handler calls made so far, plus the
    number of events still waiting for a slot, is the number of events
    submitted ([nextTid], which starts at 0 and grows by the size of every
    batch that arrives while the consumer is running); and [onEvent] was
    called exactly as often as the handler. *)
Theorem X12_submitted_events_handled_once (s : State) :
  reachable s ->
  (count isHandlerCall s + List.length (waiting s) = nextTid s)%nat
  /\ count isOnEvent s = count isHandlerCall s
  /\ (forall i s', step i s = Some s' ->
                   nextTid s' = (nextTid s + submitted i s)%nat).
Proof.
  intros R.
  assert (H : HandledOnce s).
  { induction R as [env params s H | i s s' _ IH H].
    - unfold constructor in H. destruct (negb _); [discriminate|].
      destruct (_ =? _)%string; [discriminate|]. injection H as <-.
      split; reflexivity.
    - eapply HandledOnce_step; eassumption. }
  destruct H as [H1 H2]. split; [exact H1|]. split; [exact H2|].
  intros i s'. apply nextTid_step.
Qed.

Lemma X12_submitted_events_handled_once_witness :
  let s := after [Start; FetchOk [ev1; ev2; ev1; ev2; ev1; ev2; ev1]] consumer5 in
  nextTid s = 7%nat /\ List.length (waiting s) = 2%nat
  /\ (count isHandlerCall s + List.length (waiting s) = nextTid s)%nat
  /\ count isOnEvent s = count isHandlerCall s.
Proof.
  intros s. split; [vm_compute; reflexivity|]. split; [vm_compute; reflexivity|].
  destruct (X12_submitted_events_handled_once s
              (reachable_after _ _ reachable_consumer5)) as (A & B & _).
  now split.
Defined.

(** ** Task numbers are unique *)

Lemma startFrom_ids w :
  forall s,
    NoDup (map fst w ++ map tid (active s)) ->
    Forall (fun n => (n < nextTid s)%nat) (map fst w ++ map tid (active s)) ->
    UniqueIds (startFrom w s).
Proof.
  induction w as [|[t ev] rest IH]; intros s Hn Hf; cbn [startFrom].
  - split; assumption.
  - destruct (queue_pending s <? concurrency s); [|split; assumption].
    unfold handleEvent. destruct (handler s ev).
    + assert (P : Permutation (map fst ((t, ev) :: rest) ++ map tid (active s))
                              (map fst rest ++ map tid (active s ++ [mkTask t ev Handling]))).
      { cbn [map fst]. rewrite map_app. cbn [map tid]. rewrite app_assoc.
        apply Permutation_cons_append. }
      split; unfold ids; cbn [waiting active nextTid set_waiting set_active emit].
      * eapply Permutation_NoDup; eassumption.
      * eapply Permutation_Forall; eassumption.
    + apply IH; cbn [active nextTid emit].
      * cbn [map fst app] in Hn. now inversion Hn.
      * cbn [map fst app] in Hf. now inversion Hf.
Qed.

Lemma UniqueIds_tryToStartAnother s : UniqueIds s -> UniqueIds (tryToStartAnother s).
Proof. intros [A B]. now apply startFrom_ids. Qed.

Lemma UniqueIds_queue_add ev s : UniqueIds s -> UniqueIds (queue_add ev s).
Proof.
  intros [A B]. unfold queue_add, tryToStartAnother.
  apply startFrom_ids; cbn [waiting active nextTid set_waiting set_nextTid].
  - rewrite map_app. cbn [map fst]. rewrite <- app_assoc.
    apply NoDup_app_remove_l with (l := []). cbn [app].
    assert (P : Permutation (nextTid s :: ids s)
                            (map fst (waiting s) ++ [nextTid s] ++ map tid (active s))).
    { unfold ids. apply Permutation_middle. }
    eapply Permutation_NoDup; [exact P|]. constructor; [|exact A].
    intros Hin. rewrite Forall_forall in B. specialize (B _ Hin). lia.
  - rewrite map_app. cbn [map fst]. rewrite <- app_assoc.
    assert (P : Permutation (nextTid s :: ids s)
                            (map fst (waiting s) ++ [nextTid s] ++ map tid (active s))).
    { unfold ids. apply Permutation_middle. }
    eapply Permutation_Forall; [exact P|]. constructor; [lia|].
    eapply Forall_impl; [|exact B]. intros n Hn. cbn beta in *. lia.
Qed.

Lemma UniqueIds_add_all entries :
  forall s, UniqueIds s ->
    UniqueIds (fold_left (fun st ev => queue_add ev st) entries s).
Proof.
  induction entries as [|ev rest IH]; intros s H; cbn [fold_left]; [exact H|].
  now apply IH, UniqueIds_queue_add.
Qed.

Lemma NoDup_map_filter {A : Type} (g : A -> nat) (p : A -> bool) pre l :
  NoDup (pre ++ map g l) -> NoDup (pre ++ map g (filter p l)).
Proof.
  induction l as [|x l IH]; cbn [filter map]; intros H; [exact H|].
  assert (H' : NoDup (pre ++ map g l)) by (eapply NoDup_remove_1; exact H).
  destruct (p x); [|now apply IH].
  apply NoDup_remove_2 in H.
  assert (P : Permutation (g x :: pre ++ map g (filter p l))
                          (pre ++ g x :: map g (filter p l)))
    by apply Permutation_middle.
  eapply Permutation_NoDup; [exact P|]. constructor; [|now apply IH].
  intros Hin. apply H. apply in_app_or in Hin. apply in_or_app.
  destruct Hin as [Hin|Hin]; [now left | right].
  apply in_map_iff in Hin as (y & Ey & Hy). apply filter_In in Hy as [Hy _].
  apply in_map_iff. now exists y.
Qed.

Lemma Forall_map_filter {A : Type} (g : A -> nat) (p : A -> bool) (P : nat -> Prop)
  pre l :
  Forall P (pre ++ map g l) -> Forall P (pre ++ map g (filter p l)).
Proof.
  rewrite !Forall_app. intros [H1 H2]. split; [exact H1|].
  rewrite Forall_forall in *. intros n Hn.
  apply in_map_iff in Hn as (y & Ey & Hy). apply filter_In in Hy as [Hy _].
  apply H2. apply in_map_iff. now exists y.
Qed.

Lemma UniqueIds_removeTask t s : UniqueIds s -> UniqueIds (removeTask t s).
Proof.
  intros [A B]. split; unfold ids; cbn [waiting active nextTid removeTask set_active].
  - now apply NoDup_map_filter.
  - now apply Forall_map_filter.
Qed.

Lemma ids_setPhase t p s : ids (setPhase t p s) = ids s.
Proof.
  unfold ids. cbn [waiting active setPhase set_active]. f_equal.
  rewrite map_map. apply map_ext. intros k. now destruct (tid k =? t)%nat.
Qed.

Lemma UniqueIds_setPhase t p s : UniqueIds s -> UniqueIds (setPhase t p s).
Proof. intros [A B]. split; rewrite ids_setPhase; assumption. Qed.

Lemma UniqueIds_keeps s s' :
  nextTid s' = nextTid s -> waiting s' = waiting s -> active s' = active s ->
  UniqueIds s -> UniqueIds s'.
Proof. unfold UniqueIds, ids. intros -> -> ->. tauto. Qed.

Lemma active_poll s : active (poll s) = active s.
Proof. destruct (pollerFrame_poll s) as (_ & _ & E). unfold queueOf in E. congruence. Qed.

Lemma active_didHandleEvent s : active (didHandleEvent s) = active s.
Proof.
  destruct (pollerFrame_didHandleEvent s) as (_ & _ & E). unfold queueOf in E.
  congruence.
Qed.

Lemma active_emit_all l : forall s, active (emit_all l s) = active s.
Proof. induction l as [|a l IH]; simpl; intros s; [reflexivity | now rewrite IH]. Qed.

Lemma UniqueIds_poll s : UniqueIds s -> UniqueIds (poll s).
Proof.
  destruct (keeps_poll noAction s pollBlind_noAction) as (A & B & _).
  apply UniqueIds_keeps; [exact A | exact B | apply active_poll].
Qed.

Lemma UniqueIds_didHandleEvent s : UniqueIds s -> UniqueIds (didHandleEvent s).
Proof.
  destruct (keeps_didHandleEvent noAction s pollBlind_noAction) as (A & B & _).
  apply UniqueIds_keeps; [exact A | exact B | apply active_didHandleEvent].
Qed.

Lemma UniqueIds_emit_all l s : UniqueIds s -> UniqueIds (emit_all l s).
Proof.
  destruct (keeps_emit_all noAction l (noAction_all l) s) as (A & B & _).
  apply UniqueIds_keeps; [exact A | exact B | apply active_emit_all].
Qed.

Lemma UniqueIds_taskSettled t res s : UniqueIds s -> UniqueIds (taskSettled t res s).
Proof.
  intros H. unfold taskSettled.
  pose proof (UniqueIds_tryToStartAnother _ (UniqueIds_removeTask t s H)) as H1.
  destruct res; [exact H1 | now apply UniqueIds_didHandleEvent].
Qed.

Lemma UniqueIds_applyAck t r s : UniqueIds s -> UniqueIds (applyAck t r s).
Proof.
  intros H. unfold applyAck.
  pose proof (UniqueIds_emit_all (fst r) s H) as H1.
  destruct (snd r).
  - now apply UniqueIds_taskSettled.
  - now apply UniqueIds_taskSettled.
  - now apply UniqueIds_setPhase.
  - now apply UniqueIds_setPhase.
Qed.

Lemma UniqueIds_step i s s' : UniqueIds s -> step i s = Some s' -> UniqueIds s'.
Proof.
  intros H. destruct i; cbn [step].
  - intros [= <-]. apply (UniqueIds_poll (set_running true s)). exact H.
  - intros [= <-]. unfold stop, cancelScheduledPoll, clearTimeout.
    cbn [pollTimer set_running].
    destruct (getQueueLength _ =? 0); destruct (pollTimer s); exact H.
  - destruct (fetches s); [discriminate|]. intros [= <-]. unfold onFetchResolved.
    set (s1 := set_polling false (set_fetches n s)).
    assert (H1 : UniqueIds s1) by exact H.
    destruct (negb _); [exact H1|]. destruct (_ <? _)%nat.
    + apply (UniqueIds_poll _ (UniqueIds_add_all entries s1 H1)).
    + unfold schedulePoll. destruct (pollTimer s1); exact H1.
  - destruct (fetches s); [discriminate|]. intros [= <-]. unfold onFetchRejected.
    set (s1 := emit (AOnError e) (set_polling false (set_fetches n s))).
    assert (H1 : UniqueIds s1) by exact H.
    destruct (running s1); [|exact H1].
    unfold schedulePoll. destruct (pollTimer s1); exact H1.
  - destruct (mem t (timers s)); [|discriminate]. intros [= <-].
    apply (UniqueIds_poll (set_timers _ s)). exact H.
  - destruct (findTask t s) as [[? ev []]|]; try discriminate.
    intros [= <-]. now apply UniqueIds_applyAck.
  - destruct (findTask t s) as [[? ev []]|]; try discriminate.
    intros [= <-]. now apply UniqueIds_applyAck.
  - destruct (findTask t s) as [[? ev []]|]; try discriminate.
    intros [= <-]. now apply UniqueIds_applyAck.
  - destruct (findTask t s) as [[? ev []]|]; try discriminate.
    intros [= <-]. now apply UniqueIds_applyAck.
  - destruct (findTask t s) as [[? ev []]|]; try discriminate.
    intros [= <-]. now apply UniqueIds_applyAck.
Qed.

Lemma reachable_UniqueIds s : reachable s -> UniqueIds s.
Proof.
  induction 1 as [env params s H | i s s' _ IH H].
  - unfold constructor in H. destruct (negb _); [discriminate|].
    destruct (_ =? _)%string; [discriminate|]. injection H as <-.
    split; constructor.
  - eapply UniqueIds_step; eassumption.
Qed.

(** ** One ack or nack for every handler call that returned *)

Lemma filter_all {A : Type} (p : A -> bool) l :
  (forall x, In x l -> p x = true) -> filter p l = l.
Proof.
  induction l as [|x l IH]; cbn [filter]; intros H; [reflexivity|].
  rewrite (H x) by now left. f_equal. apply IH. intros y Hy. apply H. now right.
Qed.

Lemma tid_absent l t :
  ~ In t (map tid l) -> forall x, In x l -> negb (tid x =? t)%nat = true.
Proof.
  intros H x Hx. apply negb_true_iff, Nat.eqb_neq. intros E. apply H.
  apply in_map_iff. now exists x.
Qed.



Lemma NoDup_active s : UniqueIds s -> NoDup (map tid (active s)).
Proof. intros [A _]. unfold ids in A. now apply NoDup_app_remove_l in A. Qed.























(** ** The acknowledgments in flight *)

Lemma RetryInv_same s s' : active s' = active s -> RetryInv s -> RetryInv s'.
Proof. unfold RetryInv. now intros ->. Qed.

Lemma RetryInv_startFrom w : forall s, RetryInv s -> RetryInv (startFrom w s).
Proof.
  induction w as [|[t ev] rest IH]; intros s H; cbn [startFrom]; [exact H|].
  destruct (queue_pending s <? concurrency s); [|exact H].
  unfold handleEvent. destruct (handler s ev).
  - unfold RetryInv. cbn [active set_waiting set_active emit].
    apply Forall_app. split; [exact H|]. constructor; [exact I | constructor].
  - apply IH. exact H.
Qed.

Lemma RetryInv_add_all entries :
  forall s, RetryInv s -> RetryInv (fold_left (fun st ev => queue_add ev st) entries s).
Proof.
  induction entries as [|ev rest IH]; intros s H; cbn [fold_left]; [exact H|].
  apply IH. unfold queue_add, tryToStartAnother. now apply RetryInv_startFrom.
Qed.

Lemma RetryInv_removeTask t s : RetryInv s -> RetryInv (removeTask t s).
Proof.
  unfold RetryInv. cbn [active removeTask set_active]. intros H.
  rewrite Forall_forall in *. intros k Hk. apply filter_In in Hk as [Hk _]. now apply H.
Qed.

Lemma find_tid_In l t k :
  find (fun x => (tid x =? t)%nat) l = Some k -> In k l /\ tid k = t.
Proof.
  intros H. apply find_some in H as [H1 H2]. split; [exact H1|].
  now apply Nat.eqb_eq.
Qed.

Lemma NoDup_tid_eq l x k :
  NoDup (map tid l) -> In x l -> In k l -> tid x = tid k -> x = k.
Proof.
  induction l as [|y l IH]; cbn [map]; intros Hn Hx Hk E; [destruct Hx|].
  inversion Hn as [|? ? Hy Hl]; subst.
  destruct Hx as [->|Hx], Hk as [->|Hk]; try reflexivity.
  - exfalso. apply Hy. rewrite E. now apply in_map.
  - exfalso. apply Hy. rewrite <- E. now apply in_map.
  - now apply IH.
Qed.

Lemma RetryInv_setPhase t p s k :
  UniqueIds s -> findTask t s = Some k ->
  ackOk (mkTask (tid k) (tev k) p) ->
  RetryInv s -> RetryInv (setPhase t p s).
Proof.
  intros U Hf Hp H. pose proof (NoDup_active s U) as Nd.
  destruct (find_tid_In _ _ _ Hf) as [Hk Ek].
  unfold RetryInv in *. cbn [active setPhase set_active].
  rewrite Forall_forall in *. intros x Hx.
  apply in_map_iff in Hx as (y & <- & Hy).
  destruct (Nat.eqb_spec (tid y) t) as [E|N]; [|now apply H].
  assert (y = k) by (apply (NoDup_tid_eq (active s)); congruence).
  now subst y.
Qed.

Lemma RetryInv_taskSettled t res s : RetryInv s -> RetryInv (taskSettled t res s).
Proof.
  intros H. unfold taskSettled, tryToStartAnother.
  pose proof (RetryInv_startFrom (waiting (removeTask t s)) _
                (RetryInv_removeTask t s H)) as H1.
  destruct res; [exact H1|].
  eapply RetryInv_same; [apply active_didHandleEvent | exact H1].
Qed.

Lemma findTask_emit_all l t s : findTask t (emit_all l s) = findTask t s.
Proof. unfold findTask. now rewrite active_emit_all. Qed.

Lemma RetryInv_applyAck t r s k :
  UniqueIds s -> findTask t s = Some k -> statusOk k (snd r) ->
  RetryInv s -> RetryInv (applyAck t r s).
Proof.
  intros U Hf Hs H. unfold applyAck.
  set (s1 := emit_all (fst r) s).
  assert (H1 : RetryInv s1) by (eapply RetryInv_same; [apply active_emit_all | exact H]).
  assert (U1 : UniqueIds s1) by now apply UniqueIds_emit_all.
  assert (F1 : findTask t s1 = Some k) by (subst s1; now rewrite findTask_emit_all).
  destruct (snd r).
  - now apply RetryInv_taskSettled.
  - now apply RetryInv_taskSettled.
  - now apply (RetryInv_setPhase t _ s1 k).
  - now apply (RetryInv_setPhase t _ s1 k).
Qed.

Lemma statusOk_handlerSettled n ev o :
  statusOk (mkTask n ev Handling) (snd (handlerSettled ev o)).
Proof.
  rewrite handlerSettled_status, ackNackHelper_status.
  destruct (String.eqb_spec (findLink (match o with None => "ack" | Some _ => "nack" end)
                                      (links ev)) "") as [E|N]; [exact I|].
  cbn. unfold okReq. cbn. repeat split; try lia; try exact N.
  destruct o; [now right | now left].
Qed.

Lemma RetryInv_step i s s' :
  UniqueIds s -> RetryInv s -> step i s = Some s' -> RetryInv s'.
Proof.
  intros U H.
  assert (Hin : forall t k, findTask t s = Some k -> ackOk k).
  { intros t k Hf. destruct (find_tid_In _ _ _ Hf) as [Hk _].
    unfold RetryInv in H. rewrite Forall_forall in H. now apply H. }
  destruct i; cbn [step].
  - intros [= <-]. eapply RetryInv_same; [apply active_poll | exact H].
  - intros [= <-]. unfold stop, cancelScheduledPoll, clearTimeout.
    cbn [pollTimer set_running].
    destruct (getQueueLength _ =? 0); destruct (pollTimer s); exact H.
  - destruct (fetches s); [discriminate|]. intros [= <-]. unfold onFetchResolved.
    set (s1 := set_polling false (set_fetches n s)).
    assert (H1 : RetryInv s1) by exact H.
    destruct (negb _); [exact H1|]. destruct (_ <? _)%nat.
    + eapply RetryInv_same; [apply (active_poll (fold_left _ entries s1))|].
      now apply RetryInv_add_all.
    + unfold schedulePoll. destruct (pollTimer s1); exact H1.
  - destruct (fetches s); [discriminate|]. intros [= <-]. unfold onFetchRejected.
    set (s1 := emit (AOnError e) (set_polling false (set_fetches n s))).
    assert (H1 : RetryInv s1) by exact H.
    destruct (running s1); [|exact H1].
    unfold schedulePoll. destruct (pollTimer s1); exact H1.
  - destruct (mem t (timers s)); [|discriminate]. intros [= <-].
    eapply RetryInv_same; [apply (active_poll (set_timers _ s)) | exact H].
  - destruct (findTask t s) as [[n ev []]|] eqn:Ef; try discriminate.
    intros [= <-].
    apply (RetryInv_applyAck t (handlerSettled ev None) s _ U Ef);
      [apply statusOk_handlerSettled | exact H].
  - destruct (findTask t s) as [[n ev []]|] eqn:Ef; try discriminate.
    remember (handlerSettled ev (Some e)) as r eqn:Er. intros [= <-].
    apply (RetryInv_applyAck t r s _ U Ef); [|exact H].
    subst r. apply statusOk_handlerSettled.
  - destruct (findTask t s) as [[n ev []]|] eqn:Ef; try discriminate.
    intros [= <-]. apply (RetryInv_applyAck t _ s _ U Ef); [exact I | exact H].
  - destruct (findTask t s) as [[n ev []]|] eqn:Ef; try discriminate.
    intros [= <-]. apply (RetryInv_applyAck t _ s _ U Ef); [|exact H].
    pose proof (Hin _ _ Ef) as [Ho Hc]. cbn [phase tev] in Ho, Hc.
    unfold onRequestRejected.
    destruct (Z.eqb_spec (a_retryCount r + 1) (a_retries r)) as [E|N]; [exact I|].
    cbn. destruct Ho as (O1 & O2 & O3 & O4). rewrite O1 in N.
    unfold okReq. cbn. repeat split; try assumption; lia.
  - destruct (findTask t s) as [[n ev []]|] eqn:Ef; try discriminate.
    intros [= <-]. apply (RetryInv_applyAck t _ s _ U Ef); [|exact H].
    pose proof (Hin _ _ Ef) as [Ho Hc]. cbn [phase tev] in Ho, Hc.
    cbn. split; [exact Ho | lia].
Qed.

Lemma reachable_RetryInv s : reachable s -> RetryInv s.
Proof.
  induction 1 as [env params s H | i s s' R IH H].
  - unfold constructor in H. destruct (negb _); [discriminate|].
    destruct (_ =? _)%string; [discriminate|]. injection H as <-. constructor.
  - eapply RetryInv_step; [apply reachable_UniqueIds, R | exact IH | exact H].
Qed.

(** X14: in every reachable state, every task that acknowledges runs with
    the bound 3 and the delay 500, posts to the ack or nack link of its own
    event, and has failed fewer than 3 times (at least once when it waits
    for a retry); the last failure of such a task at two failures settles
    it, and an earlier one arms a timer of 500. *)
Theorem X14_acknowledgments_in_flight (s : State) (k : Task) :
  reachable s -> In k (active s) ->
  match phase k with
  | Handling => True
  | Requesting r =>
      okReq (tev k) r /\ 0 <= a_retryCount r < 3
      /\ (forall e, onRequestRejected e r
                    = if a_retryCount r =? 2 then ([AOnError e], AckRejected e)
                      else ([ASetTimeout 500],
                            AckWaiting (mkAckReq (a_url r) (a_retryCount r + 1) 3 500)))
  | RetryWait r => okReq (tev k) r /\ 1 <= a_retryCount r < 3
  end.
Proof.
  intros R Hk. pose proof (reachable_RetryInv s R) as H.
  unfold RetryInv in H. rewrite Forall_forall in H. specialize (H k Hk).
  unfold ackOk in H. destruct (phase k) as [|r|r]; [exact I | | exact H].
  destruct H as [Ho Hc]. split; [exact Ho|]. split; [exact Hc|].
  intros e. destruct Ho as (O1 & O2 & _). unfold onRequestRejected.
  rewrite O1, O2.
  destruct (Z.eqb_spec (a_retryCount r) 2) as [E|N].
  - rewrite E. reflexivity.
  - destruct (Z.eqb_spec (a_retryCount r + 1) 3); [lia | reflexivity].
Qed.

Lemma X14_acknowledgments_in_flight_witness :
  let s := after [Start; FetchOk [ev1]; HandlerResolve 0;
                  PostFail 0 "ECONNREFUSED"; RetryFire 0] consumer1 in
  let r := mkAckReq "http://localhost:2113/ack/ev1" 1 3 500 in
  active s = [mkTask 0 ev1 (Requesting r)]
  /\ okReq ev1 r /\ 0 <= 1 < 3
  /\ (forall e, onRequestRejected e r
                = if 1 =? 2 then ([AOnError e], AckRejected e)
                  else ([ASetTimeout 500],
                        AckWaiting (mkAckReq (a_url r) (1 + 1) 3 500))).
Proof.
  intros s r. split; [vm_compute; reflexivity|].
  apply (X14_acknowledgments_in_flight s (mkTask 0 ev1 (Requesting r))).
  - apply reachable_after, reachable_consumer1.
  - vm_compute. left. reflexivity.
Defined.

(** ** The delays of the timers *)

Lemma quiet_isSetTimeout : quiet isSetTimeout.
Proof. intros [] H; simpl in *; congruence. Qed.

Lemma pollDelay_cfg s s' : cfgOf s' = cfgOf s -> pollDelay s' = pollDelay s.
Proof. unfold cfgOf. congruence. Qed.

Lemma TimersOk_grow s s' l :
  cfgOf s' = cfgOf s -> sel isSetTimeout s' = sel isSetTimeout s ++ l ->
  Forall (okTimer s) l -> TimersOk s -> TimersOk s'.
Proof.
  intros Ec El Hl H. unfold TimersOk. rewrite El. apply Forall_app. split.
  - eapply Forall_impl; [|exact H]. intros a. unfold okTimer.
    now rewrite (pollDelay_cfg _ _ Ec).
  - eapply Forall_impl; [|exact Hl]. intros a. unfold okTimer.
    now rewrite (pollDelay_cfg _ _ Ec).
Qed.

Lemma TimersOk_same s s' :
  cfgOf s' = cfgOf s -> sel isSetTimeout s' = sel isSetTimeout s ->
  TimersOk s -> TimersOk s'.
Proof.
  intros Ec El. apply (TimersOk_grow s s' []); [exact Ec | | constructor].
  now rewrite app_nil_r.
Qed.

Lemma TimersOk_queueFrame s s' :
  queueFrame isSetTimeout s s' -> TimersOk s -> TimersOk s'.
Proof. intros (E & _ & _ & _ & _ & _ & F). now apply TimersOk_same. Qed.

Lemma TimersOk_schedulePoll s : TimersOk s -> TimersOk (schedulePoll s).
Proof.
  unfold schedulePoll. destruct (pollTimer s); [tauto|].
  apply (TimersOk_grow s _ [ASetTimeout (pollDelay s)]).
  - reflexivity.
  - unfold sel. cbn. now rewrite filter_app.
  - constructor; [now left | constructor].
Qed.

Lemma TimersOk_poll s : TimersOk s -> TimersOk (poll s).
Proof.
  intros H. destruct (poll_cases s) as [[_ ->]|[(_ & _ & ->)|(_ & _ & ->)]].
  - now apply TimersOk_schedulePoll.
  - exact H.
  - apply (TimersOk_same s); [apply pollerFrame_issuePoll | | exact H].
    rewrite sel_issuePoll. apply app_nil_r.
Qed.

Lemma TimersOk_emit a s : isSetTimeout a = false -> TimersOk s -> TimersOk (emit a s).
Proof. intros Ha. apply TimersOk_queueFrame, queueFrame_emit, Ha. Qed.

Lemma TimersOk_didHandleEvent s : TimersOk s -> TimersOk (didHandleEvent s).
Proof.
  intros H. unfold didHandleEvent.
  set (s1 := if getQueueLength s =? 0 then emit (AEmit "drain") s else s).
  assert (H1 : TimersOk s1).
  { subst s1. destruct (getQueueLength s =? 0); [|exact H]. now apply TimersOk_emit. }
  destruct (running s1); [now apply TimersOk_poll | exact H1].
Qed.

Lemma TimersOk_taskSettled t res s : TimersOk s -> TimersOk (taskSettled t res s).
Proof.
  intros H. unfold taskSettled.
  assert (H1 : TimersOk (tryToStartAnother (removeTask t s))).
  { eapply TimersOk_queueFrame; [|exact H].
    eapply queueFrame_trans; [apply queueFrame_removeTask|].
    apply queueFrame_startFrom, quiet_isSetTimeout. }
  destruct res; [now apply TimersOk_emit | now apply TimersOk_didHandleEvent].
Qed.

Lemma TimersOk_emit_all l :
  Forall (fun a => isSetTimeout a = true -> a = ASetTimeout 500) l ->
  forall s, TimersOk s -> TimersOk (emit_all l s).
Proof.
  induction l as [|a l IH]; intros Hl s H; cbn [emit_all fold_left]; [exact H|].
  inversion Hl as [|? ? Ha Hl']; subst. apply (IH Hl').
  destruct (isSetTimeout a) eqn:E; [|now apply TimersOk_emit].
  apply (TimersOk_grow s _ [a]).
  - reflexivity.
  - now rewrite sel_emit, E.
  - constructor; [right; now apply Ha | constructor].
  - exact H.
Qed.

Lemma TimersOk_applyAck t r s :
  Forall (fun a => isSetTimeout a = true -> a = ASetTimeout 500) (fst r) ->
  TimersOk s -> TimersOk (applyAck t r s).
Proof.
  intros Hr H. unfold applyAck.
  pose proof (TimersOk_emit_all (fst r) Hr s H) as H1.
  destruct (snd r).
  - now apply TimersOk_taskSettled.
  - now apply TimersOk_taskSettled.
  - eapply TimersOk_queueFrame; [apply queueFrame_setPhase | exact H1].
  - eapply TimersOk_queueFrame; [apply queueFrame_setPhase | exact H1].
Qed.

Lemma noTimer_ok l :
  filter isSetTimeout l = [] ->
  Forall (fun a => isSetTimeout a = true -> a = ASetTimeout 500) l.
Proof.
  induction l as [|a l IH]; cbn [filter]; intros H; constructor.
  - destruct (isSetTimeout a); [discriminate | discriminate].
  - apply IH. now destruct (isSetTimeout a).
Qed.

Lemma noTimer_handlerSettled ev o :
  filter isSetTimeout (fst (handlerSettled ev o)) = [].
Proof.
  destruct o as [e|]; cbn [handlerSettled]; unfold ack, nack, ackNackHelper;
    destruct (_ =? "")%string; reflexivity.
Qed.

Lemma TimersOk_step i s s' :
  RetryInv s -> TimersOk s -> step i s = Some s' -> TimersOk s'.
Proof.
  intros Hr H.
  assert (Hin : forall t k, findTask t s = Some k -> ackOk k).
  { intros t k Hf. destruct (find_tid_In _ _ _ Hf) as [Hk _].
    unfold RetryInv in Hr. rewrite Forall_forall in Hr. now apply Hr. }
  destruct i; cbn [step].
  - intros [= <-]. apply (TimersOk_poll (set_running true s)). exact H.
  - intros [= <-]. unfold stop, cancelScheduledPoll, clearTimeout.
    cbn [pollTimer set_running].
    destruct (getQueueLength _ =? 0); destruct (pollTimer s); exact H.
  - destruct (fetches s); [discriminate|]. intros [= <-]. unfold onFetchResolved.
    set (s1 := set_polling false (set_fetches n s)).
    assert (H1 : TimersOk s1) by exact H.
    destruct (negb _); [exact H1|]. destruct (_ <? _)%nat.
    + apply TimersOk_emit; [reflexivity|]. apply TimersOk_poll.
      eapply TimersOk_queueFrame; [|exact H1].
      apply queueFrame_add_all, quiet_isSetTimeout.
    + apply TimersOk_emit; [reflexivity|]. now apply TimersOk_schedulePoll.
  - destruct (fetches s); [discriminate|]. intros [= <-]. unfold onFetchRejected.
    set (s1 := emit (AOnError e) (set_polling false (set_fetches n s))).
    assert (H1 : TimersOk s1) by (apply TimersOk_emit; [reflexivity | exact H]).
    destruct (running s1); [now apply TimersOk_schedulePoll | exact H1].
  - destruct (mem t (timers s)); [|discriminate]. intros [= <-].
    apply (TimersOk_poll (set_timers _ s)). exact H.
  - destruct (findTask t s) as [[n ev []]|] eqn:Ef; try discriminate.
    intros [= <-]. apply TimersOk_applyAck; [|exact H].
    apply noTimer_ok, (noTimer_handlerSettled ev None).
  - destruct (findTask t s) as [[n ev []]|] eqn:Ef; try discriminate.
    remember (handlerSettled ev (Some e)) as r eqn:Er. intros [= <-].
    apply TimersOk_applyAck; [|exact H].
    subst r. apply noTimer_ok, noTimer_handlerSettled.
  - destruct (findTask t s) as [[n ev []]|] eqn:Ef; try discriminate.
    intros [= <-]. apply TimersOk_applyAck; [constructor | exact H].
  - destruct (findTask t s) as [[n ev []]|] eqn:Ef; try discriminate.
    intros [= <-]. apply TimersOk_applyAck; [|exact H].
    pose proof (Hin _ _ Ef) as [(_ & O2 & _) _]. cbn [phase tev] in O2.
    unfold onRequestRejected. destruct (_ =? _); cbn [fst].
    + constructor; [discriminate | constructor].
    + constructor; [intros _; now rewrite O2 | constructor].
  - destruct (findTask t s) as [[n ev []]|] eqn:Ef; try discriminate.
    intros [= <-]. apply TimersOk_applyAck; [|exact H].
    constructor; [discriminate | constructor].
Qed.

(** X15: every timer that the consumer arms waits for the poll delay of
    the constructor (a re-check of the poller) or for 500 ms (a retry of an
    ack or nack): the delays are fixed, they never grow. *)
Theorem X15_timer_delays (s : State) (d : Z) :
  reachable s -> In (ASetTimeout d) (trace s) ->
  d = pollDelay s \/ d = 500.
Proof.
  intros R Hin.
  assert (H : TimersOk s).
  { clear Hin. induction R as [env params s H | i s s' R IH H].
    - unfold constructor in H. destruct (negb _); [discriminate|].
      destruct (_ =? _)%string; [discriminate|]. injection H as <-. constructor.
    - eapply TimersOk_step; [apply reachable_RetryInv, R | | exact H].
      apply IH. }
  unfold TimersOk in H. rewrite Forall_forall in H.
  destruct (H (ASetTimeout d)) as [E|E].
  - apply filter_In. now split.
  - left. congruence.
  - right. congruence.
Qed.

Lemma X15_timer_delays_witness :
  let s := after [Start; FetchOk [ev1]; HandlerResolve 0;
                  PostFail 0 "ECONNREFUSED"] consumerSlow in
  sel isSetTimeout s = [ASetTimeout 2000; ASetTimeout 500]
  /\ (2000 = pollDelay s \/ 2000 = 500).
Proof.
  intros s. split; [vm_compute; reflexivity|].
  apply (X15_timer_delays s 2000).
  - apply reachable_after.
    apply (reach_new None paramsSlow consumerSlow). reflexivity.
  - vm_compute. right. right. right. left. reflexivity.
Defined.

(** ** No event waits while a slot is free *)

Lemma NoWait_same s s' :
  waiting s' = waiting s -> active s' = active s -> concurrency s' = concurrency s ->
  NoWait s -> NoWait s'.
Proof. unfold NoWait, queue_pending. intros -> -> ->. tauto. Qed.

Lemma startFrom_one_slot w :
  forall s, concurrency s <= queue_pending s + 1 -> NoWait (startFrom w s).
Proof.
  induction w as [|[t ev] rest IH]; intros s H; cbn [startFrom].
  - now left.
  - destruct (Z.ltb_spec (queue_pending s) (concurrency s)) as [Hlt|Hge].
    + unfold handleEvent. destruct (handler s ev).
      * right. unfold queue_pending in *.
        cbn [active concurrency set_waiting set_active emit].
        rewrite length_app. cbn [List.length]. lia.
      * apply IH. exact H.
    + right. exact Hge.
Qed.

Lemma startFrom_single x s : NoWait (startFrom [x] s).
Proof.
  destruct x as [t ev]. cbn [startFrom].
  destruct (Z.ltb_spec (queue_pending s) (concurrency s)) as [Hlt|Hge].
  - unfold handleEvent. destruct (handler s ev); now left.
  - right. exact Hge.
Qed.

Lemma startFrom_full w s :
  concurrency s <= queue_pending s -> startFrom w s = set_waiting w s.
Proof.
  intros H. destruct w as [|[t ev] rest]; cbn [startFrom]; [reflexivity|].
  destruct (Z.ltb_spec (queue_pending s) (concurrency s)); [lia | reflexivity].
Qed.

Lemma NoWait_queue_add ev s : NoWait s -> NoWait (queue_add ev s).
Proof.
  intros [Hw|Hc]; unfold queue_add, tryToStartAnother;
    cbn [waiting set_nextTid set_waiting].
  - rewrite Hw. apply startFrom_single.
  - rewrite startFrom_full by exact Hc. right. exact Hc.
Qed.

Lemma NoWait_add_all entries :
  forall s, NoWait s -> NoWait (fold_left (fun st ev => queue_add ev st) entries s).
Proof.
  induction entries as [|ev rest IH]; intros s H; cbn [fold_left]; [exact H|].
  now apply IH, NoWait_queue_add.
Qed.

Lemma remove_at_most_one l t :
  NoDup (map tid l) ->
  (List.length l <= List.length (filter (fun x => negb (tid x =? t)%nat) l) + 1)%nat.
Proof.
  induction l as [|x l IH]; cbn [map filter List.length]; intros Hn; [lia|].
  inversion Hn as [|? ? Hx Hl]; subst.
  destruct (Nat.eqb_spec (tid x) t) as [E|N]; cbn [negb List.length].
  - subst t. rewrite (filter_all _ l (tid_absent l (tid x) Hx)). lia.
  - specialize (IH Hl). lia.
Qed.

Lemma NoWait_taskSettled t res s :
  UniqueIds s -> QueueInv s -> NoWait s -> NoWait (taskSettled t res s).
Proof.
  intros U [_ Hq] H. unfold taskSettled, tryToStartAnother.
  assert (H1 : NoWait (startFrom (waiting (removeTask t s)) (removeTask t s))).
  { destruct H as [Hw|Hc].
    - cbn [waiting removeTask set_active]. rewrite Hw. now left.
    - apply startFrom_one_slot. unfold queue_pending in *.
      cbn [active concurrency removeTask set_active].
      pose proof (remove_at_most_one (active s) t (NoDup_active s U)). lia. }
  destruct res.
  - exact H1.
  - destruct (pollerFrame_didHandleEvent
                (startFrom (waiting (removeTask t s)) (removeTask t s)))
      as (Ec & _ & Eq).
    unfold queueOf in Eq. injection Eq as Ew Ea.
    eapply NoWait_same; [exact Ew | exact Ea | apply cfgOf_concurrency, Ec | exact H1].
Qed.

Lemma NoWait_applyAck t r s :
  UniqueIds s -> QueueInv s -> NoWait s -> NoWait (applyAck t r s).
Proof.
  intros U Q H. unfold applyAck.
  set (s1 := emit_all (fst r) s).
  destruct (keeps_emit_all noAction (fst r) (noAction_all _) s) as (_ & Ew & _).
  assert (H1 : NoWait s1).
  { eapply NoWait_same; [exact Ew | apply active_emit_all
                         | apply concurrency_emit_all | exact H]. }
  assert (U1 : UniqueIds s1) by now apply UniqueIds_emit_all.
  assert (Q1 : QueueInv s1) by now apply QueueInv_emit_all.
  destruct (snd r).
  - now apply NoWait_taskSettled.
  - now apply NoWait_taskSettled.
  - destruct H1 as [A|B]; [now left | right].
    unfold queue_pending in *. cbn [active concurrency setPhase set_active].
    now rewrite length_map.
  - destruct H1 as [A|B]; [now left | right].
    unfold queue_pending in *. cbn [active concurrency setPhase set_active].
    now rewrite length_map.
Qed.

Lemma NoWait_pollerFrame s s' : pollerFrame s s' -> NoWait s -> NoWait s'.
Proof.
  intros (Ec & _ & Eq). unfold queueOf in Eq. injection Eq as Ew Ea.
  apply NoWait_same; [exact Ew | exact Ea | apply cfgOf_concurrency, Ec].
Qed.

Lemma NoWait_step i s s' :
  UniqueIds s -> QueueInv s -> NoWait s -> step i s = Some s' -> NoWait s'.
Proof.
  intros U Q H. destruct i; cbn [step].
  - intros [= <-]. apply (NoWait_pollerFrame (set_running true s)); [|exact H].
    apply pollerFrame_poll.
  - intros [= <-]. unfold stop, cancelScheduledPoll, clearTimeout.
    cbn [pollTimer set_running].
    destruct (getQueueLength _ =? 0); destruct (pollTimer s); exact H.
  - destruct (fetches s); [discriminate|]. intros [= <-]. unfold onFetchResolved.
    set (s1 := set_polling false (set_fetches n s)).
    assert (H1 : NoWait s1) by exact H.
    destruct (negb _); [exact H1|]. destruct (_ <? _)%nat.
    + apply (NoWait_pollerFrame (poll (fold_left (fun st ev => queue_add ev st) entries s1)));
        [apply pollerFrame_emit|].
      eapply NoWait_pollerFrame; [apply pollerFrame_poll|].
      now apply NoWait_add_all.
    + apply (NoWait_pollerFrame (schedulePoll s1)); [apply pollerFrame_emit|].
      eapply NoWait_pollerFrame; [apply pollerFrame_schedulePoll | exact H1].
  - destruct (fetches s); [discriminate|]. intros [= <-]. unfold onFetchRejected.
    set (s1 := emit (AOnError e) (set_polling false (set_fetches n s))).
    assert (H1 : NoWait s1) by exact H.
    destruct (running s1); [|exact H1].
    eapply NoWait_pollerFrame; [apply pollerFrame_schedulePoll | exact H1].
  - destruct (mem t (timers s)); [|discriminate]. intros [= <-].
    apply (NoWait_pollerFrame (set_timers (remove Nat.eq_dec t (timers s)) s));
      [apply pollerFrame_poll | exact H].
  - destruct (findTask t s) as [[? ev []]|]; try discriminate.
    intros [= <-]. now apply NoWait_applyAck.
  - destruct (findTask t s) as [[? ev []]|]; try discriminate.
    intros [= <-]. now apply NoWait_applyAck.
  - destruct (findTask t s) as [[? ev []]|]; try discriminate.
    intros [= <-]. now apply NoWait_applyAck.
  - destruct (findTask t s) as [[? ev []]|]; try discriminate.
    intros [= <-]. now apply NoWait_applyAck.
  - destruct (findTask t s) as [[? ev []]|]; try discriminate.
    intros [= <-]. now apply NoWait_applyAck.
Qed.

Lemma reachable_QueueInv s : reachable s -> QueueInv s.
Proof.
  induction 1 as [env params s H | i s s' _ IH H].
  - destruct (constructor_fields env params s H) as (_ & H1 & Ha & _).
    split; [exact H1|]. unfold queue_pending. rewrite Ha. simpl. lia.
  - eapply QueueInv_step; eassumption.
Qed.

(** X16: no event waits while a slot is free, and none is fetched without
    one.  In every reachable state, when an event waits in the queue all
    the slots are taken (as many tasks are started as the ceiling allows);
    and while a GET is outstanding no event waits, so the count it asked
    for is covered by free slots. *)
Theorem X16_no_event_waits_for_a_free_slot (s : State) :
  reachable s ->
  (waiting s <> [] -> queue_pending s = concurrency s)
  /\ (fetches s <> 0%nat ->
      waiting s = [] /\ queue_pending s < concurrency s).
Proof.
  intros R.
  assert (H : NoWait s).
  { induction R as [env params s H | i s s' R IH H].
    - left. now destruct (constructor_fields env params s H) as (_ & _ & _ & W & _).
    - eapply NoWait_step; [apply reachable_UniqueIds, R | apply reachable_QueueInv, R
                           | exact IH | exact H]. }
  destruct (reachable_QueueInv s R) as [_ Hq]. split.
  - intros Hw. destruct H as [E|Hc]; [contradiction | lia].
  - intros Hf. destruct (fetch_outstanding s R Hf) as (_ & _ & _ & _ & Hc).
    assert (Hp : queue_pending s < concurrency s).
    { unfold getQueueLength, queue_size in Hc. lia. }
    split; [|exact Hp]. destruct H as [E|Hc']; [exact E | lia].
Qed.

Lemma X16_no_event_waits_for_a_free_slot_witness :
  let s := after [Start; FetchOk [ev1; ev2; ev1; ev2; ev1; ev2; ev1]] consumer5 in
  List.length (waiting s) = 2%nat /\ queue_pending s = concurrency s.
Proof.
  intros s. split; [vm_compute; reflexivity|].
  apply (proj1 (X16_no_event_waits_for_a_free_slot s
                  (reachable_after _ _ reachable_consumer5))).
  vm_compute. discriminate.
Defined.

(** ** The error of a request (src/index.js) *)

(** X17: [request] of src/index.js rethrows every error that is not a
    StatusCodeError as it is; a StatusCodeError with a response becomes an
    Error with code EVENT_STORE_ERROR and its status code as [status]; in
    both cases what is thrown is no StatusCodeError, so passing it through
    the callback again changes nothing. *)
Theorem X17_request_error_translation (method url : string) (e e' : JsError) :
  request_catch method url e = Some e' ->
  (e_name e <> "StatusCodeError" -> e' = e)
  /\ (e_name e = "StatusCodeError" ->
      e_name e' = "Error" /\ e_code e' = Some "EVENT_STORE_ERROR"
      /\ e_status e' = e_statusCode e)
  /\ e_name e' <> "StatusCodeError"
  /\ forall method' url', request_catch method' url' e' = Some e'.
Proof.
  unfold request_catch.
  destruct (String.eqb_spec (e_name e) "StatusCodeError") as [E|N].
  - destruct (e_response e) as [m|]; [|discriminate]. intros [= <-].
    split; [congruence|]. split; [now intros _|]. split; [discriminate|].
    reflexivity.
  - intros [= <-]. split; [reflexivity|]. split; [congruence|].
    split; [exact N|]. intros method' url'.
    apply String.eqb_neq in N. now rewrite N.
Qed.

Lemma X17_request_error_translation_witness :
  let e' := mkJsError "Error"
              "EventStore error 404: Not Found. Method: GET. URL: http://localhost:2113/ack/ev1"
              (Some "EVENT_STORE_ERROR") (Some 404) None None in
  request_catch "GET" "http://localhost:2113/ack/ev1" notFound = Some e'
  /\ e_name e' <> "StatusCodeError"
  /\ request_catch "POST" "http://localhost:2113/nack/ev1" e' = Some e'.
Proof.
  intros e'.
  assert (H : request_catch "GET" "http://localhost:2113/ack/ev1" notFound = Some e')
    by reflexivity.
  split; [exact H|].
  destruct (X17_request_error_translation "GET" "http://localhost:2113/ack/ev1"
              notFound e' H) as (_ & _ & A & B).
  split; [exact A | apply B].
Defined.
